(** * openapi_gen: the dataclass-to-OpenAPI compiler of [_tool.py]

    A shallow embedding of [utils.py], [gen_types.py], [_tool.py] and of the
    endpoint declared in [example_service_endpoint.py], followed by the
    properties of the compiler that the design document states.

    Python values are modelled as follows.
    - [str] is [string]; the methods the code calls on it ([startswith],
      [lower], [capitalize], [split]) are written out on ASCII.
    - A [dict] is an association list in insertion order (Python keeps that
      order and [yaml.dump(..., sort_keys=False)] prints it): assigning to
      an existing key keeps the key's position, a new key goes to the end.
    - Every dict of the program is shared by reference and mutated in
      place; the embedding threads the dict through the calls instead.
    - A raised exception is a value of [result]; recursion that Python
      would only end with a [RecursionError] is cut by a fuel counter.
      An exception ends the run: [generate] passes it on before it opens
      the output file, so the state reached at the raise is not kept. *)

From Stdlib Require Import String Ascii List ZArith Bool Arith Lia.
Import ListNotations.
Local Open Scope string_scope.
Local Open Scope list_scope.

Set Implicit Arguments.
Set Warnings "-register-all".

(** ** Exceptions and results *)

Inductive exn : Type :=
| ValueError (msg : string)
| TypeError (msg : string)
| KeyError (key : string)
| IndexError
| AttributeError (attr : string)
| UnboundLocalError (var : string).

Inductive result (A : Type) : Type :=
| Ok (a : A)
| Raise (e : exn)
| OutOfFuel.

Arguments Ok {A} a.
Arguments Raise {A} e.
Arguments OutOfFuel {A}.

Definition bind {A B : Type} (m : result A) (k : A -> result B) : result B :=
  match m with
  | Ok a => k a
  | Raise e => Raise e
  | OutOfFuel => OutOfFuel
  end.

Notation "x <- m ;; k" := (bind m (fun x => k))
  (at level 61, m at next level, right associativity).
Notation "' p <- m ;; k" := (bind m (fun x => let p := x in k))
  (at level 61, p pattern, m at next level, right associativity).

(** ** Strings *)

Module Str.

Definition is_upper (c : ascii) : bool :=
  let n := nat_of_ascii c in Nat.leb 65 n && Nat.leb n 90.

Definition is_lower (c : ascii) : bool :=
  let n := nat_of_ascii c in Nat.leb 97 n && Nat.leb n 122.

Definition lower_char (c : ascii) : ascii :=
  if is_upper c then ascii_of_nat (nat_of_ascii c + 32) else c.

Definition upper_char (c : ascii) : ascii :=
  if is_lower c then ascii_of_nat (nat_of_ascii c - 32) else c.

Fixpoint map (f : ascii -> ascii) (s : string) : string :=
  match s with
  | EmptyString => EmptyString
  | String c s' => String (f c) (map f s')
  end.

(** [s.lower()] *)
Definition lower (s : string) : string := map lower_char s.

(** [s.capitalize()]: first character upper-cased, the rest lower-cased. *)
Definition capitalize (s : string) : string :=
  match s with
  | EmptyString => EmptyString
  | String c s' => String (upper_char c) (lower s')
  end.

(** [s.startswith(p)] *)
Definition startswith (p s : string) : bool := String.prefix p s.

(** [s.split(sep)] for a one-character separator: never empty. *)
Fixpoint split_acc (sep : ascii) (cur : string) (s : string) : list string :=
  match s with
  | EmptyString => [cur]
  | String c s' =>
      if Ascii.eqb c sep then cur :: split_acc sep EmptyString s'
      else split_acc sep (cur ++ String c EmptyString)%string s'
  end.

Definition split (sep : ascii) (s : string) : list string :=
  split_acc sep EmptyString s.

(** ["".join(ws)] *)
Definition join (ws : list string) : string :=
  fold_right String.append EmptyString ws.

Fixpoint mem (c : ascii) (s : string) : bool :=
  match s with
  | EmptyString => false
  | String c' s' => Ascii.eqb c c' || mem c s'
  end.

Fixpoint all (p : ascii -> bool) (s : string) : bool :=
  match s with
  | EmptyString => true
  | String c s' => p c && all p s'
  end.

End Str.

(** ** Dictionaries *)

Section Dict.

Variable V : Type.

Definition dict : Type := list (string * V).

(** [d.get(k)] / [d[k]] *)
Fixpoint dict_get (d : dict) (k : string) : option V :=
  match d with
  | [] => None
  | (k', v) :: d' => if String.eqb k k' then Some v else dict_get d' k
  end.

(** [k in d] *)
Definition dict_mem (d : dict) (k : string) : bool :=
  match dict_get d k with Some _ => true | None => false end.

(** [d[k] = v] *)
Fixpoint dict_set (d : dict) (k : string) (v : V) : dict :=
  match d with
  | [] => [(k, v)]
  | (k', v') :: d' =>
      if String.eqb k k' then (k', v) :: d' else (k', v') :: dict_set d' k v
  end.

(** [d.pop(k)], the dictionary that is left *)
Fixpoint dict_del (d : dict) (k : string) : dict :=
  match d with
  | [] => []
  | (k', v') :: d' =>
      if String.eqb k k' then d' else (k', v') :: dict_del d' k
  end.

(** [d.update(d2)] and [d |= d2] *)
Definition dict_update (d d2 : dict) : dict :=
  fold_left (fun acc kv => dict_set acc (fst kv) (snd kv)) d2 d.

Definition dict_keys (d : dict) : list string := List.map fst d.

End Dict.

Arguments dict_get {V} d k.
Arguments dict_mem {V} d k.
Arguments dict_set {V} d k v.
Arguments dict_del {V} d k.
Arguments dict_update {V} d d2.
Arguments dict_keys {V} d.

(** ** Schema values

    What the compiler builds for [components]: strings, booleans, numbers,
    lists and string-keyed dicts. *)

Inductive json : Type :=
| JNone
| JBool (b : bool)
| JInt (z : Z)
| JStr (s : string)
| JList (l : list json)
| JDict (d : list (string * json)).

Definition jref (prefix name : string) : json :=
  JDict [("$ref", JStr (prefix ++ name)%string)].

Definition schema_ref (name : string) : json :=
  jref "#/components/schemas/" name.

Definition parameter_ref (name : string) : json :=
  jref "#/components/parameters/" name.

(** [k in v] on a value: key membership in a dict, element membership in
    a list, substring test on a string, [TypeError] on the rest. *)
Fixpoint is_substring (k s : string) : bool :=
  String.prefix k s ||
  match s with
  | EmptyString => false
  | String _ s' => is_substring k s'
  end.

Definition json_eqb_str (k : string) (x : json) : bool :=
  match x with JStr s => String.eqb s k | _ => false end.

Definition json_contains (v : json) (k : string) : result bool :=
  match v with
  | JDict d => Ok (dict_mem d k)
  | JList l => Ok (existsb (json_eqb_str k) l)
  | JStr s => Ok (is_substring k s)
  | _ => Raise (TypeError "argument is not iterable")
  end.

(** [v[k]] on a value assumed to be a dict. *)
Definition json_getitem (v : json) (k : string) : result json :=
  match v with
  | JDict d =>
      match dict_get d k with
      | Some x => Ok x
      | None => Raise (KeyError k)
      end
  | _ => Raise (TypeError "not subscriptable by a string")
  end.

(** ** [utils.py] *)

Module Utils.

(** [f"{w[0].capitalize()}{w[1:]}"]; only called on a non-empty [w]. *)
Definition capitalize_first (w : string) : string :=
  match w with
  | EmptyString => EmptyString
  | String c w' => String (Str.upper_char c) w'
  end.

(** The comprehension of [snake_case_to_camel_case]: [idx] counts the
    pieces of the split, the empty ones included; empty pieces are
    dropped. *)
Fixpoint camel_words (idx : nat) (ws : list string) : list string :=
  match ws with
  | [] => []
  | w :: ws' =>
      if String.eqb w "" then camel_words (S idx) ws'
      else (if Nat.eqb idx 0 then w else capitalize_first w)
             :: camel_words (S idx) ws'
  end.

Definition snake_case_to_camel_case (s : string) : string :=
  Str.join (camel_words 0 (Str.split "_" s)).

(** The [for key, value in entity.items()] loop, [new_dict] being the
    accumulator. *)
Fixpoint deep_change_keys_by_format (format : string -> string)
         (entity : json) : json :=
  match entity with
  | JList l => JList (List.map (deep_change_keys_by_format format) l)
  | JDict d =>
      JDict
        ((fix items (d : list (string * json)) (new_dict : dict json)
            : dict json :=
            match d with
            | [] => new_dict
            | (key, value) :: d' =>
                items d'
                  (dict_set new_dict (format key)
                     (deep_change_keys_by_format format value))
            end) d [])
  | _ => entity
  end.

(** The same loop as a function of its own, for the lemmas. *)
Fixpoint change_items (format : string -> string)
         (d : list (string * json)) (new_dict : dict json) : dict json :=
  match d with
  | [] => new_dict
  | (key, value) :: d' =>
      change_items format d'
        (dict_set new_dict (format key)
           (deep_change_keys_by_format format value))
  end.

End Utils.

(** ** [gen_types.py] and the Python objects the generator inspects *)

(** Values found as field defaults and class attributes. [PMissing] is
    [dataclasses.MISSING]; [PObj] is an instance of a class without
    [__bool__] or [__len__]. *)
Inductive pyval : Type :=
| PMissing
| PNone
| PBool (b : bool)
| PInt (z : Z)
| PStr (s : string)
| PObj (cls : string).

(** [bool(v)] *)
Definition truthy (v : pyval) : bool :=
  match v with
  | PMissing => true
  | PNone => false
  | PBool b => b
  | PInt z => negb (Z.eqb z 0)
  | PStr s => negb (String.eqb s "")
  | PObj _ => true
  end.

(** A class is named by a handle; the classes themselves live in a class
    table, so that a field can be typed by its own class. *)
Definition class_id : Type := string.

(** The declared type of a field, as [get_origin] and [get_args], the
    class tests and the identity tests of [type_to_schema] see it. *)
Inductive ty : Type :=
| TNoneType                         (* type(None) *)
| TStr | TInt | TFloat | TBool
| TUnion (args : list ty)           (* typing.Union[...] and X | Y *)
| TList (args : list ty)            (* list[...] and typing.List[...] *)
| TEnum (name : string) (values : list json)
| TClass (c : class_id)
| TOther (name : string).           (* dict, Any, a forward reference... *)

Record field : Type := {
  f_name : string;
  f_type : ty;
  f_default : pyval                 (* as written in the class body *)
}.

(** A class statement: its [__name__], whether it carries [@dataclass],
    the annotated names of its body in order, and the class attributes it
    inherits from bases that are not dataclasses. *)
Record pyclass : Type := {
  c_name : string;
  c_dataclass : bool;
  c_body : list field;
  c_inherited : list (string * pyval)
}.

Definition class_table : Type := list (class_id * pyclass).

Module GenTypes.

(** [class AbstractInput]: four class attributes, all [None]. *)
Definition AbstractInput : list (string * pyval) :=
  [("queryStringParameters", PNone);
   ("bodyInput", PNone);
   ("pathParameters", PNone);
   ("headers", PNone)].

(** [class AbstractOutput]: one annotation, no class attribute. *)
Definition AbstractOutput : list (string * pyval) := [].

Record GeneratorConfig : Type := {
  serviceName : string;
  description : string;
  operationId : string;
  httpMethod : string;
  httpPath : string;
  serviceInput : option pyclass;    (* [None]: no class given *)
  serviceOutput : option pyclass
}.

End GenTypes.
Export GenTypes.

(** [getattr(cls, name)] on a class after [@dataclass] has run: a default
    written in the body stays a class attribute; otherwise the attribute
    is looked up in the bases. *)
Definition class_getattr (c : pyclass) (name : string) : option pyval :=
  match find (fun f => String.eqb (f_name f) name
                       && negb match f_default f with PMissing => true | _ => false end)
             (c_body c) with
  | Some f => Some (f_default f)
  | None => dict_get (c_inherited c) name
  end.

(** [dataclasses.fields(cls)]: the decorator reads each default with
    [getattr(cls, name, MISSING)], so an inherited class attribute becomes
    the default of a field declared without one. *)
Definition dataclass_field (c : pyclass) (f : field) : field :=
  {| f_name := f_name f;
     f_type := f_type f;
     f_default := match class_getattr c (f_name f) with
                  | Some v => v
                  | None => PMissing
                  end |}.

Definition dataclass_fields (c : pyclass) : result (list field) :=
  if c_dataclass c then Ok (List.map (dataclass_field c) (c_body c))
  else Raise (TypeError "must be called with a dataclass type or instance").

(** ** [_tool.py]: the type resolver and the record compiler *)

Definition is_NoneType (t : ty) : bool :=
  match t with TNoneType => true | _ => false end.

(** [OpenApiGenerator.is_optional]: a union with [type(None)] among its
    arguments. (The middle disjunct of the source compares [get_origin]
    with [typing.Optional], which [get_origin] never returns.) *)
Definition is_optional (tp : ty) : bool :=
  match tp with
  | TUnion args => existsb is_NoneType args
  | _ => false
  end.

Definition lookup_class (env : class_table) (c : class_id) : option pyclass :=
  dict_get env c.

Definition string_schema : json := JDict [("type", JStr "string")].

Section Resolver.

Variable env : class_table.

(** [[type_to_schema(a, known_defs)[0] for a in args]]: every call works
    on the one shared [known_defs]. *)
Fixpoint resolve_each (resolve : ty -> dict json -> result (json * dict json))
         (args : list ty) (known_defs : dict json)
  : result (list json * dict json) :=
  match args with
  | [] => Ok ([], known_defs)
  | a :: args' =>
      '(schema, defs) <- resolve a known_defs ;;
      '(schemas, defs') <- resolve_each resolve args' defs ;;
      Ok (schema :: schemas, defs')
  end.

(** The [for field in dataclasses.fields(cls)] loop of
    [dataclass_to_openapi_schema]. [defs] is the very dict [root_types],
    so [root_types.update(defs)] changes nothing. *)
Fixpoint fields_loop (resolve : ty -> dict json -> result (json * dict json))
         (fields : list field) (props : dict json) (required : list string)
         (root_types : dict json)
  : result (dict json * list string * dict json) :=
  match fields with
  | [] => Ok (props, required, root_types)
  | field :: fields' =>
      if Str.startswith "_" (f_name field) then
        fields_loop resolve fields' props required root_types
      else
        let field_type := f_type field in
        '(prop_schema, defs) <- resolve field_type root_types ;;
        let props := dict_set props (f_name field) prop_schema in
        let required :=
          if negb (is_optional field_type)
          then required ++ [f_name field] else required in
        fields_loop resolve fields' props required defs
  end.

(** [schema = {"type": "object", "properties": props}], then
    [schema["required"] = required] when the list is not empty. *)
Definition object_schema (props : dict json) (required : list string) : json :=
  JDict
    (match required with
     | [] => [("type", JStr "object"); ("properties", JDict props)]
     | _ :: _ =>
         dict_set [("type", JStr "object"); ("properties", JDict props)]
           "required" (JList (List.map JStr required))
     end).

Fixpoint type_to_schema (fuel : nat) (_target_type : ty)
         (known_defs : dict json) {struct fuel} : result (json * dict json) :=
  match fuel with
  | O => OutOfFuel
  | S fuel' =>
      match _target_type with
      | TUnion targs =>
          let args := filter (fun a => negb (is_NoneType a)) targs in
          match args with
          | [a] => type_to_schema fuel' a known_defs
          | _ =>
              '(schemas, defs) <-
                resolve_each (type_to_schema fuel') args known_defs ;;
              Ok (JDict [("oneOf", JList schemas)], defs)
          end
      | TList targs =>
          match targs with
          | [] => Raise IndexError
          | item_type :: _ =>
              '(items_schema, defs) <-
                type_to_schema fuel' item_type known_defs ;;
              Ok (JDict [("type", JStr "array"); ("items", items_schema)],
                  defs)
          end
      | TEnum _ values =>
          Ok (JDict [("type", JStr "string"); ("enum", JList values)],
              known_defs)
      | TClass cid =>
          match lookup_class env cid with
          | Some cls =>
              if c_dataclass cls then
                let name := c_name cls in
                if negb (dict_mem known_defs name) then
                  '(schema, defs) <-
                    dataclass_to_openapi_schema fuel' cls known_defs ;;
                  Ok (schema_ref name, dict_set defs name schema)
                else Ok (schema_ref name, known_defs)
              else Ok (string_schema, known_defs)
          | None => Ok (string_schema, known_defs)
          end
      | TStr => Ok (JDict [("type", JStr "string")], known_defs)
      | TInt => Ok (JDict [("type", JStr "integer")], known_defs)
      | TFloat => Ok (JDict [("type", JStr "number")], known_defs)
      | TBool => Ok (JDict [("type", JStr "boolean")], known_defs)
      | TNoneType | TOther _ => Ok (string_schema, known_defs)
      end
  end

with dataclass_to_openapi_schema (fuel : nat) (cls : pyclass)
       (root_types : dict json) {struct fuel} : result (json * dict json) :=
  match fuel with
  | O => OutOfFuel
  | S fuel' =>
      fields <- dataclass_fields cls ;;
      '(props, required, root_types) <-
        fields_loop (type_to_schema fuel') fields [] [] root_types ;;
      let schema := object_schema props required in
      Ok (schema, dict_set root_types (c_name cls) schema)
  end.

End Resolver.

(** ** [_tool.py]: the document and its accessors *)

(** What a method entry holds: plain data, or a dict whose keys are not
    all strings ([responses] is keyed by the integer 200, [content] by the
    default of [_contentType]). *)
Inductive pyobj : Type :=
| OVal (j : json)
| ODict (d : list (pyval * pyobj)).

Definition method_entry : Type := dict pyobj.
Definition path_item : Type := dict method_entry.

(** [self.openapi_build], as [build_openapi_base] lays it out: the keys of
    the shell and of [components] are never added or removed afterwards. *)
Record document : Type := {
  openapi : string;
  info : dict json;
  schemas : dict json;
  parameters : dict json;
  responses : dict json;
  examples : dict json;
  paths : dict path_item
}.

Definition set_schemas (d : document) (s : dict json) : document :=
  {| openapi := openapi d; info := info d; schemas := s;
     parameters := parameters d; responses := responses d;
     examples := examples d; paths := paths d |}.

Definition set_parameters (d : document) (p : dict json) : document :=
  {| openapi := openapi d; info := info d; schemas := schemas d;
     parameters := p; responses := responses d;
     examples := examples d; paths := paths d |}.

Definition set_paths (d : document) (p : dict path_item) : document :=
  {| openapi := openapi d; info := info d; schemas := schemas d;
     parameters := parameters d; responses := responses d;
     examples := examples d; paths := p |}.

Inductive SearchEndpointDeclaration : Type :=
| OneEndpointConfig.

Record OpenApiGenerator : Type := {
  output_openapi_file : string;
  search_endpoint_declaration : SearchEndpointDeclaration;
  endpoint_config : list GeneratorConfig;
  openapi_version : string;
  openapi_build : option document;
  to_camel_case_schemas : bool
}.

(** [OpenApiGenerator.__init__]; the membership test on the declaration
    holds for the only member there is. *)
Definition init (openapi_version : string)
           (search_endpoint_declaration : SearchEndpointDeclaration)
           (output_openapi_file : string) (to_camel_case_schemas : bool)
           (endpoint_config : option GeneratorConfig)
  : result OpenApiGenerator :=
  match search_endpoint_declaration, endpoint_config with
  | OneEndpointConfig, None =>
      Raise (ValueError
        "GeneratorConfig is required when using GeneratorConfig search endpoint declaration.")
  | OneEndpointConfig, Some config =>
      Ok {| output_openapi_file := output_openapi_file;
            search_endpoint_declaration := search_endpoint_declaration;
            endpoint_config := [config];
            openapi_version := openapi_version;
            openapi_build := None;
            to_camel_case_schemas := to_camel_case_schemas |}
  end.

Definition with_build (g : OpenApiGenerator) (d : option document)
  : OpenApiGenerator :=
  {| output_openapi_file := output_openapi_file g;
     search_endpoint_declaration := search_endpoint_declaration g;
     endpoint_config := endpoint_config g;
     openapi_version := openapi_version g;
     openapi_build := d;
     to_camel_case_schemas := to_camel_case_schemas g |}.

Definition base_document (version title description doc_version : string)
  : document :=
  {| openapi := version;
     info := [("title", JStr title); ("description", JStr description);
              ("version", JStr doc_version)];
     schemas := []; parameters := []; responses := []; examples := [];
     paths := [] |}.

Definition build_openapi_base (g : OpenApiGenerator)
           (title description version : string) : OpenApiGenerator :=
  with_build g
    (Some (base_document (openapi_version g) title description version)).

(** [setSchemas]: with the casing switch on, the keys of [schemas] are
    rewritten at every level before the registry is updated. *)
Definition cased (to_camel_case_schemas : bool) (s : dict json) : dict json :=
  if to_camel_case_schemas then
    match Utils.deep_change_keys_by_format Utils.snake_case_to_camel_case
            (JDict s) with
    | JDict s' => s'
    | _ => s
    end
  else s.

Definition setSchemas (to_camel_case_schemas : bool) (s : dict json)
           (registry : dict json) : dict json :=
  dict_update registry (cased to_camel_case_schemas s).

(** [addPath] *)
Definition addPath (newPath : string) (ps : dict path_item) : dict path_item :=
  if negb (dict_mem ps newPath) then dict_set ps newPath [] else ps.

(** [self.getPath(p)[m] = entry]: the path item is a shared dict. *)
Definition set_method (ps : dict path_item) (p m : string) (entry : method_entry)
  : dict path_item :=
  match dict_get ps p with
  | Some item => dict_set ps p (dict_set item m entry)
  | None => ps
  end.

Definition get_method (ps : dict path_item) (p m : string) : option method_entry :=
  match dict_get ps p with
  | Some item => dict_get item m
  | None => None
  end.

Definition as_dict (v : json) : result (dict json) :=
  match v with
  | JDict d => Ok d
  | _ => Raise (AttributeError "items")
  end.

(** [registry.pop(k)] *)
Definition pop (registry : dict json) (k : string) : result (json * dict json) :=
  match dict_get registry k with
  | Some v => Ok (v, dict_del registry k)
  | None => Raise (KeyError k)
  end.

(** [if k in registry: registry.pop(k)] *)
Definition discard (registry : dict json) (k : string) : dict json :=
  if dict_mem registry k then dict_del registry k else registry.

(** [registry[new] = registry.pop(old)] *)
Definition rename (registry : dict json) (old new : string)
  : result (dict json) :=
  '(v, registry') <- pop registry old ;;
  Ok (dict_set registry' new v).

(** [if k in registry: if "$ref" in registry[k]: registry.pop(k)] *)
Definition discard_if_ref (registry : dict json) (k : string)
  : result (dict json) :=
  match dict_get registry k with
  | Some v =>
      is_ref <- json_contains v "$ref" ;;
      Ok (if is_ref then dict_del registry k else registry)
  | None => Ok registry
  end.

(** [lower if lower in registry and not "$ref" in registry[lower] else
    capitalized] *)
Definition group_target (registry : dict json) (lower capitalized : string)
  : result string :=
  match dict_get registry lower with
  | Some v =>
      is_ref <- json_contains v "$ref" ;;
      Ok (if negb is_ref then lower else capitalized)
  | None => Ok capitalized
  end.

(** ** [_tool.py]: [process_services] *)

(** The three objects the field-group blocks mutate. *)
Record extraction : Type := {
  x_schemas : dict json;                (* self.getSchemas() *)
  x_parameters : dict json;             (* the local [parameters] *)
  x_method_parameters : list json       (* httpMethodInfo["parameters"] *)
}.

Definition query_parameter (queryParametersKey : string) : json :=
  JDict [("name", JStr queryParametersKey);
         ("in", JStr "query");
         ("required", JBool false);
         ("schema", schema_ref queryParametersKey)].

Definition path_parameter (name key : string) : json :=
  JDict [("name", JStr key);
         ("in", JStr "path");
         ("required", JBool true);
         ("schema", schema_ref name)].

(** Lines 244-269. *)
Definition query_group (domainName : string) (x : extraction)
  : result extraction :=
  queryParamsTarget <-
    group_target (x_schemas x) "queryStringParameters" "QueryStringParameters" ;;
  if dict_mem (x_schemas x) queryParamsTarget then
    let queryParametersKey := (domainName ++ "QueryStringParameters")%string in
    registry <- rename (x_schemas x) queryParamsTarget queryParametersKey ;;
    Ok {| x_schemas := discard registry "queryStringParameters";
          x_parameters :=
            dict_set (x_parameters x) queryParametersKey
              (query_parameter queryParametersKey);
          x_method_parameters :=
            x_method_parameters x ++ [parameter_ref queryParametersKey] |}
  else Ok x.

(** Lines 286-302: [for key, value in _properties.items()]. *)
Fixpoint path_properties (pathParametersKey : string)
         (_properties : list (string * json)) (x : extraction) : extraction :=
  match _properties with
  | [] => x
  | (key, value) :: rest =>
      let name := (pathParametersKey ++ key)%string in
      path_properties pathParametersKey rest
        {| x_schemas := dict_set (x_schemas x) name value;
           x_parameters :=
             dict_set (x_parameters x) name (path_parameter name key);
           x_method_parameters :=
             x_method_parameters x ++ [parameter_ref name] |}
  end.

(** Lines 271-306. *)
Definition path_group (domainName : string) (x : extraction)
  : result extraction :=
  pathParamTarget <-
    group_target (x_schemas x) "pathParameters" "PathParameters" ;;
  if dict_mem (x_schemas x) pathParamTarget then
    let pathParametersKey := (domainName ++ "PathParameters")%string in
    registry <- rename (x_schemas x) pathParamTarget pathParametersKey ;;
    aggregate <- json_getitem (JDict registry) pathParametersKey ;;
    _properties <- json_getitem aggregate "properties" ;;
    items <- as_dict _properties ;;
    let x' :=
      path_properties pathParametersKey items
        {| x_schemas := registry;
           x_parameters := x_parameters x;
           x_method_parameters := x_method_parameters x |} in
    '(_, registry') <- pop (discard (x_schemas x') "pathParameters")
                          pathParametersKey ;;
    Ok {| x_schemas := registry';
          x_parameters := x_parameters x';
          x_method_parameters := x_method_parameters x' |}
  else Ok x.

(** Lines 308-318. [bodyInputKey] is a local of [process_services]: it is
    bound here or keeps what an earlier endpoint of the loop left. *)
Definition body_group (domainName : string) (registry : dict json)
           (bodyInputKey : option string)
  : result (dict json * option string) :=
  bodyInputTarget <- group_target registry "bodyInput" "BodyInput" ;;
  if dict_mem registry bodyInputTarget then
    let key := (domainName ++ "BodyInput")%string in
    registry' <- rename registry bodyInputTarget key ;;
    Ok (discard registry' "bodyInput", Some key)
  else Ok (registry, bodyInputKey).

Definition request_body_object (bodyInputKey : string) : pyobj :=
  OVal (JDict [("description", JStr "Request body");
               ("content",
                JDict [("application/json",
                        JDict [("schema", schema_ref bodyInputKey)])])]).

(** Lines 324-334. *)
Definition request_body (inputSchema : pyclass) (bodyInputKey : option string)
           (httpMethodInfo : method_entry) : result method_entry :=
  match class_getattr inputSchema "bodyInput" with
  | None => Raise (AttributeError "bodyInput")
  | Some v =>
      if truthy v then
        match bodyInputKey with
        | None => Raise (UnboundLocalError "bodyInputKey")
        | Some key =>
            Ok (dict_set httpMethodInfo "requestBody" (request_body_object key))
        end
      else Ok httpMethodInfo
  end.

(** [get_type_hints(cls).get("bodyOutput")], on the annotations of the
    class body. The annotation a class inherits from [AbstractOutput]
    ([bodyOutput: OB], a type variable) is not represented: the code
    fails on it at [pop] or at [dataclasses.fields], the model at
    [__name__]. *)
Definition type_hint (c : pyclass) (name : string) : option ty :=
  match find (fun f => String.eqb (f_name f) name) (c_body c) with
  | Some f => Some (f_type f)
  | None => None
  end.

(** Lines 364-373: the dict that replaces [httpMethodInfo["responses"]]. *)
Definition success_responses (inspectContent : pyval) (name : string) : pyobj :=
  ODict [(PInt 200,
          ODict [(PStr "content",
                  ODict [(inspectContent,
                          OVal (JDict [("schema", schema_ref name)]))]);
                 (PStr "description", OVal (JStr "Success"))])].

(** Lines 192-196: the path with its leading slash. *)
Definition normalized_path (service : GeneratorConfig) : string :=
  if Str.startswith "/" (httpPath service) then httpPath service
  else ("/" ++ httpPath service)%string.

(** Lines 203-207: the entry the method starts with. *)
Definition new_method_entry (service : GeneratorConfig) : method_entry :=
  [("operationId", OVal (JStr (operationId service)));
   ("summary", OVal (JStr (description service)));
   ("responses", ODict [])].

(** Line 215: [getattr(inputSchema, "domainName", "_").capitalize()]. *)
Definition domain_name (inputSchema : pyclass) : result string :=
  match class_getattr inputSchema "domainName" with
  | None => Ok (Str.capitalize "_")
  | Some (PStr d) => Ok (Str.capitalize d)
  | Some _ => Raise (AttributeError "capitalize")
  end.

Record loop_state : Type := {
  ls_doc : document;
  ls_bodyInputKey : option string
}.

Section Endpoints.

Variable env : class_table.
Variable fuel : nat.
Variable to_camel_case : bool.

(** [dataclass_to_openapi_schema(cls)]: [root_types] defaults to [{}]. *)
Definition compile (cls : pyclass) : result (json * dict json) :=
  dataclass_to_openapi_schema env fuel cls [].

(** Lines 222-240: the input record's properties and both records'
    registries enter the document's registry. (The [print] of line 223
    writes to the standard output only.) *)
Definition register_schemas (inputSchema outputSchema : pyclass)
           (registry : dict json) : result (dict json) :=
  '(_schema, defs) <- compile inputSchema ;;
  properties <- json_getitem _schema "properties" ;;
  properties <- as_dict properties ;;
  let registry := setSchemas to_camel_case properties registry in
  let registry := discard registry "domainName" in
  registry <- discard_if_ref registry "pathPatameters" ;;
  registry <- discard_if_ref registry "queryStringParameters" ;;
  let registry := setSchemas to_camel_case defs registry in
  '(_schema, defs) <- compile outputSchema ;;
  Ok (setSchemas to_camel_case defs registry).

(** Lines 338-373. [inspectBody] has to be a dataclass of the table for
    [__name__], [pop] and [dataclasses.fields] to go through; the
    exception raised otherwise is rendered as one [TypeError]. *)
Definition output_processing (domainName : string) (outputSchema : pyclass)
           (registry : dict json) : result (dict json * pyobj) :=
  let _name := c_name outputSchema in
  registry <-
    (if c_dataclass outputSchema then
       '(_, defs) <- compile outputSchema ;;
       Ok (setSchemas to_camel_case defs registry)
     else Ok registry) ;;
  '(_, registry) <- pop registry _name ;;
  match type_hint outputSchema "bodyOutput" with
  | None => Raise (AttributeError "__name__")
  | Some (TClass cid) =>
      match lookup_class env cid with
      | Some inspectBody =>
          let body_name := c_name inspectBody in
          registry <-
            rename registry body_name (domainName ++ body_name)%string ;;
          fields <- dataclass_fields inspectBody ;;
          match filter (fun f => String.eqb (f_name f) "_contentType") fields with
          | [] => Raise IndexError
          | f :: _ =>
              Ok (registry,
                  success_responses (f_default f)
                    (domainName ++ body_name)%string)
          end
      | None => Raise (TypeError "bodyOutput is not a dataclass")
      end
  | Some _ => Raise (TypeError "bodyOutput is not a dataclass")
  end.

(** One turn of [for service in services_info]. The method entry
    [httpMethodInfo] is the dict stored under the path item: it is built
    here as a local value and stored again once complete. *)
Definition process_service (service : GeneratorConfig) (st : loop_state)
  : result loop_state :=
  let doc := ls_doc st in
  let service_name := serviceName service in
  let httpPath := normalized_path service in
  let httpMethod := Str.lower (httpMethod service) in
  let httpMethodInfo := new_method_entry service in
  let all_paths :=
    set_method (addPath httpPath (paths doc)) httpPath httpMethod
      httpMethodInfo in
  match serviceInput service with
  | None =>
      Raise (ValueError
               ("Input schema not found for service " ++ service_name)%string)
  | Some inputSchema =>
      domainName <- domain_name inputSchema ;;
      match serviceOutput service with
      | None =>
          Raise (ValueError
                   ("Output schema not found for service " ++ service_name)%string)
      | Some outputSchema =>
          registry <-
            register_schemas inputSchema outputSchema (schemas doc) ;;
          let httpMethodInfo :=
            dict_set httpMethodInfo "parameters" (OVal (JList [])) in
          x <- query_group domainName
                 {| x_schemas := registry; x_parameters := [];
                    x_method_parameters := [] |} ;;
          x <- path_group domainName x ;;
          '(registry, bodyInputKey) <-
            body_group domainName (x_schemas x) (ls_bodyInputKey st) ;;
          let registry := discard registry (c_name inputSchema) in
          let httpMethodInfo :=
            dict_set httpMethodInfo "parameters"
              (OVal (JList (x_method_parameters x))) in
          httpMethodInfo <-
            request_body inputSchema bodyInputKey httpMethodInfo ;;
          let merged := dict_update (parameters doc) (x_parameters x) in
          '(registry, responses) <-
            output_processing domainName outputSchema registry ;;
          let httpMethodInfo :=
            dict_set httpMethodInfo "responses" responses in
          Ok {| ls_doc :=
                  set_paths
                    (set_parameters (set_schemas doc registry) merged)
                    (set_method all_paths httpPath httpMethod httpMethodInfo);
                ls_bodyInputKey := bodyInputKey |}
      end
  end.

Fixpoint services_loop (services_info : list GeneratorConfig)
         (st : loop_state) : result loop_state :=
  match services_info with
  | [] => Ok st
  | service :: rest =>
      st' <- process_service service st ;;
      services_loop rest st'
  end.

(** [process_services]; without a document the first [getPaths] fails
    on [None]. *)
Definition process_services (g : OpenApiGenerator)
           (services_info : list GeneratorConfig) : result OpenApiGenerator :=
  match services_info, openapi_build g with
  | [], _ => Ok g
  | _ :: _, None => Raise (AttributeError "get")
  | _ :: _, Some doc =>
      st <- services_loop services_info
              {| ls_doc := doc; ls_bodyInputKey := None |} ;;
      Ok (with_build g (Some (ls_doc st)))
  end.

End Endpoints.

(** The files of the run: name and content. *)
Definition files : Type := dict string.

Section Generate.

Variable env : class_table.
Variable fuel : nat.

(** [yaml.dump(self.openapi_build, f, sort_keys=False, ...)]: the text
    is a function of the object dumped. *)
Variable yaml_dump : option document -> string.

(** [self.process_services(self.endpoint_config)] *)
Definition process_configured (g : OpenApiGenerator) : result OpenApiGenerator :=
  process_services env fuel (to_camel_case_schemas g) g (endpoint_config g).

(** [generate]: the file is opened only once [process_services] has
    returned. *)
Definition generate (g : OpenApiGenerator) (fs : files)
  : result OpenApiGenerator * files :=
  match openapi_build g with
  | None => (Raise (ValueError "OpenAPI build is not initialized."), fs)
  | Some _ =>
      match search_endpoint_declaration g with
      | OneEndpointConfig =>
          match process_configured g with
          | Ok g' =>
              (Ok g',
               dict_set fs (output_openapi_file g')
                 (yaml_dump (openapi_build g')))
          | Raise e => (Raise e, fs)
          | OutOfFuel => (OutOfFuel, fs)
          end
      end
  end.

End Generate.

(** ** [example_service_endpoint.py] and [main.py] *)

Module Example.

Definition QueryStringParametersUser : pyclass :=
  {| c_name := "QueryStringParametersUser"; c_dataclass := true;
     c_body := [ {| f_name := "user"; f_type := TStr; f_default := PMissing |} ];
     c_inherited := [] |}.

Definition QueryStringParametersOrganization : pyclass :=
  {| c_name := "QueryStringParametersOrganization"; c_dataclass := true;
     c_body := [ {| f_name := "organizationName"; f_type := TStr;
                    f_default := PMissing |} ];
     c_inherited := [] |}.

Definition PathParameters : pyclass :=
  {| c_name := "PathParameters"; c_dataclass := true;
     c_body := [ {| f_name := "userId"; f_type := TStr; f_default := PMissing |} ];
     c_inherited := [] |}.

Definition OutputBody : pyclass :=
  {| c_name := "OutputBody"; c_dataclass := true;
     c_body :=
       [ {| f_name := "code"; f_type := TInt; f_default := PMissing |};
         {| f_name := "message"; f_type := TStr; f_default := PMissing |};
         {| f_name := "response"; f_type := TOther "dict";
            f_default := PMissing |};
         {| f_name := "_contentType"; f_type := TStr;
            f_default := PStr "application/json" |} ];
     c_inherited := [] |}.

Definition RequestSchema : pyclass :=
  {| c_name := "RequestSchema"; c_dataclass := true;
     c_body :=
       [ {| f_name := "domainName"; f_type := TStr; f_default := PStr "_" |};
         {| f_name := "queryStringParameters";
            f_type := TUnion [TClass "QueryStringParametersUser";
                              TClass "QueryStringParametersOrganization"];
            f_default := PMissing |};
         {| f_name := "pathParameters"; f_type := TClass "PathParameters";
            f_default := PMissing |} ];
     c_inherited := GenTypes.AbstractInput |}.

Definition ResponseSchema : pyclass :=
  {| c_name := "ResponseSchema"; c_dataclass := true;
     c_body := [ {| f_name := "bodyOutput"; f_type := TClass "OutputBody";
                    f_default := PMissing |} ];
     c_inherited := GenTypes.AbstractOutput |}.

Definition classes : class_table :=
  [("QueryStringParametersUser", QueryStringParametersUser);
   ("QueryStringParametersOrganization", QueryStringParametersOrganization);
   ("PathParameters", PathParameters);
   ("OutputBody", OutputBody);
   ("RequestSchema", RequestSchema);
   ("ResponseSchema", ResponseSchema)].

Definition endpoint_config : GeneratorConfig :=
  {| serviceInput := Some RequestSchema;
     serviceOutput := Some ResponseSchema;
     serviceName := "MyService";
     description := "My service description";
     operationId := "myEndpoint";
     httpMethod := "GET";
     httpPath := "world/{userId}" |}.

(** [main.py] up to the call of [generate]. *)
Definition generator : result OpenApiGenerator :=
  g <- init "3.1.0" OneEndpointConfig "output_openapi.yaml" true
         (Some endpoint_config) ;;
  Ok (build_openapi_base g "Service" "Description" "1.0").

(** The generator these two statements leave. *)
Definition built : OpenApiGenerator :=
  build_openapi_base
    (Build_OpenApiGenerator "output_openapi.yaml" OneEndpointConfig
       [endpoint_config] "3.1.0" None true)
    "Service" "Description" "1.0".

(** [generator.process_services(generator.endpoint_config)], the
    compiling step of [generator.generate()]. *)
Definition compiled (fuel : nat) : result OpenApiGenerator :=
  g <- generator ;;
  process_configured classes fuel g.

End Example.

(** ** Further inputs

    Records and endpoints the properties below are evaluated on. *)

Module RequiredExample.

(** [{a: string, b: Optional<string>}] *)
Definition AB : pyclass :=
  {| c_name := "AB"; c_dataclass := true;
     c_body :=
       [ {| f_name := "a"; f_type := TStr; f_default := PMissing |};
         {| f_name := "b"; f_type := TUnion [TStr; TNoneType];
            f_default := PMissing |} ];
     c_inherited := [] |}.

Definition AB_schema : json :=
  JDict [("type", JStr "object");
         ("properties",
          JDict [("a", JDict [("type", JStr "string")]);
                 ("b", JDict [("type", JStr "string")])]);
         ("required", JList [JStr "a"])].


End RequiredExample.

Module Cyclic.

(** [class Node: value: int; next: Optional[Node]], the type of [next]
    holding the class [Node] itself. (An annotation left as the string
    ["Node"] is no class: it is a [TOther].) *)
Definition Node : pyclass :=
  {| c_name := "Node"; c_dataclass := true;
     c_body :=
       [ {| f_name := "value"; f_type := TInt; f_default := PMissing |};
         {| f_name := "next"; f_type := TUnion [TClass "Node"; TNoneType];
            f_default := PNone |} ];
     c_inherited := [] |}.

Definition classes : class_table := [("Node", Node)].

End Cyclic.

Module CasingExample.

(** [class UserRecord: user_id: str; nick_name: Optional[str]] *)
Definition UserRecord : pyclass :=
  {| c_name := "UserRecord"; c_dataclass := true;
     c_body :=
       [ {| f_name := "user_id"; f_type := TStr; f_default := PMissing |};
         {| f_name := "nick_name"; f_type := TUnion [TStr; TNoneType];
            f_default := PNone |} ];
     c_inherited := [] |}.

Definition user_id : field :=
  {| f_name := "user_id"; f_type := TStr; f_default := PMissing |}.

Definition schema : json :=
  JDict [("type", JStr "object");
         ("properties",
          JDict [("user_id", JDict [("type", JStr "string")]);
                 ("nick_name", JDict [("type", JStr "string")])]);
         ("required", JList [JStr "user_id"])].

End CasingExample.

Module TwoEndpoints.

(** A second endpoint of the same domain, with the same records. *)
Definition second : GeneratorConfig :=
  {| serviceInput := Some Example.RequestSchema;
     serviceOutput := Some Example.ResponseSchema;
     serviceName := "OtherService";
     description := "Another service";
     operationId := "otherEndpoint";
     httpMethod := "POST";
     httpPath := "/users/{userId}" |}.

Definition start : loop_state :=
  {| ls_doc := base_document "3.1.0" "Service" "Description" "1.0";
     ls_bodyInputKey := None |}.

(** Another method on the path of the example. *)
Definition same_path : GeneratorConfig :=
  {| serviceInput := Some Example.RequestSchema;
     serviceOutput := Some Example.ResponseSchema;
     serviceName := "MyService";
     description := "Replace it";
     operationId := "putEndpoint";
     httpMethod := "PUT";
     httpPath := "/world/{userId}" |}.

End TwoEndpoints.

Module Incomplete.

(** The endpoint of the example without its input class. *)
Definition no_input : GeneratorConfig :=
  {| serviceInput := None;
     serviceOutput := Some Example.ResponseSchema;
     serviceName := "MyService";
     description := "My service description";
     operationId := "myEndpoint";
     httpMethod := "GET";
     httpPath := "world/{userId}" |}.

Definition generator : OpenApiGenerator :=
  build_openapi_base
    {| output_openapi_file := "output_openapi.yaml";
       search_endpoint_declaration := OneEndpointConfig;
       endpoint_config := [no_input];
       openapi_version := "3.1.0";
       openapi_build := None;
       to_camel_case_schemas := true |}
    "Service" "Description" "1.0".

End Incomplete.

Module BodyExample.

Definition Body : pyclass :=
  {| c_name := "Body"; c_dataclass := true;
     c_body := [ {| f_name := "text"; f_type := TStr; f_default := PMissing |} ];
     c_inherited := [] |}.

(** The declaration [bodyInput: Body], without a default. *)
Definition bodyInput : field :=
  {| f_name := "bodyInput"; f_type := TClass "Body"; f_default := PMissing |}.

(** [@dataclass class Request(AbstractInput[...]): bodyInput: Body] *)
Definition Request : pyclass :=
  {| c_name := "Request"; c_dataclass := true;
     c_body := [bodyInput];
     c_inherited := GenTypes.AbstractInput |}.

Definition classes : class_table :=
  [("Body", Body); ("Request", Request);
   ("OutputBody", Example.OutputBody);
   ("ResponseSchema", Example.ResponseSchema)].

Definition endpoint : GeneratorConfig :=
  {| serviceInput := Some Request;
     serviceOutput := Some Example.ResponseSchema;
     serviceName := "Post";
     description := "Post a text";
     operationId := "postText";
     httpMethod := "POST";
     httpPath := "/texts" |}.

End BodyExample.

Module BoundBody.

(** [@dataclass(frozen=True) class BodyInput: text: str = ""] *)
Definition BodyInput : pyclass :=
  {| c_name := "BodyInput"; c_dataclass := true;
     c_body := [ {| f_name := "text"; f_type := TStr; f_default := PStr "" |} ];
     c_inherited := [] |}.

(** [@dataclass class Request(AbstractInput[...]):
       bodyInput: BodyInput = BodyInput()] *)
Definition Request : pyclass :=
  {| c_name := "Request"; c_dataclass := true;
     c_body := [ {| f_name := "bodyInput"; f_type := TClass "BodyInput";
                    f_default := PObj "BodyInput" |} ];
     c_inherited := GenTypes.AbstractInput |}.

Definition classes : class_table :=
  [("BodyInput", BodyInput); ("Request", Request);
   ("OutputBody", Example.OutputBody);
   ("ResponseSchema", Example.ResponseSchema)].

Definition endpoint : GeneratorConfig :=
  {| serviceInput := Some Request;
     serviceOutput := Some Example.ResponseSchema;
     serviceName := "Post";
     description := "Post a text";
     operationId := "postText";
     httpMethod := "POST";
     httpPath := "/texts" |}.

End BoundBody.

Module UnboundBody.

(** The same endpoint, its body record named [Body]. *)
Definition Body : pyclass :=
  {| c_name := "Body"; c_dataclass := true;
     c_body := [ {| f_name := "text"; f_type := TStr; f_default := PStr "" |} ];
     c_inherited := [] |}.

Definition Request : pyclass :=
  {| c_name := "Request"; c_dataclass := true;
     c_body := [ {| f_name := "bodyInput"; f_type := TClass "Body";
                    f_default := PObj "Body" |} ];
     c_inherited := GenTypes.AbstractInput |}.

Definition classes : class_table :=
  [("Body", Body); ("Request", Request);
   ("OutputBody", Example.OutputBody);
   ("ResponseSchema", Example.ResponseSchema)].

Definition endpoint : GeneratorConfig :=
  {| serviceInput := Some Request;
     serviceOutput := Some Example.ResponseSchema;
     serviceName := "Post";
     description := "Post a text";
     operationId := "postText";
     httpMethod := "POST";
     httpPath := "/texts" |}.

End UnboundBody.

Module StalePath.

(** The example, its path record named [UserPath]. *)
Definition UserPath : pyclass :=
  {| c_name := "UserPath"; c_dataclass := true;
     c_body := [ {| f_name := "userId"; f_type := TStr; f_default := PMissing |} ];
     c_inherited := [] |}.

Definition RequestSchema : pyclass :=
  {| c_name := "RequestSchema"; c_dataclass := true;
     c_body :=
       [ {| f_name := "domainName"; f_type := TStr; f_default := PStr "_" |};
         {| f_name := "queryStringParameters";
            f_type := TUnion [TClass "QueryStringParametersUser";
                              TClass "QueryStringParametersOrganization"];
            f_default := PMissing |};
         {| f_name := "pathParameters"; f_type := TClass "UserPath";
            f_default := PMissing |} ];
     c_inherited := GenTypes.AbstractInput |}.

Definition classes : class_table :=
  [("QueryStringParametersUser", Example.QueryStringParametersUser);
   ("QueryStringParametersOrganization",
    Example.QueryStringParametersOrganization);
   ("UserPath", UserPath);
   ("OutputBody", Example.OutputBody);
   ("RequestSchema", RequestSchema);
   ("ResponseSchema", Example.ResponseSchema)].

Definition endpoint : GeneratorConfig :=
  {| serviceInput := Some RequestSchema;
     serviceOutput := Some Example.ResponseSchema;
     serviceName := "MyService";
     description := "My service description";
     operationId := "myEndpoint";
     httpMethod := "GET";
     httpPath := "world/{userId}" |}.

End StalePath.

Module StaleQuery.

(** The example, its query typed by the one record [UserQuery]. *)
Definition UserQuery : pyclass :=
  {| c_name := "UserQuery"; c_dataclass := true;
     c_body := [ {| f_name := "user"; f_type := TStr; f_default := PMissing |} ];
     c_inherited := [] |}.

Definition RequestSchema : pyclass :=
  {| c_name := "RequestSchema"; c_dataclass := true;
     c_body :=
       [ {| f_name := "domainName"; f_type := TStr; f_default := PStr "_" |};
         {| f_name := "queryStringParameters"; f_type := TClass "UserQuery";
            f_default := PMissing |};
         {| f_name := "pathParameters"; f_type := TClass "PathParameters";
            f_default := PMissing |} ];
     c_inherited := GenTypes.AbstractInput |}.

Definition classes : class_table :=
  [("UserQuery", UserQuery);
   ("PathParameters", Example.PathParameters);
   ("OutputBody", Example.OutputBody);
   ("RequestSchema", RequestSchema);
   ("ResponseSchema", Example.ResponseSchema)].

Definition endpoint : GeneratorConfig :=
  {| serviceInput := Some RequestSchema;
     serviceOutput := Some Example.ResponseSchema;
     serviceName := "MyService";
     description := "My service description";
     operationId := "myEndpoint";
     httpMethod := "GET";
     httpPath := "world/{userId}" |}.

End StaleQuery.

Module ScalarPath.

(** The example, its path parameters typed as a plain string. *)
Definition RequestSchema : pyclass :=
  {| c_name := "RequestSchema"; c_dataclass := true;
     c_body :=
       [ {| f_name := "domainName"; f_type := TStr; f_default := PStr "_" |};
         {| f_name := "pathParameters"; f_type := TStr;
            f_default := PMissing |} ];
     c_inherited := GenTypes.AbstractInput |}.

Definition classes : class_table :=
  [("OutputBody", Example.OutputBody);
   ("RequestSchema", RequestSchema);
   ("ResponseSchema", Example.ResponseSchema)].

Definition endpoint : GeneratorConfig :=
  {| serviceInput := Some RequestSchema;
     serviceOutput := Some Example.ResponseSchema;
     serviceName := "MyService";
     description := "My service description";
     operationId := "myEndpoint";
     httpMethod := "GET";
     httpPath := "world/{userId}" |}.

End ScalarPath.

(** A ranking of the classes of the example: the two endpoint records
    above the records they mention. *)
Definition example_rank (c : class_id) : nat :=
  if String.eqb c "RequestSchema" then 1
  else if String.eqb c "ResponseSchema" then 1 else 0.

(** * Vocabulary of the properties *)

(** The tests of [type_to_schema] that come before the final [return]:
    a union, a list, an enumeration, a dataclass, one of the four
    primitives. *)
Definition matches_rule (env : class_table) (t : ty) : bool :=
  match t with
  | TUnion _ | TList _ | TEnum _ _ => true
  | TClass cid =>
      match lookup_class env cid with
      | Some cls => c_dataclass cls
      | None => false
      end
  | TStr | TInt | TFloat | TBool => true
  | TNoneType | TOther _ => false
  end.

(** The fields the design document calls required: not internal (no
    leading underscore) and not declared Optional. *)
Definition required_field (f : field) : bool :=
  negb (Str.startswith "_" (f_name f)) && negb (is_optional (f_type f)).

Definition required_names (cls : pyclass) : list string :=
  List.map f_name (filter required_field (c_body cls)).


(** [refines r r']: [r'] is [r] unless [r] ran out of fuel. *)
Definition refines {A : Type} (r r' : result A) : Prop :=
  r <> OutOfFuel -> r' = r.

(** The type of [type_to_schema] at a given fuel. *)
Definition resolver : Type := ty -> dict json -> result (json * dict json).

Definition resolver_refines (f g : resolver) : Prop :=
  forall t known_defs, refines (f t known_defs) (g t known_defs).

(** The size of a declared type, for induction. *)
Fixpoint ty_size (t : ty) : nat :=
  match t with
  | TUnion args => S (list_sum (List.map ty_size args))
  | TList args => S (list_sum (List.map ty_size args))
  | _ => 1
  end.

(** The classes a declared type mentions. *)
Fixpoint ty_classes (t : ty) : list class_id :=
  match t with
  | TUnion args => flat_map ty_classes args
  | TList args => flat_map ty_classes args
  | TClass c => [c]
  | _ => []
  end.

(** A class table without reference cycles: every class mentioned by a
    field of a class ranks below that class. *)
Definition acyclic (env : class_table) (rank : class_id -> nat) : Prop :=
  forall cid cls fd cid',
    lookup_class env cid = Some cls ->
    In fd (c_body cls) ->
    In cid' (ty_classes (f_type fd)) ->
    rank cid' < rank cid.

(** From [F] units of fuel on, the resolver settles [t] in every
    registry. *)
Definition settles (env : class_table) (F : nat) (t : ty) : Prop :=
  forall fuel known_defs,
    F <= fuel -> type_to_schema env fuel t known_defs <> OutOfFuel.

(** A resolver that keeps the names of the registry distinct. *)
Definition keeps_names (f : resolver) : Prop :=
  forall t known_defs schema defs,
    f t known_defs = Ok (schema, defs) ->
    NoDup (dict_keys known_defs) -> NoDup (dict_keys defs).

(** No upper-case ASCII letter. *)
Definition no_upper (s : string) : bool :=
  Str.all (fun c => negb (Str.is_upper c)) s.

(** The shape of [s.capitalize()]: no upper-case letter after the first
    character. *)
Definition capitalized (d : string) : Prop :=
  match d with
  | EmptyString => True
  | String _ t => no_upper t = true
  end.

(** A key read back: its first character and the run without upper-case
    letters that follows, then the rest. *)
Fixpoint span_lower (s : string) : string * string :=
  match s with
  | EmptyString => (EmptyString, EmptyString)
  | String c t =>
      if Str.is_upper c then (EmptyString, s)
      else let (a, b) := span_lower t in (String c a, b)
  end.

Definition split_domain (k : string) : string * string :=
  match k with
  | EmptyString => (EmptyString, EmptyString)
  | String c t => let (a, b) := span_lower t in (String c a, b)
  end.

(** What follows the domain in a parameter key. *)
Definition group_suffix (R : string) : Prop :=
  R = "QueryStringParameters"
  \/ exists key, R = ("PathParameters" ++ key)%string.

(** The parameter objects [process_services] writes: under a query key
    the object is a function of the key, under a path key a function of
    the key and of the property name the key ends with. *)
Definition synthesized (k : string) (v : json) : Prop :=
  exists d,
    capitalized d
    /\ ((k = (d ++ "QueryStringParameters")%string /\ v = query_parameter k)
        \/ exists key, k = (d ++ ("PathParameters" ++ key))%string
                       /\ v = path_parameter k key).

(** Every entry of [components.parameters] is such an object. *)
Definition all_synthesized (params : dict json) : Prop :=
  forall k v, In (k, v) params -> synthesized k v.

(** * Vocabulary of the further properties *)

(** The last entry of [d] whose key [format] sends to [k']. *)
Definition last_converted (format : string -> string)
           (d : list (string * json)) (k' : string) : option (string * json) :=
  find (fun kv => String.eqb (format (fst kv)) k') (rev d).

Fixpoint distinct (l : list string) : bool :=
  match l with
  | [] => true
  | k :: r => negb (existsb (String.eqb k) r) && distinct r
  end.

(** A value whose dicts, at every level, have distinct keys that hold no
    underscore. *)
Fixpoint plain_keys (j : json) : bool :=
  match j with
  | JList l => forallb plain_keys l
  | JDict d =>
      distinct (List.map fst d)
      && forallb (fun kv : string * json =>
                    let (k, v) := kv in
                    negb (Str.mem "_" k) && plain_keys v) d
  | _ => true
  end.

(** The schema fragment of a declared type, read off the type alone.
    ([List] without an item type has none: the resolver raises.) *)
Fixpoint fragment (env : class_table) (t : ty) : json :=
  match t with
  | TUnion targs =>
      match filter (fun p : bool * json => negb (fst p))
              (List.map (fun a => (is_NoneType a, fragment env a)) targs) with
      | [p] => snd p
      | l => JDict [("oneOf", JList (List.map snd l))]
      end
  | TList targs =>
      match targs with
      | [] => JNone
      | item_type :: _ =>
          JDict [("type", JStr "array"); ("items", fragment env item_type)]
      end
  | TEnum _ values => JDict [("type", JStr "string"); ("enum", JList values)]
  | TClass cid =>
      match lookup_class env cid with
      | Some cls =>
          if c_dataclass cls then schema_ref (c_name cls) else string_schema
      | None => string_schema
      end
  | TStr => JDict [("type", JStr "string")]
  | TInt => JDict [("type", JStr "integer")]
  | TFloat => JDict [("type", JStr "number")]
  | TBool => JDict [("type", JStr "boolean")]
  | TNoneType | TOther _ => string_schema
  end.

(** The names of the records the resolver meets in a type before it
    enters any record. *)
Fixpoint top_names (env : class_table) (t : ty) : list string :=
  match t with
  | TUnion targs => flat_map (top_names env) targs
  | TList targs =>
      match targs with
      | [] => []
      | item_type :: _ => top_names env item_type
      end
  | TClass cid =>
      match lookup_class env cid with
      | Some cls => if c_dataclass cls then [c_name cls] else []
      | None => []
      end
  | _ => []
  end.

(** No [List] without an item type, in a type and in the fields of a
    class table. *)
Fixpoint no_bare_list (t : ty) : bool :=
  match t with
  | TUnion targs => forallb no_bare_list targs
  | TList targs =>
      match targs with
      | [] => false
      | item_type :: _ => no_bare_list item_type
      end
  | _ => true
  end.

Definition table_no_bare_list (env : class_table) : Prop :=
  forall cid cls fd,
    lookup_class env cid = Some cls ->
    In fd (c_body cls) ->
    no_bare_list (f_type fd) = true.

(** A resolver that only adds entries after those of the registry. *)
Definition appends (f : resolver) : Prop :=
  forall t known_defs schema defs,
    f t known_defs = Ok (schema, defs) ->
    exists extra, defs = known_defs ++ extra.

(** The fields that are not internal. *)
Definition public_field (f : field) : bool :=
  negb (Str.startswith "_" (f_name f)).

(** Every reference of a method's [parameters] list names an entry of
    the parameters written so far. *)
Definition references_backed (x : extraction) : Prop :=
  forall r, In r (x_method_parameters x) ->
            exists k, r = parameter_ref k /\ dict_mem (x_parameters x) k = true.

(** Every path key starts with a slash. *)
Definition slash_keys (ps : dict path_item) : Prop :=
  forall p, In p (dict_keys ps) -> Str.startswith "/" p = true.

(** Every key of every dict of a value, at any depth and through
    lists, passes the test [p]. *)
Fixpoint every_key (p : string -> bool) (j : json) : bool :=
  match j with
  | JList l => forallb (every_key p) l
  | JDict d =>
      forallb (fun kv : string * json =>
                 let (k, v) := kv in p k && every_key p v) d
  | _ => true
  end.

(** Induction on a value, through its lists and its dicts. *)
Section JsonInduction.

Variable P : json -> Prop.
Hypothesis P_none : P JNone.
Hypothesis P_bool : forall b, P (JBool b).
Hypothesis P_int : forall z, P (JInt z).
Hypothesis P_str : forall s, P (JStr s).
Hypothesis P_list : forall l, Forall P l -> P (JList l).
Hypothesis P_dict : forall d, Forall (fun kv => P (snd kv)) d -> P (JDict d).

Fixpoint json_induction (j : json) : P j :=
  match j with
  | JNone => P_none
  | JBool b => P_bool b
  | JInt z => P_int z
  | JStr s => P_str s
  | JList l =>
      P_list
        ((fix all (l : list json) : Forall P l :=
            match l with
            | [] => Forall_nil P
            | x :: r => Forall_cons x (json_induction x) (all r)
            end) l)
  | JDict d =>
      P_dict
        ((fix all (d : list (string * json))
            : Forall (fun kv => P (snd kv)) d :=
            match d with
            | [] => Forall_nil _
            | kv :: r =>
                Forall_cons kv (json_induction (snd kv)) (all r)
            end) d)
  end.

End JsonInduction.

(** * Properties *)

(** ** Dictionaries *)

Section DictFacts.

Variable V : Type.
Implicit Types (d : dict V) (k : string) (v : V).

Lemma dict_get_set_eq d k v : dict_get (dict_set d k v) k = Some v.
Proof.
  induction d as [|[k' v'] d IH]; simpl.
  - now rewrite String.eqb_refl.
  - destruct (String.eqb k k') eqn:E; simpl; rewrite E; auto.
Qed.

Lemma dict_get_set_neq d k k' v :
  k' <> k -> dict_get (dict_set d k v) k' = dict_get d k'.
Proof.
  intros N. induction d as [|[k0 v0] d IH]; simpl.
  - destruct (String.eqb_spec k' k); congruence.
  - destruct (String.eqb_spec k k0); simpl.
    + subst. destruct (String.eqb_spec k' k0); congruence.
    + now rewrite IH.
Qed.

Lemma dict_get_set d k k' v :
  dict_get (dict_set d k v) k' =
  if String.eqb k' k then Some v else dict_get d k'.
Proof.
  destruct (String.eqb_spec k' k).
  - subst. apply dict_get_set_eq.
  - now apply dict_get_set_neq.
Qed.

Lemma dict_mem_set d k k' v :
  dict_mem (dict_set d k v) k' = String.eqb k' k || dict_mem d k'.
Proof.
  unfold dict_mem. rewrite dict_get_set. now destruct (String.eqb k' k).
Qed.

Lemma dict_get_In d k v : dict_get d k = Some v -> In (k, v) d.
Proof.
  induction d as [|[k' v'] d IH]; simpl; [discriminate|].
  destruct (String.eqb_spec k k'); intros H.
  - injection H as ->. subst. now left.
  - right. auto.
Qed.

Lemma In_dict_set d k v k' v' :
  In (k', v') (dict_set d k v) -> (k' = k /\ v' = v) \/ In (k', v') d.
Proof.
  induction d as [|[k0 v0] d IH]; simpl.
  - intros [H|[]]. injection H as <- <-. now left.
  - destruct (String.eqb_spec k k0); simpl.
    + subst. intros [H|H]; [injection H as <- <-; now left | right; now right].
    + intros [H|H]; [right; now left|].
      destruct (IH H) as [?|?]; [now left | right; now right].
Qed.

Lemma dict_mem_keys d k : dict_mem d k = true <-> In k (dict_keys d).
Proof.
  unfold dict_mem. induction d as [|[k' v'] d IH]; simpl.
  - split; [discriminate | tauto].
  - destruct (String.eqb_spec k k').
    + subst. split; auto.
    + rewrite IH. split; [now right | intros [H|H]; congruence].
Qed.

Lemma dict_keys_set d k v :
  forall k', In k' (dict_keys (dict_set d k v)) <-> k' = k \/ In k' (dict_keys d).
Proof.
  intros k'. rewrite <- !dict_mem_keys, dict_mem_set.
  destruct (String.eqb_spec k' k); simpl; intuition congruence.
Qed.

End DictFacts.

(** ** The resolver's fallback *)

(** C7. A type descriptor that is no union, list, enumeration, dataclass
    or primitive resolves to the string schema [{"type": "string"}]: the
    call returns (it raises nothing and needs one unit of fuel only) and
    the registry it returns is the registry it was given. *)
Theorem fallback_to_string :
  forall env t known_defs fuel,
    matches_rule env t = false ->
    type_to_schema env (S fuel) t known_defs
    = Ok (JDict [("type", JStr "string")], known_defs).
Proof.
  intros env t known_defs fuel H.
  destruct t; simpl in *; try discriminate; try reflexivity.
  destruct (lookup_class env c) as [cls|]; [|reflexivity].
  now rewrite H.
Qed.

Lemma fallback_to_string_witness :
  type_to_schema Example.classes 1 (TOther "dict")
    [("Known", JDict [("type", JStr "object")])]
  = Ok (JDict [("type", JStr "string")],
        [("Known", JDict [("type", JStr "object")])]).
Proof.
  apply (@fallback_to_string Example.classes (TOther "dict")
           [("Known", JDict [("type", JStr "object")])] 0).
  reflexivity.
Defined.

(** ** Required-field inference *)

Lemma fields_loop_required resolve :
  forall fields props required root_types props' required' defs,
    fields_loop resolve fields props required root_types
    = Ok (props', required', defs) ->
    required' = required ++ List.map f_name (filter required_field fields).
Proof.
  induction fields as [|f fields IH]; simpl; intros props required rt p' r' d' H.
  - injection H as <- <- <-. now rewrite app_nil_r.
  - unfold required_field at 1.
    destruct (Str.startswith "_" (f_name f)); simpl.
    + eauto.
    + destruct (resolve (f_type f) rt) as [[prop_schema defs]| |]; simpl in H;
        try discriminate.
      apply IH in H. subst r'.
      destruct (is_optional (f_type f)); simpl; [reflexivity|].
      now rewrite <- app_assoc.
Qed.

Lemma dataclass_fields_required cls fields :
  dataclass_fields cls = Ok fields ->
  List.map f_name (filter required_field fields) = required_names cls.
Proof.
  unfold dataclass_fields, required_names.
  destruct (c_dataclass cls); [|discriminate].
  intros H. injection H as <-.
  induction (c_body cls) as [|f body IH]; [reflexivity|].
  cbn [List.map filter].
  change (required_field (dataclass_field cls f)) with (required_field f).
  destruct (required_field f); cbn [List.map]; now rewrite IH.
Qed.





(** ** Fuel *)

Lemma refines_refl {A : Type} (r : result A) : refines r r.
Proof. intros _. reflexivity. Qed.

Lemma refines_bind {A B : Type} (m m' : result A) (k k' : A -> result B) :
  refines m m' -> (forall a, refines (k a) (k' a)) ->
  refines (bind m k) (bind m' k').
Proof.
  unfold refines. intros Hm Hk H.
  destruct m as [a| |]; simpl in *; try congruence.
  - rewrite Hm by discriminate. simpl. now apply Hk.
  - now rewrite Hm by discriminate.
Qed.

Lemma resolve_each_refines (f g : resolver) :
  resolver_refines f g ->
  forall args known_defs,
    refines (resolve_each f args known_defs) (resolve_each g args known_defs).
Proof.
  intros H. induction args as [|a args IH]; intros known_defs; simpl.
  - apply refines_refl.
  - apply refines_bind; [apply H|]. intros [schema defs].
    apply refines_bind; [apply IH|]. intros [? ?]. apply refines_refl.
Qed.

Lemma fields_loop_refines (f g : resolver) :
  resolver_refines f g ->
  forall fields props required root_types,
    refines (fields_loop f fields props required root_types)
            (fields_loop g fields props required root_types).
Proof.
  intros H. induction fields as [|fd fields IH]; intros props required rt; simpl.
  - apply refines_refl.
  - destruct (Str.startswith "_" (f_name fd)); [apply IH|].
    apply refines_bind; [apply H|]. intros [? ?]. apply IH.
Qed.

Lemma resolver_mono env :
  forall fuel,
    (forall fuel', fuel <= fuel' ->
                   resolver_refines (type_to_schema env fuel)
                                    (type_to_schema env fuel'))
    /\ (forall fuel' cls root_types,
           fuel <= fuel' ->
           refines (dataclass_to_openapi_schema env fuel cls root_types)
                   (dataclass_to_openapi_schema env fuel' cls root_types)).
Proof.
  induction fuel as [|fuel [IHt IHc]].
  - split.
    + intros fuel' _ t known_defs H. now elim H.
    + intros fuel' cls root_types _ H. now elim H.
  - split.
    + intros [|fuel'] L; [lia|]. assert (L' : fuel <= fuel') by lia.
      intros t known_defs. pose proof (IHt _ L') as Ht.
      destruct t; simpl; try apply refines_refl.
      * destruct (filter (fun a => negb (is_NoneType a)) args) as [|a [|b rest]].
        -- apply refines_refl.
        -- apply Ht.
        -- apply refines_bind; [now apply resolve_each_refines|].
           intros [? ?]. apply refines_refl.
      * destruct args as [|item_type ?]; [apply refines_refl|].
        apply refines_bind; [apply Ht|]. intros [? ?]. apply refines_refl.
      * destruct (lookup_class env c) as [cls|]; [|apply refines_refl].
        destruct (c_dataclass cls); [|apply refines_refl].
        destruct (negb (dict_mem known_defs (c_name cls))); [|apply refines_refl].
        apply refines_bind; [now apply IHc|]. intros [? ?]. apply refines_refl.
    + intros [|fuel'] cls root_types L; [lia|]. assert (L' : fuel <= fuel') by lia.
      simpl. apply refines_bind; [apply refines_refl|]. intros fields.
      apply refines_bind; [apply fields_loop_refines; now apply IHt|].
      intros [[? ?] ?]. apply refines_refl.
Qed.

Lemma type_to_schema_mono env fuel fuel' t known_defs :
  fuel <= fuel' ->
  refines (type_to_schema env fuel t known_defs)
          (type_to_schema env fuel' t known_defs).
Proof. intros L. now apply (proj1 (resolver_mono env fuel)). Qed.

Lemma dataclass_to_openapi_schema_mono env fuel fuel' cls root_types :
  fuel <= fuel' ->
  refines (dataclass_to_openapi_schema env fuel cls root_types)
          (dataclass_to_openapi_schema env fuel' cls root_types).
Proof. intros L. now apply (proj2 (resolver_mono env fuel)). Qed.

(** ** Termination of the resolver *)

Lemma settles_le env F F' t : F <= F' -> settles env F t -> settles env F' t.
Proof. intros L H fuel known_defs L'. apply H. lia. Qed.

Lemma settles_all env (l : list ty) :
  (forall a, In a l -> exists F, settles env F a) ->
  exists F, forall a, In a l -> settles env F a.
Proof.
  induction l as [|a l IH]; intros H.
  - exists 0. intros ? [].
  - destruct (H a (or_introl eq_refl)) as [Fa Ha].
    assert (Hl' : forall b, In b l -> exists F, settles env F b)
      by (intros b Hb; apply H; now right).
    destruct (IH Hl') as [Fl Hl].
    exists (Nat.max Fa Fl). intros b [<-|Hb].
    + eapply settles_le; [|exact Ha]. lia.
    + eapply settles_le; [|apply Hl, Hb]. lia.
Qed.

Lemma resolve_each_total (f : resolver) args :
  (forall a, In a args -> forall known_defs, f a known_defs <> OutOfFuel) ->
  forall known_defs, resolve_each f args known_defs <> OutOfFuel.
Proof.
  induction args as [|a args IH]; intros H known_defs; simpl; [discriminate|].
  pose proof (H a (or_introl eq_refl) known_defs) as Ha.
  destruct (f a known_defs) as [[schema defs]| |]; simpl; try congruence.
  assert (IH' := IH (fun b Hb => H b (or_intror Hb)) defs).
  destruct (resolve_each f args defs) as [[? ?]| |]; simpl; congruence.
Qed.

Lemma fields_loop_total (f : resolver) fields :
  (forall fd, In fd fields ->
              forall known_defs, f (f_type fd) known_defs <> OutOfFuel) ->
  forall props required root_types,
    fields_loop f fields props required root_types <> OutOfFuel.
Proof.
  induction fields as [|fd fields IH]; intros H props required rt; simpl;
    [discriminate|].
  assert (IH' := IH (fun b Hb => H b (or_intror Hb))).
  destruct (Str.startswith "_" (f_name fd)); [apply IH'|].
  pose proof (H fd (or_introl eq_refl) rt) as Hf.
  destruct (f (f_type fd) rt) as [[? ?]| |]; simpl;
    [apply IH' | congruence | congruence].
Qed.

Lemma ty_size_in (a : ty) (l : list ty) :
  In a l -> ty_size a <= list_sum (List.map ty_size l).
Proof.
  induction l as [|b l IH]; simpl; [tauto|].
  intros [<-|H]; [lia|]. apply IH in H. lia.
Qed.

Section Acyclic.

Variable env : class_table.
Variable rank : class_id -> nat.
Hypothesis no_cycle : acyclic env rank.

Lemma settles_ranked :
  forall n size t,
    ty_size t <= size ->
    (forall c, In c (ty_classes t) -> rank c < n) ->
    exists F, settles env F t.
Proof.
  induction n as [n IHn] using lt_wf_ind.
  induction size as [|size IHs]; intros t Hs Hr.
  { destruct t; simpl in Hs; lia. }
  assert (leaf : forall r : json,
             (forall fuel known_defs,
                 type_to_schema env (S fuel) t known_defs = Ok (r, known_defs)) ->
             exists F, settles env F t).
  { intros r H. exists 1. intros [|fuel] known_defs L; [lia|].
    rewrite H. discriminate. }
  destruct t as [| | | | |args|args|name values|cid|name];
    try (eapply leaf; intros; reflexivity).
  - (* union *)
    assert (each : forall a, In a args -> exists F, settles env F a).
    { intros a Ha. apply IHs.
      - apply ty_size_in in Ha. simpl in Hs. lia.
      - intros c Hc. apply Hr. simpl. apply in_flat_map. eauto. }
    destruct (@settles_all env _ each) as [F HF].
    exists (S F). intros [|fuel] known_defs L; [lia|]. simpl.
    assert (sub : forall a, In a (filter (fun a => negb (is_NoneType a)) args) ->
                            forall kd, type_to_schema env fuel a kd <> OutOfFuel).
    { intros a Ha kd. apply filter_In in Ha as [Ha _]. apply (HF a Ha). lia. }
    destruct (filter (fun a => negb (is_NoneType a)) args) as [|a [|b rest]] eqn:E.
    + discriminate.
    + apply sub. now left.
    + pose proof (resolve_each_total _ _ sub known_defs) as T.
      destruct (resolve_each (type_to_schema env fuel) (a :: b :: rest) known_defs)
        as [[? ?]| |]; simpl; congruence.
  - (* list *)
    destruct args as [|item_type rest].
    + exists 1. intros [|fuel] known_defs L; [lia|]. discriminate.
    + assert (item : exists F, settles env F item_type).
      { apply IHs.
        - simpl in Hs. lia.
        - intros c Hc. apply Hr. simpl. apply in_or_app. now left. }
      destruct item as [F HF].
      * exists (S F). intros [|fuel] known_defs L; [lia|]. simpl.
        assert (T := HF fuel known_defs ltac:(lia)).
        destruct (type_to_schema env fuel item_type known_defs) as [[? ?]| |];
          simpl; congruence.
  - (* class *)
    destruct (lookup_class env cid) as [cls|] eqn:Lk.
    2:{ exists 1. intros [|fuel] known_defs L; [lia|]. simpl. rewrite Lk.
        discriminate. }
    destruct (c_dataclass cls) eqn:D.
    2:{ exists 1. intros [|fuel] known_defs L; [lia|]. simpl. rewrite Lk, D.
        discriminate. }
    assert (Hc : rank cid < n) by (apply Hr; now left).
    assert (each : forall a, In a (List.map f_type (c_body cls)) ->
                              exists F, settles env F a).
    { intros a Ha. apply in_map_iff in Ha as (fd & <- & Hfd).
      apply (IHn (rank cid) Hc (ty_size (f_type fd))); [lia|].
      intros c Hcl. eapply no_cycle; eauto. }
    destruct (@settles_all env _ each) as [F HF].
    exists (S (S F)). intros [|[|fuel]] known_defs L; try lia.
    cbn [type_to_schema]. rewrite Lk, D.
    destruct (negb (dict_mem known_defs (c_name cls))); [|discriminate].
    cbn [dataclass_to_openapi_schema]. unfold dataclass_fields. rewrite D.
    cbn [bind].
    assert (T : forall props required rt,
               fields_loop (type_to_schema env fuel)
                 (List.map (dataclass_field cls) (c_body cls)) props required rt
               <> OutOfFuel).
    { apply fields_loop_total. intros fd Hfd kd.
      apply in_map_iff in Hfd as (fd0 & <- & Hfd0). simpl.
      apply (HF (f_type fd0)); [|lia]. apply in_map_iff. eauto. }
    specialize (T [] [] known_defs).
    destruct (fields_loop (type_to_schema env fuel)
                (List.map (dataclass_field cls) (c_body cls)) [] [] known_defs)
      as [[[? ?] ?]| |]; simpl; congruence.
Qed.

Lemma acyclic_settles (t : ty) : exists F, settles env F t.
Proof.
  apply (@settles_ranked (S (list_max (List.map rank (ty_classes t))))
           (ty_size t) t (le_n _)).
  intros c Hc.
  assert (rank c <= list_max (List.map rank (ty_classes t))); [|lia].
  pose proof (proj1 (list_max_le (List.map rank (ty_classes t)) _) (le_n _)) as A.
  rewrite Forall_forall in A. apply A. apply in_map_iff. eauto.
Qed.

End Acyclic.

(** ** Registration and cyclic records *)

Lemma dataclass_to_openapi_schema_inv env fuel cls root_types schema defs :
  dataclass_to_openapi_schema env fuel cls root_types = Ok (schema, defs) ->
  exists fuel' fields props required root_types',
    fuel = S fuel'
    /\ dataclass_fields cls = Ok fields
    /\ fields_loop (type_to_schema env fuel') fields [] [] root_types
       = Ok (props, required, root_types')
    /\ schema = object_schema props required
    /\ defs = dict_set root_types' (c_name cls) schema.
Proof.
  destruct fuel as [|fuel]; simpl; [discriminate|].
  destruct (dataclass_fields cls) as [fields| |] eqn:F; simpl; try discriminate.
  destruct (fields_loop (type_to_schema env fuel) fields [] [] root_types)
    as [[[props required] rt]| |] eqn:L; simpl; try discriminate.
  intros H. injection H as <- <-.
  exists fuel, fields, props, required, rt. repeat split; assumption.
Qed.

(** C1, as the code has it. A record whose name is already registered
    resolves to a reference at once, the registry unchanged. The record
    compiler resolves the fields in the registry it was given and writes
    the record's name only afterwards, so that the name is registered
    when the compiler returns. On a class table without reference cycles
    the resolver settles every type: enough fuel gives a result. *)
Theorem registered_name_and_termination :
  forall env,
    (forall fuel cid cls known_defs,
        lookup_class env cid = Some cls ->
        c_dataclass cls = true ->
        dict_mem known_defs (c_name cls) = true ->
        type_to_schema env (S fuel) (TClass cid) known_defs
        = Ok (schema_ref (c_name cls), known_defs))
    /\ (forall fuel cls root_types schema defs,
           dataclass_to_openapi_schema env fuel cls root_types
           = Ok (schema, defs) ->
           (exists fuel' fields props required root_types',
               fuel = S fuel'
               /\ dataclass_fields cls = Ok fields
               /\ fields_loop (type_to_schema env fuel') fields [] [] root_types
                  = Ok (props, required, root_types')
               /\ defs = dict_set root_types' (c_name cls) schema)
           /\ dict_get defs (c_name cls) = Some schema)
    /\ (forall rank,
           acyclic env rank ->
           forall t,
           exists F,
           forall fuel known_defs,
             F <= fuel -> type_to_schema env fuel t known_defs <> OutOfFuel).
Proof.
  intros env. split; [|split].
  - intros fuel cid cls known_defs Lk D M. simpl. now rewrite Lk, D, M.
  - intros fuel cls root_types schema defs H.
    apply dataclass_to_openapi_schema_inv in H
      as (fuel' & fields & props & required & rt & -> & F & L & -> & ->).
    split.
    + exists fuel', fields, props, required, rt. repeat split; assumption.
    + apply dict_get_set_eq.
  - intros rank A t. destruct (acyclic_settles A t) as [F HF].
    exists F. exact HF.
Qed.

Lemma example_acyclic : acyclic Example.classes example_rank.
Proof.
  intros cid cls fd cid' L Hfd Hc.
  unfold lookup_class, Example.classes in L. cbn [dict_get] in L.
  repeat match type of L with
         | (if String.eqb cid ?k then _ else _) = _ =>
             destruct (String.eqb_spec cid k) as [->|_];
             [injection L as <-; simpl in Hfd;
              repeat (destruct Hfd as [<-|Hfd];
                      [simpl in Hc; intuition (subst; try (vm_compute; lia))|]);
              try destruct Hfd |]
         end.
  discriminate.
Qed.

Lemma registered_name_and_termination_witness :
  type_to_schema Example.classes 1 (TClass "PathParameters")
    [("PathParameters", JDict [("type", JStr "object")])]
  = Ok (schema_ref "PathParameters",
        [("PathParameters", JDict [("type", JStr "object")])])
  /\ acyclic Example.classes example_rank
  /\ exists F,
      forall fuel known_defs,
        F <= fuel ->
        type_to_schema Example.classes fuel (TClass "RequestSchema") known_defs
        <> OutOfFuel.
Proof.
  destruct (registered_name_and_termination Example.classes) as (A & _ & C).
  split; [|split].
  - exact (A 0 "PathParameters" Example.PathParameters
             [("PathParameters", JDict [("type", JStr "object")])]
             eq_refl eq_refl eq_refl).
  - exact example_acyclic.
  - exact (C example_rank example_acyclic (TClass "RequestSchema")).
Defined.

(** C1 as the design document states it fails on a record that refers
    to itself: its name is not in the registry while its fields are
    resolved, and no amount of fuel lets the resolver return. *)
Lemma self_reference_never_returns :
  dict_mem ([] : dict json) (c_name Cyclic.Node) = false
  /\ (forall fuel,
         type_to_schema Cyclic.classes fuel (TClass "Node") [] = OutOfFuel).
Proof.
  split; [reflexivity|].
  assert (H : forall fuel,
             type_to_schema Cyclic.classes fuel (TClass "Node") [] = OutOfFuel
             /\ type_to_schema Cyclic.classes fuel
                  (TUnion [TClass "Node"; TNoneType]) [] = OutOfFuel
             /\ dataclass_to_openapi_schema Cyclic.classes fuel Cyclic.Node []
                = OutOfFuel).
  { induction fuel as [|fuel (IH1 & IH2 & IH3)]; [repeat split|].
    split; [|split].
    - cbn [type_to_schema lookup_class dict_get Cyclic.classes String.eqb
             Ascii.eqb Bool.eqb c_dataclass Cyclic.Node c_name dict_mem negb].
      now rewrite IH3.
    - cbn [type_to_schema filter is_NoneType negb]. exact IH1.
    - cbn [dataclass_to_openapi_schema dataclass_fields Cyclic.Node c_dataclass
             c_body List.map bind].
      destruct fuel as [|fuel]; [reflexivity|].
      cbn -[type_to_schema].
      change (type_to_schema Cyclic.classes (S fuel) TInt [])
        with (Ok (JDict [("type", JStr "integer")], @nil (string * json))).
      cbn -[type_to_schema]. now rewrite IH2. }
  intros fuel. apply H.
Qed.

(** ** Key casing *)

Ltac each_ascii c := destruct c as [[] [] [] [] [] [] [] []].

Lemma upper_char_underscore c :
  Ascii.eqb "_" (Str.upper_char c) = Ascii.eqb "_" c.
Proof. each_ascii c; reflexivity. Qed.

Lemma mem_append c (a b : string) :
  Str.mem c (a ++ b)%string = Str.mem c a || Str.mem c b.
Proof.
  induction a as [|x a IH]; simpl; [reflexivity|].
  rewrite IH. now rewrite orb_assoc.
Qed.

Lemma split_acc_pieces sep :
  forall s cur w,
    Str.mem sep cur = false ->
    In w (Str.split_acc sep cur s) -> Str.mem sep w = false.
Proof.
  induction s as [|c s IH]; simpl; intros cur w Hc Hw.
  - destruct Hw as [<-|[]]. exact Hc.
  - destruct (Ascii.eqb c sep) eqn:E.
    + destruct Hw as [<-|Hw]; [exact Hc|]. now apply (IH EmptyString).
    + apply (IH (cur ++ String c EmptyString)%string); [|exact Hw].
      rewrite mem_append, Hc. simpl. rewrite Ascii.eqb_sym, E. reflexivity.
Qed.

Lemma camel_words_pieces :
  forall ws idx w,
    (forall x, In x ws -> Str.mem "_" x = false) ->
    In w (Utils.camel_words idx ws) -> Str.mem "_" w = false.
Proof.
  induction ws as [|x ws IH]; simpl; intros idx w H Hw; [tauto|].
  assert (Hx := H x (or_introl eq_refl)).
  assert (Hws : forall y, In y ws -> Str.mem "_" y = false) by (intros; apply H; now right).
  destruct (String.eqb x ""); [now apply (IH (S idx))|].
  destruct Hw as [<-|Hw]; [|now apply (IH (S idx))].
  destruct (Nat.eqb idx 0); [exact Hx|].
  destruct x as [|c x]; [reflexivity|].
  cbn [Utils.capitalize_first Str.mem] in *.
  now rewrite upper_char_underscore.
Qed.

Lemma join_pieces c :
  forall ws, (forall w, In w ws -> Str.mem c w = false) ->
             Str.mem c (Str.join ws) = false.
Proof.
  induction ws as [|w ws IH]; simpl; intros H; [reflexivity|].
  rewrite mem_append, (H w (or_introl eq_refl)), IH; auto.
Qed.

(** The converted key holds no underscore. *)
Lemma camel_case_no_underscore s :
  Str.mem "_" (Utils.snake_case_to_camel_case s) = false.
Proof.
  unfold Utils.snake_case_to_camel_case. apply join_pieces.
  intros w Hw. apply camel_words_pieces in Hw; [exact Hw|].
  intros x Hx. now apply (@split_acc_pieces "_" s EmptyString).
Qed.

Lemma deep_change_dict format d :
  Utils.deep_change_keys_by_format format (JDict d)
  = JDict (Utils.change_items format d []).
Proof.
  simpl. f_equal. generalize (@nil (string * json)).
  induction d as [|[key value] d IH]; intros acc; simpl; [reflexivity|].
  apply IH.
Qed.

Lemma deep_change_strings format (l : list string) :
  Utils.deep_change_keys_by_format format (JList (List.map JStr l))
  = JList (List.map JStr l).
Proof.
  simpl. f_equal. rewrite map_map. reflexivity.
Qed.

(** The keys of the converted dict are the converted keys. *)
Lemma change_items_keys format :
  forall d acc k',
    In k' (dict_keys (Utils.change_items format d acc))
    <-> In k' (dict_keys acc) \/ exists k, In k (dict_keys d) /\ k' = format k.
Proof.
  induction d as [|[key value] d IH]; intros acc k'; simpl.
  - split; [now left | intros [H|(k & [] & _)]; exact H].
  - rewrite IH, dict_keys_set. split.
    + intros [[->|H]|(k & Hk & ->)]; eauto.
    + intros [H|(k & [<-|Hk] & ->)]; eauto.
Qed.

(** Each converted entry is the conversion of an entry. *)
Lemma change_items_get format :
  forall d acc k' v',
    dict_get (Utils.change_items format d acc) k' = Some v' ->
    dict_get acc k' = Some v'
    \/ exists k v, In (k, v) d /\ k' = format k
                   /\ v' = Utils.deep_change_keys_by_format format v.
Proof.
  induction d as [|[key value] d IH]; intros acc k' v'; simpl; [now left|].
  intros H. apply IH in H as [H|(k & v & Hin & -> & ->)].
  - rewrite dict_get_set in H. destruct (String.eqb_spec k' (format key)).
    + injection H as <-. right. exists key, value. auto.
    + now left.
  - right. exists k, v. auto.
Qed.

(** The entry of the last key that converts to [k']. *)
Lemma change_items_last format :
  forall d acc key value,
    In (key, value) d ->
    (forall k v, In (k, v) d -> format k = format key -> v = value) ->
    dict_get (Utils.change_items format d acc) (format key)
    = Some (Utils.deep_change_keys_by_format format value).
Proof.
  induction d as [|[k0 v0] d IH]; intros acc key value Hin Hsame; simpl; [destruct Hin|].
  assert (Hd : forall k v, In (k, v) d -> format k = format key -> v = value)
    by (intros; eapply Hsame; [right|]; eauto).
  destruct (in_dec (fun a b => string_dec a b) (format key)
                   (List.map format (dict_keys d))) as [I|N].
  - apply in_map_iff in I as (k1 & E1 & I1).
    apply in_map_iff in I1 as ([k2 v2] & <- & I2). simpl in E1.
    rewrite <- E1. rewrite (Hd _ _ I2 E1) in I2.
    apply IH; [exact I2|]. intros k v Hkv E. rewrite E1 in E. eauto.
  - destruct Hin as [Hin|Hin].
    + injection Hin as -> ->.
      destruct (dict_get (Utils.change_items format d
                            (dict_set acc (format key)
                               (Utils.deep_change_keys_by_format format value)))
                         (format key)) as [v'|] eqn:G.
      * apply change_items_get in G as [G|(k & v & Hkv & E & ->)].
        -- now rewrite dict_get_set_eq in G.
        -- elim N. apply in_map_iff. exists k. split; [auto|].
           apply in_map_iff. now exists (k, v).
      * assert (K : In (format key)
                       (dict_keys (Utils.change_items format d
                          (dict_set acc (format key)
                             (Utils.deep_change_keys_by_format format value))))).
        { apply change_items_keys. left. apply dict_keys_set. now left. }
        apply dict_mem_keys in K. unfold dict_mem in K. now rewrite G in K.
    + elim N. apply in_map_iff. exists key. split; [reflexivity|].
      apply in_map_iff. now exists (key, value).
Qed.

(** ** The registry holds each name once *)

Lemma dict_keys_set_mem (V : Type) (d : dict V) k v :
  dict_mem d k = true -> dict_keys (dict_set d k v) = dict_keys d.
Proof.
  unfold dict_mem. induction d as [|[k0 v0] d IH]; simpl; [discriminate|].
  destruct (String.eqb k k0); simpl; [reflexivity|].
  intros H. now rewrite IH.
Qed.

Lemma dict_set_NoDup (V : Type) (d : dict V) k v :
  NoDup (dict_keys d) -> NoDup (dict_keys (dict_set d k v)).
Proof.
  induction d as [|[k0 v0] d IH]; simpl; intros H.
  - constructor; [intros []|constructor].
  - inversion H as [|? ? Hn Hd]; subst.
    destruct (String.eqb_spec k k0); simpl; [now constructor|].
    constructor; [|auto].
    intros I. apply (dict_keys_set d k v) in I as [->|I]; congruence.
Qed.

Lemma dict_get_NoDup (V : Type) (d : dict V) k v :
  NoDup (dict_keys d) -> In (k, v) d -> dict_get d k = Some v.
Proof.
  induction d as [|[k0 v0] d IH]; simpl; intros H I; [destruct I|].
  inversion H as [|? ? Hn Hd]; subst.
  destruct I as [I|I].
  - injection I as -> ->. now rewrite String.eqb_refl.
  - destruct (String.eqb_spec k k0); [|auto].
    subst. elim Hn. change k0 with (fst (k0, v)). now apply in_map.
Qed.

Lemma dict_get_update_other (V : Type) (d2 d : dict V) k :
  ~ In k (dict_keys d2) -> dict_get (dict_update d d2) k = dict_get d k.
Proof.
  unfold dict_update. revert d.
  induction d2 as [|[k0 v0] d2 IH]; simpl; intros d N; [reflexivity|].
  rewrite IH by tauto. apply dict_get_set_neq. intros ->. tauto.
Qed.

Lemma dict_get_update (V : Type) (d2 d : dict V) k v :
  NoDup (dict_keys d2) ->
  dict_get d2 k = Some v -> dict_get (dict_update d d2) k = Some v.
Proof.
  unfold dict_update. revert d.
  induction d2 as [|[k0 v0] d2 IH]; simpl; intros d N G; [discriminate|].
  inversion N as [|? ? Hn Hd]; subst.
  destruct (String.eqb_spec k k0).
  - injection G as ->. subst.
    change (dict_get (dict_update (dict_set d k0 v) d2) k0 = Some v).
    rewrite dict_get_update_other by exact Hn. apply dict_get_set_eq.
  - now apply IH.
Qed.

Lemma change_items_NoDup format :
  forall d acc, NoDup (dict_keys acc) ->
                NoDup (dict_keys (Utils.change_items format d acc)).
Proof.
  induction d as [|[k v] d IH]; intros acc H; simpl; [exact H|].
  apply IH. now apply dict_set_NoDup.
Qed.

Lemma resolve_each_names (f : resolver) :
  keeps_names f ->
  forall args known_defs schemas defs,
    resolve_each f args known_defs = Ok (schemas, defs) ->
    NoDup (dict_keys known_defs) -> NoDup (dict_keys defs).
Proof.
  intros K. induction args as [|a args IH]; simpl; intros kd ss defs H N.
  - injection H as <- <-. exact N.
  - destruct (f a kd) as [[s d1]| |] eqn:E; simpl in H; try discriminate.
    destruct (resolve_each f args d1) as [[ss' d2]| |] eqn:E2; simpl in H;
      try discriminate.
    injection H as <- <-. eapply IH; eauto.
Qed.

Lemma fields_loop_names (f : resolver) :
  keeps_names f ->
  forall fields props required root_types props' required' defs,
    fields_loop f fields props required root_types
    = Ok (props', required', defs) ->
    NoDup (dict_keys root_types) -> NoDup (dict_keys defs).
Proof.
  intros K. induction fields as [|fd fields IH]; simpl;
    intros props required rt props' required' defs H N.
  - injection H as <- <- <-. exact N.
  - destruct (Str.startswith "_" (f_name fd)); [eauto|].
    destruct (f (f_type fd) rt) as [[s d1]| |] eqn:E; simpl in H;
      try discriminate.
    eapply IH; eauto.
Qed.

Lemma resolver_names env :
  forall fuel,
    keeps_names (type_to_schema env fuel)
    /\ (forall cls root_types schema defs,
           dataclass_to_openapi_schema env fuel cls root_types
           = Ok (schema, defs) ->
           NoDup (dict_keys root_types) -> NoDup (dict_keys defs)).
Proof.
  induction fuel as [|fuel [IHt IHc]]; (split; [intros t kd s d H N | intros cls rt s d H N]);
    try discriminate.
  - destruct t; simpl in H;
      try (injection H as <- <-; exact N).
    + destruct (filter (fun a => negb (is_NoneType a)) args) as [|a [|b rest]].
      * injection H as <- <-. exact N.
      * eapply IHt; eauto.
      * destruct (resolve_each (type_to_schema env fuel) (a :: b :: rest) kd)
          as [[ss d1]| |] eqn:E; simpl in H; try discriminate.
        injection H as <- <-. eapply resolve_each_names; eauto.
    + destruct args as [|item ?]; [discriminate|].
      destruct (type_to_schema env fuel item kd) as [[s1 d1]| |] eqn:E;
        simpl in H; try discriminate.
      injection H as <- <-. eapply IHt; eauto.
    + destruct (lookup_class env c) as [cls|]; [|injection H as <- <-; exact N].
      destruct (c_dataclass cls); [|injection H as <- <-; exact N].
      destruct (negb (dict_mem kd (c_name cls))); [|injection H as <- <-; exact N].
      destruct (dataclass_to_openapi_schema env fuel cls kd) as [[s1 d1]| |] eqn:E;
        simpl in H; try discriminate.
      injection H as <- <-. apply dict_set_NoDup. eapply IHc; eauto.
  - apply dataclass_to_openapi_schema_inv in H
      as (fuel' & fields & props & required & rt' & E & F & L & -> & ->).
    injection E as <-. apply dict_set_NoDup.
    eapply fields_loop_names; eauto.
Qed.

Lemma fields_loop_properties (f : resolver) :
  forall fields props required root_types props' required' defs,
    fields_loop f fields props required root_types
    = Ok (props', required', defs) ->
    (forall k, dict_mem props k = true -> dict_mem props' k = true)
    /\ (forall fd, In fd fields -> Str.startswith "_" (f_name fd) = false ->
                   dict_mem props' (f_name fd) = true).
Proof.
  induction fields as [|fd fields IH]; simpl;
    intros props required rt props' required' defs H.
  - injection H as <- <- <-. split; [auto | intros ? []].
  - destruct (Str.startswith "_" (f_name fd)) eqn:I.
    + apply IH in H as [H1 H2]. split; [exact H1|].
      intros fd' [<-|Hin] Hn; [congruence | auto].
    + destruct (f (f_type fd) rt) as [[s d1]| |] eqn:E; simpl in H;
        try discriminate.
      apply IH in H as [H1 H2]. split.
      * intros k Hk. apply H1. rewrite dict_mem_set, Hk. apply orb_true_r.
      * intros fd' [<-|Hin] Hn; [|auto].
        apply H1. rewrite dict_mem_set, String.eqb_refl. reflexivity.
Qed.

Lemma deep_change_object_schema props n ns :
  Utils.deep_change_keys_by_format Utils.snake_case_to_camel_case
    (object_schema props (n :: ns))
  = JDict [("type", JStr "object");
           ("properties",
            JDict (Utils.change_items Utils.snake_case_to_camel_case props []));
           ("required", JList (List.map JStr (n :: ns)))].
Proof.
  unfold object_schema.
  change (dict_set [("type", JStr "object"); ("properties", JDict props)]
            "required" (JList (List.map JStr (n :: ns))))
    with [("type", JStr "object"); ("properties", JDict props);
          ("required", JList (List.map JStr (n :: ns)))].
  rewrite deep_change_dict.
  cbn [Utils.change_items].
  change (Utils.snake_case_to_camel_case "type") with "type".
  change (Utils.snake_case_to_camel_case "properties") with "properties".
  change (Utils.snake_case_to_camel_case "required") with "required".
  rewrite deep_change_strings, deep_change_dict.
  reflexivity.
Qed.

Lemma setSchemas_cased defs registry :
  setSchemas true defs registry
  = dict_update registry
      (Utils.change_items Utils.snake_case_to_camel_case defs []).
Proof.
  unfold setSchemas, cased. now rewrite deep_change_dict.
Qed.

Lemma converted_schema_mismatch env fuel cls root_types schema defs fd :
  dataclass_to_openapi_schema env fuel cls root_types = Ok (schema, defs) ->
  In fd (c_body cls) ->
  required_field fd = true ->
  Str.mem "_" (f_name fd) = true ->
  exists props required,
    Utils.deep_change_keys_by_format Utils.snake_case_to_camel_case schema
    = JDict [("type", JStr "object");
             ("properties", JDict props);
             ("required", JList required)]
    /\ dict_mem props (Utils.snake_case_to_camel_case (f_name fd)) = true
    /\ In (JStr (f_name fd)) required
    /\ dict_mem props (f_name fd) = false.
Proof.
  intros H Hfd Rq U.
  apply dataclass_to_openapi_schema_inv in H
    as (fuel' & fields & props & required & rt & -> & F & L & -> & ->).
  pose proof (fields_loop_required _ _ _ _ _ L) as R. simpl in R.
  rewrite (dataclass_fields_required _ F) in R. subst required.
  assert (Hin : In (f_name fd) (required_names cls)).
  { unfold required_names. apply in_map. apply filter_In. auto. }
  destruct (required_names cls) as [|n ns] eqn:En; [destruct Hin|].
  assert (Hprop : dict_mem props (f_name fd) = true).
  { apply (proj2 (fields_loop_properties _ _ _ _ _ L) (dataclass_field cls fd)).
    - unfold dataclass_fields in F. destruct (c_dataclass cls); [|discriminate].
      injection F as <-. now apply in_map.
    - unfold required_field in Rq. apply andb_prop in Rq as [Rq _].
      simpl. now destruct (Str.startswith "_" (f_name fd)). }
  exists (Utils.change_items Utils.snake_case_to_camel_case props []),
    (List.map JStr (n :: ns)).
  split; [apply deep_change_object_schema|split; [|split]].
  - apply dict_mem_keys, change_items_keys. right.
    exists (f_name fd). split; [now apply dict_mem_keys|reflexivity].
  - now apply in_map.
  - destruct (dict_mem (Utils.change_items Utils.snake_case_to_camel_case props [])
                (f_name fd)) eqn:M; [|reflexivity].
    apply dict_mem_keys, change_items_keys in M as [[]|(k & _ & E)].
    rewrite E in U. now rewrite camel_case_no_underscore in U.
Qed.

Lemma stored_under_cased_name env fuel cls root_types schema defs registry :
  dataclass_to_openapi_schema env fuel cls root_types = Ok (schema, defs) ->
  NoDup (dict_keys root_types) ->
  (forall k, dict_mem defs k = true ->
             Utils.snake_case_to_camel_case k
             = Utils.snake_case_to_camel_case (c_name cls) ->
             k = c_name cls) ->
  dict_get (setSchemas true defs registry)
    (Utils.snake_case_to_camel_case (c_name cls))
  = Some (Utils.deep_change_keys_by_format Utils.snake_case_to_camel_case schema).
Proof.
  intros H N C.
  pose proof (proj2 (resolver_names env fuel) _ _ _ _ H N) as Nd.
  apply dataclass_to_openapi_schema_inv in H
    as (fuel' & fields & props & required & rt & -> & F & L & -> & ->).
  set (schema := object_schema props required) in *.
  rewrite setSchemas_cased. apply dict_get_update.
  - apply change_items_NoDup. constructor.
  - apply change_items_last.
    + apply dict_get_In, dict_get_set_eq.
    + intros k v I E.
      assert (k = c_name cls) as ->.
      { apply C; [|exact E]. apply dict_mem_keys.
        change k with (fst (k, v)). now apply in_map. }
      apply (@dict_get_NoDup _ _ _ _ Nd) in I.
      rewrite dict_get_set_eq in I. now injection I.
Qed.

Lemma change_items_In format :
  forall d acc k' v',
    In (k', v') (Utils.change_items format d acc) ->
    In (k', v') acc
    \/ exists k v, In (k, v) d /\ k' = format k
                   /\ v' = Utils.deep_change_keys_by_format format v.
Proof.
  induction d as [|[key value] d IH]; intros acc k' v'; simpl; [now left|].
  intros H. apply IH in H as [H|(k & v & Hin & -> & ->)].
  - apply In_dict_set in H as [[-> ->]|H]; [|now left].
    right. exists key, value. auto.
  - right. exists k, v. auto.
Qed.

(** The transform reaches every dict of the value: those inside lists
    and those inside dicts, at any depth. *)
Lemma deep_change_every_key format p :
  (forall k, p (format k) = true) ->
  forall j, every_key p (Utils.deep_change_keys_by_format format j) = true.
Proof.
  intros Hp. induction j as [| | | |l IH|d IH] using json_induction;
    try reflexivity.
  - cbn [Utils.deep_change_keys_by_format every_key].
    apply forallb_forall. intros x Hx. apply in_map_iff in Hx as (y & <- & Hy).
    rewrite Forall_forall in IH. now apply IH.
  - rewrite deep_change_dict. cbn [every_key].
    apply forallb_forall. intros [k' v'] Hin.
    apply change_items_In in Hin as [[]|(k & v & Hin & -> & ->)].
    rewrite Hp. simpl. rewrite Forall_forall in IH. exact (IH (k, v) Hin).
Qed.

(** C6. With the casing switch on, [deep_change_keys_by_format] rewrites
    the keys of a dict, at every level, and returns a list of strings as
    it is. So for a record with a field that is not internal, not
    Optional and has an underscore in its name, the schema that
    [setSchemas] builds from the compiled one has the cased key among its
    properties, still lists the field under its declared name in
    [required], and has no property of that name. That schema is what the
    registry holds under the record's cased name afterwards, provided no
    other entry has the same cased name. The transform descends into
    every list, element by element, so that in its result no key of any
    dict, at any depth and inside any list, holds an underscore. *)
Theorem casing_leaves_required_names :
  (forall format l,
      Utils.deep_change_keys_by_format format (JList (List.map JStr l))
      = JList (List.map JStr l))
  /\ (forall format d,
         exists d',
           Utils.deep_change_keys_by_format format (JDict d) = JDict d'
           /\ (forall k', In k' (dict_keys d')
                          <-> exists k, In k (dict_keys d) /\ k' = format k)
           /\ (forall k' v',
                  dict_get d' k' = Some v' ->
                  exists k v,
                    In (k, v) d /\ k' = format k
                    /\ v' = Utils.deep_change_keys_by_format format v))
  /\ (forall env fuel cls root_types schema defs fd,
         dataclass_to_openapi_schema env fuel cls root_types
         = Ok (schema, defs) ->
         In fd (c_body cls) ->
         required_field fd = true ->
         Str.mem "_" (f_name fd) = true ->
         exists props required,
           Utils.deep_change_keys_by_format Utils.snake_case_to_camel_case schema
           = JDict [("type", JStr "object");
                    ("properties", JDict props);
                    ("required", JList required)]
           /\ dict_mem props (Utils.snake_case_to_camel_case (f_name fd)) = true
           /\ In (JStr (f_name fd)) required
           /\ dict_mem props (f_name fd) = false)
  /\ (forall env fuel cls root_types schema defs registry,
         dataclass_to_openapi_schema env fuel cls root_types
         = Ok (schema, defs) ->
         NoDup (dict_keys root_types) ->
         (forall k, dict_mem defs k = true ->
                    Utils.snake_case_to_camel_case k
                    = Utils.snake_case_to_camel_case (c_name cls) ->
                    k = c_name cls) ->
         dict_get (setSchemas true defs registry)
           (Utils.snake_case_to_camel_case (c_name cls))
         = Some (Utils.deep_change_keys_by_format
                   Utils.snake_case_to_camel_case schema))
  /\ (forall format l,
         Utils.deep_change_keys_by_format format (JList l)
         = JList (List.map (Utils.deep_change_keys_by_format format) l))
  /\ (forall format p j,
         (forall k, p (format k) = true) ->
         every_key p (Utils.deep_change_keys_by_format format j) = true)
  /\ (forall j,
         every_key (fun k => negb (Str.mem "_" k))
           (Utils.deep_change_keys_by_format Utils.snake_case_to_camel_case j)
         = true).
Proof.
  split; [exact deep_change_strings|split; [|split; [|split; [|split; [|split]]]]];
    [| | |reflexivity|intros format p j Hp; now apply deep_change_every_key|
     intros j; apply deep_change_every_key; intros k;
     now rewrite camel_case_no_underscore].
  - intros format d. exists (Utils.change_items format d []).
    split; [apply deep_change_dict|split].
    + intros k'. rewrite change_items_keys. simpl. tauto.
    + intros k' v' G. apply change_items_get in G as [G|G]; [discriminate|exact G].
  - intros env fuel cls root_types schema defs fd.
    apply converted_schema_mismatch.
  - intros env fuel cls root_types schema defs registry.
    apply stored_under_cased_name.
Qed.

Lemma casing_leaves_required_names_witness :
  dataclass_to_openapi_schema [] 3 CasingExample.UserRecord []
  = Ok (CasingExample.schema, [("UserRecord", CasingExample.schema)])
  /\ (exists props required,
        dict_get (setSchemas true [("UserRecord", CasingExample.schema)] [])
          "UserRecord"
        = Some (JDict [("type", JStr "object");
                       ("properties", JDict props);
                       ("required", JList required)])
        /\ dict_mem props "userId" = true
        /\ In (JStr "user_id") required
        /\ dict_mem props "user_id" = false)
  /\ Utils.deep_change_keys_by_format Utils.snake_case_to_camel_case
       (JDict [("one_of", JList [JDict [("user_id", JStr "a_b")]])])
     = JDict [("oneOf", JList [JDict [("userId", JStr "a_b")]])]
  /\ every_key (fun k => negb (Str.mem "_" k))
       (Utils.deep_change_keys_by_format Utils.snake_case_to_camel_case
          (JDict [("one_of", JList [JDict [("user_id", JStr "a_b")]])]))
     = true.
Proof.
  split; [reflexivity|].
  destruct casing_leaves_required_names as (_ & _ & M & S & _ & _ & Every).
  split; [|split; [reflexivity | apply Every]].
  destruct (M [] 3 CasingExample.UserRecord [] CasingExample.schema
              [("UserRecord", CasingExample.schema)] CasingExample.user_id
              eq_refl (or_introl eq_refl) eq_refl eq_refl)
    as (props & required & E & P1 & P2 & P3).
  exists props, required. split; [|auto].
  rewrite <- E.
  apply (S [] 3 CasingExample.UserRecord [] CasingExample.schema
           [("UserRecord", CasingExample.schema)] []).
  - reflexivity.
  - constructor.
  - intros k K _. unfold dict_mem in K. simpl in K.
    destruct (String.eqb_spec k "UserRecord"); [assumption|discriminate].
Defined.

(** ** More fuel changes no result *)

Section FuelEndpoints.

Variable env : class_table.
Variable to_camel_case : bool.
Variables fuel fuel' : nat.
Hypothesis more : fuel <= fuel'.

Lemma compile_mono cls :
  refines (compile env fuel cls) (compile env fuel' cls).
Proof. now apply dataclass_to_openapi_schema_mono. Qed.

Lemma register_schemas_mono inputSchema outputSchema registry :
  refines
    (register_schemas env fuel to_camel_case inputSchema outputSchema registry)
    (register_schemas env fuel' to_camel_case inputSchema outputSchema registry).
Proof.
  unfold register_schemas.
  apply refines_bind; [apply compile_mono|]. intros [? ?].
  do 4 (apply refines_bind; [apply refines_refl|]; intro).
  apply refines_bind; [apply compile_mono|]. intros [? ?].
  apply refines_refl.
Qed.

Lemma output_processing_mono domainName outputSchema registry :
  refines
    (output_processing env fuel to_camel_case domainName outputSchema registry)
    (output_processing env fuel' to_camel_case domainName outputSchema registry).
Proof.
  unfold output_processing.
  apply refines_bind; [|intro; apply refines_refl].
  destruct (c_dataclass outputSchema); [|apply refines_refl].
  apply refines_bind; [apply compile_mono|]. intros [? ?]. apply refines_refl.
Qed.

Lemma process_service_mono service st :
  refines (process_service env fuel to_camel_case service st)
          (process_service env fuel' to_camel_case service st).
Proof.
  unfold process_service.
  destruct (serviceInput service) as [inputSchema|]; [|apply refines_refl].
  apply refines_bind; [apply refines_refl|]. intros domainName.
  destruct (serviceOutput service) as [outputSchema|]; [|apply refines_refl].
  apply refines_bind; [apply register_schemas_mono|]. intros registry.
  apply refines_bind; [apply refines_refl|]. intros x.
  apply refines_bind; [apply refines_refl|]. intros x'.
  apply refines_bind; [apply refines_refl|]. intros [registry' key].
  apply refines_bind; [apply refines_refl|]. intros httpMethodInfo.
  apply refines_bind; [apply output_processing_mono|]. intros [? ?].
  apply refines_refl.
Qed.

Lemma services_loop_mono services_info :
  forall st,
    refines (services_loop env fuel to_camel_case services_info st)
            (services_loop env fuel' to_camel_case services_info st).
Proof.
  induction services_info as [|service rest IH]; intros st; simpl.
  - apply refines_refl.
  - apply refines_bind; [apply process_service_mono|]. exact IH.
Qed.

Lemma process_services_mono g services_info :
  refines (process_services env fuel to_camel_case g services_info)
          (process_services env fuel' to_camel_case g services_info).
Proof.
  unfold process_services.
  destruct services_info as [|service rest]; [apply refines_refl|].
  destruct (openapi_build g) as [doc|]; [|apply refines_refl].
  apply refines_bind; [apply services_loop_mono|]. intro. apply refines_refl.
Qed.

End FuelEndpoints.

Lemma process_configured_fuel env fuel1 fuel2 g g1 g2 :
  process_configured env fuel1 g = Ok g1 ->
  process_configured env fuel2 g = Ok g2 ->
  g1 = g2.
Proof.
  unfold process_configured. intros H1 H2.
  assert (L1 : fuel1 <= Nat.max fuel1 fuel2) by lia.
  assert (L2 : fuel2 <= Nat.max fuel1 fuel2) by lia.
  pose proof (@process_services_mono env (to_camel_case_schemas g) _ _ L1 g
                (endpoint_config g)) as R1.
  pose proof (@process_services_mono env (to_camel_case_schemas g) _ _ L2 g
                (endpoint_config g)) as R2.
  unfold refines in R1, R2. rewrite H1 in R1. rewrite H2 in R2.
  rewrite R1 in R2 by discriminate. specialize (R2 ltac:(discriminate)).
  now injection R2.
Qed.

(** The document [process_services] leaves depends on the generator
    through its document only. *)
Lemma process_services_build env fuel to_camel_case g h services_info g' :
  process_services env fuel to_camel_case g services_info = Ok g' ->
  openapi_build h = openapi_build g ->
  exists h',
    process_services env fuel to_camel_case h services_info = Ok h'
    /\ openapi_build h' = openapi_build g'
    /\ output_openapi_file h' = output_openapi_file h.
Proof.
  unfold process_services. intros H E.
  destruct services_info as [|service rest].
  - injection H as <-. exists h. auto.
  - rewrite E. destruct (openapi_build g) as [doc|]; [|discriminate].
    destruct (services_loop env fuel to_camel_case (service :: rest)
                {| ls_doc := doc; ls_bodyInputKey := None |}) as [st| |];
      simpl in *; try discriminate.
    injection H as <-. eexists. split; [reflexivity|]. split; reflexivity.
Qed.

Lemma process_services_file env fuel to_camel_case g services_info g' :
  process_services env fuel to_camel_case g services_info = Ok g' ->
  output_openapi_file g' = output_openapi_file g.
Proof.
  intros H.
  destruct (@process_services_build _ _ _ g g _ _ H eq_refl) as (h' & H' & _ & F).
  rewrite H in H'. injection H' as <-. exact F.
Qed.

Lemma generate_inv env fuel yaml_dump g fs g' fs' :
  generate env fuel yaml_dump g fs = (Ok g', fs') ->
  process_configured env fuel g = Ok g'
  /\ fs' = dict_set fs (output_openapi_file g) (yaml_dump (openapi_build g')).
Proof.
  unfold generate.
  destruct (openapi_build g) as [doc|]; [|discriminate].
  destruct (search_endpoint_declaration g).
  destruct (process_configured env fuel g) as [g0| |] eqn:P; try discriminate.
  intros H. injection H as <- <-.
  unfold process_configured in P. apply process_services_file in P.
  now rewrite P.
Qed.

(** C3. The endpoint of [example_service_endpoint.py]: GET on
    [world/{userId}], domain ["_"], a query group that is a union of two
    records, a path group [{userId: string}], no body input. With five
    units of fuel or more [process_services] returns a document that has
    the path ["/world/{userId}"]; whose [get.parameters] is the list of
    two references, one to a parameter that is [in: query] and one to a
    parameter that is [in: path] and named [userId]; whose [get] entry
    has no [requestBody]; and whose
    [responses[200].content["application/json"].schema] refers to
    [_OutputBody], the output body schema under its domain-qualified
    name, which the registry holds. *)
Theorem example_endpoint_document :
  exists g doc entry query path,
    (forall fuel, 5 <= fuel -> Example.compiled fuel = Ok g)
    /\ openapi_build g = Some doc
    /\ dict_mem (paths doc) "/world/{userId}" = true
    /\ get_method (paths doc) "/world/{userId}" "get" = Some entry
    /\ dict_get entry "parameters"
       = Some (OVal (JList
            [JDict [("$ref", JStr "#/components/parameters/_QueryStringParameters")];
             JDict [("$ref", JStr "#/components/parameters/_PathParametersuserId")]]))
    /\ dict_get (parameters doc) "_QueryStringParameters" = Some query
    /\ json_getitem query "in" = Ok (JStr "query")
    /\ dict_get (parameters doc) "_PathParametersuserId" = Some path
    /\ json_getitem path "in" = Ok (JStr "path")
    /\ json_getitem path "name" = Ok (JStr "userId")
    /\ dict_mem entry "requestBody" = false
    /\ dict_get entry "responses"
       = Some (ODict
            [(PInt 200,
              ODict
                [(PStr "content",
                  ODict
                    [(PStr "application/json",
                      OVal (JDict
                        [("schema",
                          JDict [("$ref", JStr "#/components/schemas/_OutputBody")])]))]);
                 (PStr "description", OVal (JStr "Success"))])])
    /\ dict_mem (schemas doc) "_OutputBody" = true.
Proof.
  destruct (Example.compiled 5) as [g| |] eqn:E; try (vm_compute in E; discriminate).
  exists g.
  assert (F : forall fuel, 5 <= fuel -> Example.compiled fuel = Ok g).
  { intros fuel L. unfold Example.compiled in *.
    destruct Example.generator as [g0| |]; try discriminate.
    simpl in *. unfold process_configured in *.
    pose proof (@process_services_mono Example.classes (to_camel_case_schemas g0)
                  _ _ L g0 (endpoint_config g0)) as R.
    unfold refines in R. rewrite E in R. apply R. discriminate. }
  vm_compute in E. injection E as <-.
  do 4 eexists. split; [exact F|].
  repeat (split; [reflexivity|]). reflexivity.
Qed.

(** ** Domain-qualified parameter keys *)

Lemma lower_char_not_upper c : Str.is_upper (Str.lower_char c) = false.
Proof. each_ascii c; reflexivity. Qed.

Lemma lower_no_upper s : no_upper (Str.lower s) = true.
Proof.
  unfold no_upper, Str.lower in *.
  induction s as [|c s IH]; cbn [Str.map Str.all]; [reflexivity|].
  rewrite lower_char_not_upper. exact IH.
Qed.

Lemma capitalize_capitalized s : capitalized (Str.capitalize s).
Proof. destruct s; simpl; [exact I | apply lower_no_upper]. Qed.

Lemma span_lower_app t U rest :
  no_upper t = true -> Str.is_upper U = true ->
  span_lower (t ++ String U rest)%string = (t, String U rest).
Proof.
  unfold no_upper. intros Ht HU.
  induction t as [|c t IH]; cbn [String.append span_lower].
  - now rewrite HU.
  - cbn [Str.all] in Ht. apply andb_prop in Ht as [Hc Ht].
    apply negb_true_iff in Hc. rewrite Hc, (IH Ht). reflexivity.
Qed.

Lemma split_domain_app c t U rest :
  no_upper t = true -> Str.is_upper U = true ->
  split_domain (String c t ++ String U rest)%string
  = (String c t, String U rest).
Proof.
  intros Ht HU. cbn [String.append split_domain].
  now rewrite span_lower_app.
Qed.

Lemma group_suffix_head R :
  group_suffix R -> exists U rest, R = String U rest /\ Str.is_upper U = true.
Proof.
  intros [->|[key ->]]; simpl; do 2 eexists; split; reflexivity.
Qed.

Lemma group_suffix_not_inside c t R R' :
  no_upper t = true -> group_suffix R -> group_suffix R' ->
  R = (String c t ++ R')%string -> False.
Proof.
  intros Ht HR HR' E.
  destruct (group_suffix_head HR') as (U & rest & ER' & HU).
  pose proof (@split_domain_app c t U rest Ht HU) as S.
  rewrite <- ER', <- E in S. apply (f_equal snd) in S.
  destruct HR as [->|[key ->]]; simpl in S;
    destruct HR' as [->|[key' ->]]; discriminate.
Qed.

(** A key determines its domain and its suffix. *)
Lemma key_decomposition d d' R R' :
  capitalized d -> capitalized d' -> group_suffix R -> group_suffix R' ->
  (d ++ R)%string = (d' ++ R')%string -> d = d' /\ R = R'.
Proof.
  intros Hd Hd' HR HR' E.
  destruct d as [|c t], d' as [|c' t']; simpl in Hd, Hd'.
  - now split.
  - exfalso. exact (@group_suffix_not_inside c' t' R R' Hd' HR HR' E).
  - exfalso. exact (@group_suffix_not_inside c t R' R Hd HR' HR (eq_sym E)).
  - destruct (group_suffix_head HR) as (U & rest & ER & HU).
    destruct (group_suffix_head HR') as (U' & rest' & ER' & HU').
    pose proof (@split_domain_app c t U rest Hd HU) as S.
    rewrite <- ER, E, ER', (@split_domain_app c' t' U' rest' Hd' HU') in S.
    apply pair_equal_spec in S as [S1 S2]. split; congruence.
Qed.

Lemma synthesized_functional k v v' :
  synthesized k v -> synthesized k v' -> v = v'.
Proof.
  intros (d & Hd & H) (d' & Hd' & H').
  destruct H as [[E ->]|(key & E & ->)], H' as [[E' ->]|(key' & E' & ->)].
  - reflexivity.
  - exfalso. rewrite E in E'.
    apply key_decomposition in E' as [_ E']; auto;
      [discriminate | now left | right; eauto].
  - exfalso. rewrite E in E'.
    apply key_decomposition in E' as [_ E']; auto;
      [discriminate | right; eauto | now left].
  - rewrite E in E'.
    apply key_decomposition in E' as [_ E']; auto; try (right; eauto).
    simpl in E'. injection E' as ->. reflexivity.
Qed.

Lemma all_synthesized_set params k v :
  all_synthesized params -> synthesized k v ->
  all_synthesized (dict_set params k v).
Proof.
  intros H S k' v' I. apply In_dict_set in I as [[-> ->]|I]; auto.
Qed.

Lemma dict_set_same (V : Type) (d : dict V) k v :
  dict_get d k = Some v -> dict_set d k v = d.
Proof.
  induction d as [|[k0 v0] d IH]; simpl; [discriminate|].
  destruct (String.eqb k k0); intros H.
  - now injection H as ->.
  - now rewrite IH.
Qed.

Lemma dict_set_new (V : Type) (d : dict V) k v :
  dict_get d k = None -> dict_set d k v = d ++ [(k, v)].
Proof.
  induction d as [|[k0 v0] d IH]; simpl; [reflexivity|].
  destruct (String.eqb k k0); intros H; [discriminate|].
  now rewrite IH.
Qed.

(** Merging synthesized parameters only adds entries after those that
    are there. *)
Lemma merge_extends (new old : dict json) :
  all_synthesized old -> all_synthesized new ->
  exists extra, dict_update old new = old ++ extra.
Proof.
  unfold dict_update. revert old.
  induction new as [|[k0 v0] new IH]; simpl; intros old Ho Hn.
  - exists []. now rewrite app_nil_r.
  - assert (S0 : synthesized k0 v0) by (apply Hn; now left).
    assert (Hn' : all_synthesized new) by (intros k v I; apply Hn; now right).
    destruct (IH (dict_set old k0 v0) (all_synthesized_set Ho S0) Hn')
      as [extra E].
    rewrite E. destruct (dict_get old k0) as [v|] eqn:G.
    + assert (v = v0) as ->.
      { apply (@synthesized_functional k0); [|exact S0].
        apply Ho. now apply dict_get_In. }
      rewrite (dict_set_same _ _ G). now exists extra.
    + rewrite (dict_set_new _ _ v0 G), <- app_assoc. eauto.
Qed.

(** Merging synthesized parameters changes no entry that is there. *)
Lemma merge_keeps_entries (new old : dict json) :
  all_synthesized old -> all_synthesized new ->
  all_synthesized (dict_update old new)
  /\ forall k v, dict_get old k = Some v ->
                 dict_get (dict_update old new) k = Some v.
Proof.
  unfold dict_update. revert old.
  induction new as [|[k0 v0] new IH]; simpl; intros old Ho Hn; [auto|].
  assert (S0 : synthesized k0 v0) by (apply Hn; now left).
  assert (Hn' : all_synthesized new) by (intros k v I; apply Hn; now right).
  destruct (IH (dict_set old k0 v0) (all_synthesized_set Ho S0) Hn') as [A B].
  split; [exact A|].
  intros k v G. apply B. rewrite dict_get_set.
  destruct (String.eqb_spec k k0) as [->|]; [|exact G].
  f_equal. apply (@synthesized_functional k0); auto.
  apply Ho. now apply dict_get_In.
Qed.

(** ** One endpoint, step by step *)

Lemma process_service_inv env fuel to_camel_case service st st' :
  process_service env fuel to_camel_case service st = Ok st' ->
  exists inputSchema outputSchema domainName registry x1 x2 registry2 key
         info registry3 responses,
    serviceInput service = Some inputSchema
    /\ serviceOutput service = Some outputSchema
    /\ domain_name inputSchema = Ok domainName
    /\ register_schemas env fuel to_camel_case inputSchema outputSchema
         (schemas (ls_doc st)) = Ok registry
    /\ query_group domainName
         {| x_schemas := registry; x_parameters := [];
            x_method_parameters := [] |} = Ok x1
    /\ path_group domainName x1 = Ok x2
    /\ body_group domainName (x_schemas x2) (ls_bodyInputKey st)
       = Ok (registry2, key)
    /\ request_body inputSchema key
         (dict_set
            (dict_set (new_method_entry service) "parameters" (OVal (JList [])))
            "parameters" (OVal (JList (x_method_parameters x2)))) = Ok info
    /\ output_processing env fuel to_camel_case domainName outputSchema
         (discard registry2 (c_name inputSchema)) = Ok (registry3, responses)
    /\ st' =
       {| ls_doc :=
            set_paths
              (set_parameters (set_schemas (ls_doc st) registry3)
                 (dict_update (parameters (ls_doc st)) (x_parameters x2)))
              (set_method
                 (set_method
                    (addPath (normalized_path service) (paths (ls_doc st)))
                    (normalized_path service) (Str.lower (httpMethod service))
                    (new_method_entry service))
                 (normalized_path service) (Str.lower (httpMethod service))
                 (dict_set info "responses" responses));
          ls_bodyInputKey := key |}.
Proof.
  unfold process_service. intros H.
  destruct (serviceInput service) as [inputSchema|]; [|discriminate].
  destruct (domain_name inputSchema) as [domainName| |] eqn:D; simpl in H;
    try discriminate.
  destruct (serviceOutput service) as [outputSchema|]; [|discriminate].
  destruct (register_schemas env fuel to_camel_case inputSchema outputSchema
              (schemas (ls_doc st))) as [registry| |] eqn:G; simpl in H;
    try discriminate.
  destruct (query_group domainName _) as [x1| |] eqn:Q; simpl in H;
    try discriminate.
  destruct (path_group domainName x1) as [x2| |] eqn:P; simpl in H;
    try discriminate.
  destruct (body_group domainName (x_schemas x2) (ls_bodyInputKey st))
    as [[registry2 key]| |] eqn:B; simpl in H; try discriminate.
  destruct (request_body inputSchema key _) as [info| |] eqn:R; simpl in H;
    try discriminate.
  destruct (output_processing env fuel to_camel_case domainName outputSchema _)
    as [[registry3 responses]| |] eqn:O; simpl in H; try discriminate.
  injection H as <-.
  exists inputSchema, outputSchema, domainName, registry, x1, x2, registry2, key,
    info, registry3, responses.
  repeat (split; [first [reflexivity | eassumption]|]). reflexivity.
Qed.

Lemma string_app_assoc (a b c : string) :
  ((a ++ b) ++ c)%string = (a ++ (b ++ c))%string.
Proof. induction a as [|x a IH]; simpl; [reflexivity | now rewrite IH]. Qed.

Lemma domain_name_capitalized inputSchema d :
  domain_name inputSchema = Ok d -> capitalized d.
Proof.
  unfold domain_name.
  destruct (class_getattr inputSchema "domainName") as [[]|]; intros H;
    try discriminate; injection H as <-;
    first [apply capitalize_capitalized | exact (capitalize_capitalized "_")].
Qed.

Lemma query_group_parameters d x x' :
  capitalized d -> query_group d x = Ok x' ->
  all_synthesized (x_parameters x) -> all_synthesized (x_parameters x').
Proof.
  unfold query_group. intros Hd H A.
  destruct (group_target (x_schemas x) "queryStringParameters"
              "QueryStringParameters") as [target| |]; simpl in H;
    try discriminate.
  destruct (dict_mem (x_schemas x) target); [|injection H as <-; exact A].
  destruct (rename (x_schemas x) target (d ++ "QueryStringParameters"))
    as [registry| |]; simpl in H; try discriminate.
  injection H as <-. simpl. apply all_synthesized_set; [exact A|].
  exists d. split; [exact Hd|]. left. split; reflexivity.
Qed.

Lemma path_properties_parameters d :
  capitalized d ->
  forall items x,
    all_synthesized (x_parameters x) ->
    all_synthesized
      (x_parameters (path_properties (d ++ "PathParameters") items x)).
Proof.
  intros Hd. induction items as [|[key value] items IH]; intros x A; simpl;
    [exact A|].
  apply IH. simpl. apply all_synthesized_set; [exact A|].
  exists d. split; [exact Hd|]. right. exists key.
  rewrite string_app_assoc. split; reflexivity.
Qed.

Lemma path_group_parameters d x x' :
  capitalized d -> path_group d x = Ok x' ->
  all_synthesized (x_parameters x) -> all_synthesized (x_parameters x').
Proof.
  unfold path_group. intros Hd H A.
  destruct (group_target (x_schemas x) "pathParameters" "PathParameters")
    as [target| |]; simpl in H; try discriminate.
  destruct (dict_mem (x_schemas x) target); [|injection H as <-; exact A].
  destruct (rename (x_schemas x) target (d ++ "PathParameters"))
    as [registry| |]; simpl in H; try discriminate.
  destruct (dict_get registry (d ++ "PathParameters")) as [aggregate|];
    simpl in H; try discriminate.
  destruct (json_getitem aggregate "properties") as [_properties| |];
    simpl in H; try discriminate.
  destruct (as_dict _properties) as [items| |]; simpl in H; try discriminate.
  match type of H with
  | bind (pop ?r ?k) _ = _ => destruct (pop r k) as [[? registry']| |]
  end; simpl in H; try discriminate.
  injection H as <-. simpl.
  now apply (@path_properties_parameters d Hd items
               {| x_schemas := registry; x_parameters := x_parameters x;
                  x_method_parameters := x_method_parameters x |}).
Qed.

Lemma process_service_parameters env fuel to_camel_case service st st' :
  process_service env fuel to_camel_case service st = Ok st' ->
  all_synthesized (parameters (ls_doc st)) ->
  all_synthesized (parameters (ls_doc st'))
  /\ (forall k v,
         dict_get (parameters (ls_doc st)) k = Some v ->
         dict_get (parameters (ls_doc st')) k = Some v)
  /\ exists extra,
      parameters (ls_doc st') = parameters (ls_doc st) ++ extra.
Proof.
  intros H A.
  apply process_service_inv in H
    as (inputSchema & outputSchema & d & registry & x1 & x2 & registry2 & key
        & info & registry3 & responses & _ & _ & D & _ & Q & P & _ & _ & _ & ->).
  apply domain_name_capitalized in D.
  assert (N : all_synthesized (x_parameters x2)).
  { apply (@path_group_parameters d x1 x2 D P),
          (@query_group_parameters d _ x1 D Q).
    intros ? ? []. }
  simpl. destruct (merge_keeps_entries A N) as [A' K].
  split; [exact A'|]. split; [exact K|]. now apply merge_extends.
Qed.

Lemma services_loop_parameters env fuel to_camel_case services_info :
  forall st st',
    services_loop env fuel to_camel_case services_info st = Ok st' ->
    all_synthesized (parameters (ls_doc st)) ->
    all_synthesized (parameters (ls_doc st'))
    /\ (forall k v,
           dict_get (parameters (ls_doc st)) k = Some v ->
           dict_get (parameters (ls_doc st')) k = Some v)
    /\ exists extra,
        parameters (ls_doc st') = parameters (ls_doc st) ++ extra.
Proof.
  induction services_info as [|service rest IH]; simpl; intros st st' H A.
  - injection H as <-. split; [exact A|]. split; [auto|].
    exists []. now rewrite app_nil_r.
  - destruct (process_service env fuel to_camel_case service st) as [st1| |] eqn:E;
      simpl in H; try discriminate.
    destruct (@process_service_parameters _ _ _ _ _ _ E A) as (A1 & K1 & e1 & E1).
    destruct (IH _ _ H A1) as (A2 & K2 & e2 & E2).
    split; [exact A2|]. split; [auto|].
    exists (e1 ++ e2). now rewrite E2, E1, app_assoc.
Qed.

(** C2. Fold [process_services] over any list of endpoints, starting from
    an empty [components.parameters] as [build_openapi_base] leaves it:
    an entry that is in the map after the earlier endpoints is there,
    under the same key and with the same value, after the later ones,
    and the map after the later endpoints is the earlier map followed by
    the entries that are new. (A later endpoint may assign to a key an
    earlier one wrote: the key fixes the object written, so the
    assignment changes nothing.) *)
Theorem earlier_parameters_unchanged :
  forall env fuel to_camel_case earlier later st0 st1 st2,
    parameters (ls_doc st0) = [] ->
    services_loop env fuel to_camel_case earlier st0 = Ok st1 ->
    services_loop env fuel to_camel_case later st1 = Ok st2 ->
    (forall k v,
        dict_get (parameters (ls_doc st1)) k = Some v ->
        dict_get (parameters (ls_doc st2)) k = Some v)
    /\ exists extra,
        parameters (ls_doc st2) = parameters (ls_doc st1) ++ extra.
Proof.
  intros env fuel to_camel_case earlier later st0 st1 st2 E0 H1 H2.
  assert (A0 : all_synthesized (parameters (ls_doc st0)))
    by (rewrite E0; intros ? ? []).
  destruct (@services_loop_parameters _ _ _ _ _ _ H1 A0) as (A1 & _ & _).
  destruct (@services_loop_parameters _ _ _ _ _ _ H2 A1) as (_ & K & X).
  split; [exact K | exact X].
Qed.

Lemma earlier_parameters_unchanged_witness :
  exists st1 st2,
    services_loop Example.classes 5 true [Example.endpoint_config]
      TwoEndpoints.start = Ok st1
    /\ services_loop Example.classes 5 true [TwoEndpoints.second] st1 = Ok st2
    /\ dict_get (parameters (ls_doc st1)) "_PathParametersuserId"
       = Some (path_parameter "_PathParametersuserId" "userId")
    /\ dict_get (parameters (ls_doc st2)) "_PathParametersuserId"
       = Some (path_parameter "_PathParametersuserId" "userId")
    /\ exists extra,
        parameters (ls_doc st2) = parameters (ls_doc st1) ++ extra.
Proof.
  destruct (services_loop Example.classes 5 true [Example.endpoint_config]
              TwoEndpoints.start) as [st1| |] eqn:E1;
    try (vm_compute in E1; discriminate).
  destruct (services_loop Example.classes 5 true [TwoEndpoints.second] st1)
    as [st2| |] eqn:E2.
  - exists st1, st2.
    assert (G : dict_get (parameters (ls_doc st1)) "_PathParametersuserId"
                = Some (path_parameter "_PathParametersuserId" "userId")).
    { vm_compute in E1. injection E1 as <-. reflexivity. }
    destruct (@earlier_parameters_unchanged Example.classes 5 true
                [Example.endpoint_config] [TwoEndpoints.second]
                TwoEndpoints.start st1 st2 eq_refl E1 E2) as [K X].
    repeat split; try assumption. now apply K.
  - exfalso. vm_compute in E1. injection E1 as <-. vm_compute in E2. discriminate.
  - exfalso. vm_compute in E1. injection E1 as <-. vm_compute in E2. discriminate.
Defined.

(** ** Missing input or output type *)

Lemma services_loop_app env fuel to_camel_case earlier rest st0 :
  services_loop env fuel to_camel_case (earlier ++ rest) st0
  = (st1 <- services_loop env fuel to_camel_case earlier st0 ;;
     services_loop env fuel to_camel_case rest st1).
Proof.
  revert st0. induction earlier as [|service earlier IH]; intros st0; simpl;
    [reflexivity|].
  destruct (process_service env fuel to_camel_case service st0); simpl; auto.
Qed.

(** C5. An endpoint without input class makes [process_services] raise
    the [ValueError] "Input schema not found for service ..." (the
    MissingInputSchema of the design document); an endpoint with an input
    class, whose [domainName] is a string or absent, and without output
    class makes it raise the [ValueError] "Output schema not found for
    service ..." (MissingOutputSchema). The exception ends the loop at
    that endpoint, whatever follows in the list, and [generate] passes it
    on without writing to any file. *)
Theorem missing_schema_aborts_run :
  forall env fuel to_camel_case,
    (forall service st,
        serviceInput service = None ->
        process_service env fuel to_camel_case service st
        = Raise (ValueError ("Input schema not found for service "
                             ++ serviceName service)%string))
    /\ (forall service st inputSchema domainName,
           serviceInput service = Some inputSchema ->
           domain_name inputSchema = Ok domainName ->
           serviceOutput service = None ->
           process_service env fuel to_camel_case service st
           = Raise (ValueError ("Output schema not found for service "
                                ++ serviceName service)%string))
    /\ (forall earlier service rest st0 st1 e,
           services_loop env fuel to_camel_case earlier st0 = Ok st1 ->
           process_service env fuel to_camel_case service st1 = Raise e ->
           services_loop env fuel to_camel_case (earlier ++ service :: rest) st0
           = Raise e)
    /\ (forall yaml_dump g doc e fs,
           openapi_build g = Some doc ->
           services_loop env fuel (to_camel_case_schemas g) (endpoint_config g)
             {| ls_doc := doc; ls_bodyInputKey := None |} = Raise e ->
           generate env fuel yaml_dump g fs = (Raise e, fs)).
Proof.
  intros env fuel to_camel_case. split; [|split; [|split]].
  - intros service st H. unfold process_service. now rewrite H.
  - intros service st inputSchema domainName Hi Hd Ho.
    unfold process_service. rewrite Hi, Hd. simpl. now rewrite Ho.
  - intros earlier service rest st0 st1 e H1 H2.
    rewrite services_loop_app, H1. simpl. now rewrite H2.
  - intros yaml_dump g doc e fs Hb H.
    unfold generate, process_configured, process_services. rewrite Hb.
    destruct (search_endpoint_declaration g).
    destruct (endpoint_config g) as [|service rest]; [discriminate|].
    now rewrite H.
Qed.

Lemma missing_schema_aborts_run_witness :
  generate Example.classes 5 (fun _ => "text") Incomplete.generator
    [("output_openapi.yaml", "previous run")]
  = (Raise (ValueError "Input schema not found for service MyService"),
     [("output_openapi.yaml", "previous run")]).
Proof.
  destruct (@missing_schema_aborts_run Example.classes 5 true) as (A & _ & C & D).
  apply (D (fun _ => "text") Incomplete.generator
           (base_document "3.1.0" "Service" "Description" "1.0")).
  - reflexivity.
  - apply (C [] Incomplete.no_input []
             {| ls_doc := base_document "3.1.0" "Service" "Description" "1.0";
                ls_bodyInputKey := None |}
             {| ls_doc := base_document "3.1.0" "Service" "Description" "1.0";
                ls_bodyInputKey := None |}).
    + reflexivity.
    + apply A. reflexivity.
Defined.

(** ** The request body *)

Lemma addPath_mem p ps : dict_mem (addPath p ps) p = true.
Proof.
  unfold addPath. destruct (dict_mem ps p) eqn:M; simpl; [exact M|].
  rewrite dict_mem_set, String.eqb_refl. reflexivity.
Qed.

Lemma get_set_method ps p m entry :
  dict_mem ps p = true ->
  get_method (set_method ps p m entry) p m = Some entry.
Proof.
  unfold get_method, set_method, dict_mem.
  destruct (dict_get ps p) as [item|]; [|discriminate].
  intros _. rewrite dict_get_set_eq. apply dict_get_set_eq.
Qed.

Lemma set_method_mem ps p m entry :
  dict_mem ps p = true -> dict_mem (set_method ps p m entry) p = true.
Proof.
  unfold set_method. intros M.
  destruct (dict_get ps p); [|exact M].
  rewrite dict_mem_set, String.eqb_refl. reflexivity.
Qed.

(** The entry [process_service] leaves under the endpoint's path and
    method. *)
Lemma process_service_entry env fuel to_camel_case service st st' :
  process_service env fuel to_camel_case service st = Ok st' ->
  exists inputSchema x key info responses,
    serviceInput service = Some inputSchema
    /\ request_body inputSchema key
         (dict_set
            (dict_set (new_method_entry service) "parameters" (OVal (JList [])))
            "parameters" (OVal (JList (x_method_parameters x)))) = Ok info
    /\ get_method (paths (ls_doc st')) (normalized_path service)
         (Str.lower (httpMethod service))
       = Some (dict_set info "responses" responses).
Proof.
  intros H.
  apply process_service_inv in H
    as (inputSchema & outputSchema & d & registry & x1 & x2 & registry2 & key
        & info & registry3 & responses & I & _ & _ & _ & _ & _ & _ & R & _ & ->).
  exists inputSchema, x2, key, info, responses.
  split; [exact I|]. split; [exact R|]. simpl.
  apply get_set_method, set_method_mem, addPath_mem.
Qed.


(** A truthy attribute with [bodyInputKey] never bound: the block reads
    an unbound local. *)
Lemma request_body_unbound inputSchema attr entry :
  class_getattr inputSchema "bodyInput" = Some attr ->
  truthy attr = true ->
  request_body inputSchema None entry
  = Raise (UnboundLocalError "bodyInputKey").
Proof. unfold request_body. intros -> ->. reflexivity. Qed.






(** ** Removal and merge in a registry *)

Lemma dict_get_None_keys (V : Type) (d : dict V) k :
  ~ In k (dict_keys d) -> dict_get d k = None.
Proof.
  intros N. destruct (dict_get d k) eqn:G; [|reflexivity].
  elim N. apply dict_mem_keys. unfold dict_mem. now rewrite G.
Qed.

Lemma dict_mem_update (V : Type) (d2 : dict V) :
  forall d k, dict_mem (dict_update d d2) k = dict_mem d k || dict_mem d2 k.
Proof.
  induction d2 as [|[k0 v0] d2 IH]; intros d k.
  - simpl. unfold dict_mem at 3. simpl. now rewrite orb_false_r.
  - change (dict_update d ((k0, v0) :: d2))
      with (dict_update (dict_set d k0 v0) d2).
    rewrite IH, dict_mem_set. unfold dict_mem at 3 4. simpl.
    destruct (String.eqb k k0); simpl; [now rewrite orb_true_r|reflexivity].
Qed.

Lemma dict_get_del_neq (V : Type) (d : dict V) k k' :
  k' <> k -> dict_get (dict_del d k) k' = dict_get d k'.
Proof.
  intros N. induction d as [|[k0 v0] d IH]; simpl; [reflexivity|].
  destruct (String.eqb_spec k k0) as [<-|]; simpl.
  - destruct (String.eqb_spec k' k); [contradiction | reflexivity].
  - now rewrite IH.
Qed.

Lemma dict_get_discard_neq registry k k' :
  k' <> k -> dict_get (discard registry k) k' = dict_get registry k'.
Proof.
  intros N. unfold discard. destruct (dict_mem registry k); [|reflexivity].
  now apply dict_get_del_neq.
Qed.

Lemma dict_del_keys (V : Type) (d : dict V) k k' :
  In k' (dict_keys (dict_del d k)) -> In k' (dict_keys d).
Proof.
  induction d as [|[k0 v0] d IH]; simpl; [tauto|].
  destruct (String.eqb k k0); simpl; [now right|].
  intros [E|I]; [now left | right; auto].
Qed.

Lemma dict_del_NoDup (V : Type) (d : dict V) k :
  NoDup (dict_keys d) -> NoDup (dict_keys (dict_del d k)).
Proof.
  induction d as [|[k0 v0] d IH]; simpl; intros H; [exact H|].
  inversion H as [|? ? Hn Hd]; subst.
  destruct (String.eqb k k0); simpl; [exact Hd|].
  constructor; [|auto]. intros I. apply Hn. exact (dict_del_keys _ _ _ I).
Qed.

Lemma dict_get_del_same (V : Type) (d : dict V) k :
  NoDup (dict_keys d) -> dict_get (dict_del d k) k = None.
Proof.
  induction d as [|[k0 v0] d IH]; simpl; intros H; [reflexivity|].
  inversion H as [|? ? Hn Hd]; subst.
  destruct (String.eqb_spec k k0) as [->|N]; simpl.
  - now apply dict_get_None_keys.
  - destruct (String.eqb_spec k k0); [contradiction|auto].
Qed.

Lemma discard_gone registry k :
  NoDup (dict_keys registry) -> dict_mem (discard registry k) k = false.
Proof.
  intros H. unfold discard. destruct (dict_mem registry k) eqn:M; [|exact M].
  unfold dict_mem. now rewrite dict_get_del_same.
Qed.

(** ** Field groups that are only references *)















(** * Further properties *)

(** ** [utils.py] *)

Lemma string_app_empty (s : string) : (s ++ "")%string = s.
Proof. induction s as [|c s IH]; simpl; [reflexivity | now rewrite IH]. Qed.

Lemma split_acc_whole sep :
  forall s cur,
    Str.mem sep s = false ->
    Str.split_acc sep cur s = [(cur ++ s)%string].
Proof.
  induction s as [|c s IH]; intros cur H; simpl.
  - now rewrite string_app_empty.
  - simpl in H. apply orb_false_iff in H as [H1 H2].
    rewrite Ascii.eqb_sym, H1, (IH (cur ++ String c "")%string H2), string_app_assoc.
    reflexivity.
Qed.

Lemma camel_case_plain s :
  Str.mem "_" s = false -> Utils.snake_case_to_camel_case s = s.
Proof.
  intros H. unfold Utils.snake_case_to_camel_case, Str.split.
  rewrite (@split_acc_whole "_"%char s "" H). cbn [String.append Utils.camel_words].
  destruct (String.eqb_spec s ""); [now subst|].
  cbn [Nat.eqb Str.join fold_right]. apply string_app_empty.
Qed.

(** X1. The converted key holds no underscore, and converting it again
    changes nothing. *)
Theorem camel_case_idempotent :
  forall s,
    Str.mem "_" (Utils.snake_case_to_camel_case s) = false
    /\ Utils.snake_case_to_camel_case (Utils.snake_case_to_camel_case s)
       = Utils.snake_case_to_camel_case s.
Proof.
  intros s. split; [apply camel_case_no_underscore|].
  apply camel_case_plain, camel_case_no_underscore.
Qed.

Lemma find_snoc (A : Type) (p : A -> bool) (l : list A) (x : A) :
  find p (l ++ [x])
  = match find p l with
    | Some y => Some y
    | None => if p x then Some x else None
    end.
Proof.
  induction l as [|y l IH]; simpl; [reflexivity|].
  destruct (p y); [reflexivity | exact IH].
Qed.

Lemma change_items_lookup format :
  forall d acc k',
    dict_get (Utils.change_items format d acc) k'
    = match last_converted format d k' with
      | Some kv =>
          Some (Utils.deep_change_keys_by_format format (snd kv))
      | None => dict_get acc k'
      end.
Proof.
  unfold last_converted.
  induction d as [|[key value] d IH]; intros acc k'; simpl; [reflexivity|].
  rewrite IH, find_snoc. simpl.
  destruct (find _ (rev d)); [reflexivity|].
  rewrite dict_get_set, String.eqb_sym.
  now destruct (String.eqb (format key) k').
Qed.

Lemma dict_set_length (V : Type) (d : dict V) k v :
  length (dict_set d k v) <= S (length d).
Proof.
  induction d as [|[k0 v0] d IH]; simpl; [lia|].
  destruct (String.eqb k k0); simpl; lia.
Qed.

Lemma change_items_length format :
  forall d acc,
    length (Utils.change_items format d acc) <= length acc + length d.
Proof.
  induction d as [|[key value] d IH]; intros acc; simpl; [lia|].
  specialize (IH (dict_set acc (format key)
                    (Utils.deep_change_keys_by_format format value))).
  pose proof (dict_set_length acc (format key)
                (Utils.deep_change_keys_by_format format value)). lia.
Qed.

(** X2. The dict [deep_change_keys_by_format] builds from a dict: its
    keys are distinct, it has no more entries than the original, and
    under each key it holds the converted value of the last entry whose
    key converts to it (an earlier entry with the same converted key is
    lost); a key no entry converts to is absent. *)
Theorem deep_change_last_key_wins :
  forall format d,
  exists d',
    Utils.deep_change_keys_by_format format (JDict d) = JDict d'
    /\ NoDup (dict_keys d')
    /\ length d' <= length d
    /\ forall k',
        dict_get d' k'
        = match last_converted format d k' with
          | Some kv =>
              Some (Utils.deep_change_keys_by_format format (snd kv))
          | None => None
          end.
Proof.
  intros format d. exists (Utils.change_items format d []).
  split; [apply deep_change_dict|]. split; [|split].
  - apply change_items_NoDup. constructor.
  - apply (change_items_length format d []).
  - intros k'. apply change_items_lookup.
Qed.

Lemma distinct_head k r :
  distinct (k :: r) = true -> ~ In k r /\ distinct r = true.
Proof.
  simpl. intros H. apply andb_prop in H as [H1 H2]. split; [|exact H2].
  intros I. apply negb_true_iff in H1.
  assert (existsb (String.eqb k) r = true); [|congruence].
  apply existsb_exists. exists k. split; [exact I | apply String.eqb_refl].
Qed.

Lemma change_items_plain :
  forall d acc,
    Forall (fun kv => plain_keys (snd kv) = true ->
                      Utils.deep_change_keys_by_format
                        Utils.snake_case_to_camel_case (snd kv) = snd kv) d ->
    distinct (List.map fst d) = true ->
    forallb (fun kv : string * json =>
               let (k, v) := kv in
               negb (Str.mem "_" k) && plain_keys v) d = true ->
    (forall k, In k (List.map fst d) -> ~ In k (dict_keys acc)) ->
    Utils.change_items Utils.snake_case_to_camel_case d acc = acc ++ d.
Proof.
  induction d as [|[key value] d IH]; intros acc F D A N; simpl.
  - now rewrite app_nil_r.
  - inversion F as [|? ? Fv Fd]; subst. simpl in Fv.
    apply distinct_head in D as [Dk Dd].
    simpl in A. apply andb_prop in A as [Ak Ad]. apply andb_prop in Ak as [Ak Av].
    apply negb_true_iff in Ak.
    rewrite (@camel_case_plain key Ak), (Fv Av).
    rewrite dict_set_new by (apply dict_get_None_keys, N; now left).
    rewrite IH; auto.
    + now rewrite <- app_assoc.
    + intros k Hk I. unfold dict_keys in I. rewrite map_app in I.
      apply in_app_or in I as [I|[<-|[]]].
      * apply (N k); [now right | exact I].
      * exact (Dk Hk).
Qed.

Lemma deep_change_plain j :
  plain_keys j = true ->
  Utils.deep_change_keys_by_format Utils.snake_case_to_camel_case j = j.
Proof.
  induction j as [| | | |l IH|d IH] using json_induction; intros H;
    try reflexivity.
  - simpl. f_equal. simpl in H.
    induction l as [|x l IHl]; [reflexivity|].
    inversion IH as [|? ? Hx Hl]; subst. simpl in H.
    apply andb_prop in H as [H1 H2]. simpl. now rewrite (Hx H1), (IHl Hl H2).
  - rewrite deep_change_dict. f_equal. simpl in H.
    apply andb_prop in H as [H1 H2].
    now apply (@change_items_plain d [] IH H1 H2).
Qed.

(** X3. The casing transform changes nothing in a value whose dicts, at
    every level, have distinct keys without underscore: for schemas of
    that kind [setSchemas] stores the same entries with the switch on and
    off. *)
Theorem casing_keeps_plain_keys :
  forall j,
    plain_keys j = true ->
    Utils.deep_change_keys_by_format Utils.snake_case_to_camel_case j = j
    /\ forall s registry,
        j = JDict s ->
        setSchemas true s registry = setSchemas false s registry.
Proof.
  intros j H. split; [now apply deep_change_plain|].
  intros s registry ->. unfold setSchemas, cased.
  now rewrite (@deep_change_plain (JDict s) H).
Qed.

Lemma casing_keeps_plain_keys_witness :
  plain_keys (JDict [("AB", RequiredExample.AB_schema)]) = true
  /\ Utils.deep_change_keys_by_format Utils.snake_case_to_camel_case
       (JDict [("AB", RequiredExample.AB_schema)])
     = JDict [("AB", RequiredExample.AB_schema)]
  /\ setSchemas true [("AB", RequiredExample.AB_schema)] []
     = setSchemas false [("AB", RequiredExample.AB_schema)] [].
Proof.
  destruct (@casing_keeps_plain_keys
              (JDict [("AB", RequiredExample.AB_schema)]) eq_refl) as [A B].
  split; [reflexivity|]. split; [exact A|]. exact (B _ [] eq_refl).
Defined.


(** ** The registry under the resolver *)

Lemma dict_get_app (V : Type) (a b : dict V) k v :
  dict_get a k = Some v -> dict_get (a ++ b) k = Some v.
Proof.
  induction a as [|[k0 v0] a IH]; simpl; [discriminate|].
  destruct (String.eqb k k0); auto.
Qed.

Lemma dict_mem_app (V : Type) (a b : dict V) k :
  dict_mem a k = true -> dict_mem (a ++ b) k = true.
Proof.
  unfold dict_mem. destruct (dict_get a k) as [v|] eqn:G; [|discriminate].
  intros _. now rewrite (@dict_get_app V a b k v G).
Qed.

Lemma dict_set_app (V : Type) (a b : dict V) k v :
  dict_get a k = None -> dict_set (a ++ b) k v = a ++ dict_set b k v.
Proof.
  induction a as [|[k0 v0] a IH]; simpl; [reflexivity|].
  destruct (String.eqb k k0); intros H; [discriminate|].
  now rewrite IH.
Qed.

Lemma resolve_each_appends (f : resolver) :
  appends f ->
  forall args known_defs schemas defs,
    resolve_each f args known_defs = Ok (schemas, defs) ->
    exists extra, defs = known_defs ++ extra.
Proof.
  intros A. induction args as [|a args IH]; simpl; intros kd ss defs H.
  - injection H as <- <-. exists []. now rewrite app_nil_r.
  - destruct (f a kd) as [[s d1]| |] eqn:E; simpl in H; try discriminate.
    destruct (resolve_each f args d1) as [[ss' d2]| |] eqn:E2; simpl in H;
      try discriminate.
    injection H as <- <-.
    destruct (A _ _ _ _ E) as [e1 ->]. destruct (IH _ _ _ E2) as [e2 ->].
    exists (e1 ++ e2). now rewrite app_assoc.
Qed.

Lemma fields_loop_appends (f : resolver) :
  appends f ->
  forall fields props required root_types props' required' defs,
    fields_loop f fields props required root_types
    = Ok (props', required', defs) ->
    exists extra, defs = root_types ++ extra.
Proof.
  intros A. induction fields as [|fd fields IH]; simpl;
    intros props required rt props' required' defs H.
  - injection H as <- <- <-. exists []. now rewrite app_nil_r.
  - destruct (Str.startswith "_" (f_name fd)); [eauto|].
    destruct (f (f_type fd) rt) as [[s d1]| |] eqn:E; simpl in H;
      try discriminate.
    destruct (A _ _ _ _ E) as [e1 ->]. destruct (IH _ _ _ _ _ _ H) as [e2 ->].
    exists (e1 ++ e2). now rewrite app_assoc.
Qed.

Lemma resolver_appends env :
  forall fuel,
    appends (type_to_schema env fuel)
    /\ (forall cls root_types schema defs,
           dataclass_to_openapi_schema env fuel cls root_types
           = Ok (schema, defs) ->
           exists props required extra,
             schema = object_schema props required
             /\ defs = dict_set (root_types ++ extra) (c_name cls) schema).
Proof.
  induction fuel as [|fuel [IHt IHc]];
    (split; [intros t kd s d H | intros cls rt s d H]); try discriminate.
  - assert (same : exists extra : dict json, kd = kd ++ extra)
      by (exists []; now rewrite app_nil_r).
    destruct t; simpl in H; try (injection H as <- <-; exact same).
    + destruct (filter (fun a => negb (is_NoneType a)) args) as [|a [|b rest]].
      * injection H as <- <-. exact same.
      * eapply IHt; eauto.
      * destruct (resolve_each (type_to_schema env fuel) (a :: b :: rest) kd)
          as [[ss d1]| |] eqn:E; simpl in H; try discriminate.
        injection H as <- <-. eapply resolve_each_appends; eauto.
    + destruct args as [|item ?]; [discriminate|].
      destruct (type_to_schema env fuel item kd) as [[s1 d1]| |] eqn:E;
        simpl in H; try discriminate.
      injection H as <- <-. eapply IHt; eauto.
    + destruct (lookup_class env c) as [cls|]; [|injection H as <- <-; exact same].
      destruct (c_dataclass cls); [|injection H as <- <-; exact same].
      destruct (dict_mem kd (c_name cls)) eqn:M; simpl in H;
        [injection H as <- <-; exact same|].
      destruct (dataclass_to_openapi_schema env fuel cls kd) as [[s1 d1]| |] eqn:E;
        simpl in H; try discriminate.
      injection H as <- <-.
      destruct (IHc _ _ _ _ E) as (props & required & extra & -> & ->).
      assert (G : dict_get kd (c_name cls) = None).
      { unfold dict_mem in M. now destruct (dict_get kd (c_name cls)). }
      rewrite !(@dict_set_app _ kd _ _ _ G). eauto.
  - apply dataclass_to_openapi_schema_inv in H
      as (fuel' & fields & props & required & rt' & E & F & L & -> & ->).
    injection E as <-.
    destruct (@fields_loop_appends _ IHt _ _ _ _ _ _ _ L) as [extra ->].
    exists props, required, extra. split; reflexivity.
Qed.

(** X4. The resolver only adds to the registry: what [type_to_schema]
    returns is the registry it was given followed by new entries, so
    every entry that was there is there afterwards, with its value. *)
Theorem resolver_keeps_registry :
  forall env fuel t known_defs schema defs,
    type_to_schema env fuel t known_defs = Ok (schema, defs) ->
    (exists extra, defs = known_defs ++ extra)
    /\ forall k v, dict_get known_defs k = Some v -> dict_get defs k = Some v.
Proof.
  intros env fuel t known_defs schema defs H.
  destruct (proj1 (resolver_appends env fuel) _ _ _ _ H) as [extra ->].
  split; [eauto|]. intros k v G. now apply dict_get_app.
Qed.

Lemma resolver_keeps_registry_witness :
  type_to_schema Example.classes 3 (TClass "OutputBody")
    [("Known", JDict [("type", JStr "object")])]
  = Ok (schema_ref "OutputBody",
        [("Known", JDict [("type", JStr "object")])]
          ++ [("OutputBody",
               JDict [("type", JStr "object");
                      ("properties",
                       JDict [("code", JDict [("type", JStr "integer")]);
                              ("message", JDict [("type", JStr "string")]);
                              ("response", JDict [("type", JStr "string")])]);
                      ("required",
                       JList [JStr "code"; JStr "message"; JStr "response"])])])
  /\ exists extra defs,
      defs = [("Known", JDict [("type", JStr "object")])] ++ extra
      /\ dict_get defs "Known" = Some (JDict [("type", JStr "object")]).
Proof.
  split; [reflexivity|].
  destruct (@resolver_keeps_registry Example.classes 3 (TClass "OutputBody")
              [("Known", JDict [("type", JStr "object")])] _ _ eq_refl)
    as [[extra E] K].
  exists extra. eexists. split; [exact E|]. now apply K.
Defined.

(** X5. Called on a record directly, [dataclass_to_openapi_schema]
    replaces the entry under the record's own name and no other: every
    entry of the registry under another name is there afterwards, with
    its value, and the record's name holds the schema returned. *)
Theorem compile_replaces_own_name_only :
  forall env fuel cls root_types schema defs,
    dataclass_to_openapi_schema env fuel cls root_types = Ok (schema, defs) ->
    dict_get defs (c_name cls) = Some schema
    /\ forall k v,
        k <> c_name cls ->
        dict_get root_types k = Some v -> dict_get defs k = Some v.
Proof.
  intros env fuel cls root_types schema defs H.
  destruct (proj2 (resolver_appends env fuel) _ _ _ _ H)
    as (props & required & extra & -> & ->).
  split; [apply dict_get_set_eq|].
  intros k v N G. rewrite dict_get_set_neq by exact N. now apply dict_get_app.
Qed.

Lemma compile_replaces_own_name_only_witness :
  exists schema defs,
    dataclass_to_openapi_schema [] 3 RequiredExample.AB
      [("Known", JDict []); ("AB", JDict [("stale", JNone)])]
    = Ok (schema, defs)
    /\ dict_get defs "AB" = Some schema
    /\ dict_get defs "Known" = Some (JDict []).
Proof.
  destruct (dataclass_to_openapi_schema [] 3 RequiredExample.AB
              [("Known", JDict []); ("AB", JDict [("stale", JNone)])])
    as [[schema defs]| |] eqn:E; try (vm_compute in E; discriminate).
  destruct (@compile_replaces_own_name_only _ _ _ _ _ _ E) as [A B].
  exists schema, defs. split; [reflexivity|]. split; [exact A|].
  apply B; [discriminate | reflexivity].
Defined.


(** ** The fragment of a type *)

Lemma filter_fragments env targs :
  filter (fun p : bool * json => negb (fst p))
    (List.map (fun a => (is_NoneType a, fragment env a)) targs)
  = List.map (fun a => (is_NoneType a, fragment env a))
      (filter (fun a => negb (is_NoneType a)) targs).
Proof.
  induction targs as [|a targs IH]; [reflexivity|].
  cbn [List.map filter fst].
  destruct (is_NoneType a) eqn:E; cbn [negb List.map]; rewrite ?E, IH;
    reflexivity.
Qed.

Lemma resolve_each_fragments env (f : resolver) :
  forall args,
    (forall a known_defs schema defs,
        In a args -> f a known_defs = Ok (schema, defs) ->
        schema = fragment env a) ->
    forall known_defs schemas defs,
      resolve_each f args known_defs = Ok (schemas, defs) ->
      schemas = List.map (fragment env) args.
Proof.
  induction args as [|a args IH]; simpl; intros F kd ss defs H.
  - now injection H as <- <-.
  - destruct (f a kd) as [[s d1]| |] eqn:E; simpl in H; try discriminate.
    destruct (resolve_each f args d1) as [[ss' d2]| |] eqn:E2; simpl in H;
      try discriminate.
    injection H as <- <-. f_equal.
    + eapply F; eauto.
    + eapply IH; eauto.
Qed.

Lemma resolved_fragment env :
  forall fuel t known_defs schema defs,
    type_to_schema env fuel t known_defs = Ok (schema, defs) ->
    schema = fragment env t.
Proof.
  induction fuel as [|fuel IH]; intros t kd s d H; [discriminate|].
  destruct t; simpl in H; try (now injection H as <- <-).
  - cbn [fragment]. rewrite filter_fragments.
    destruct (filter (fun a => negb (is_NoneType a)) args) as [|a [|b rest]] eqn:E.
    + now injection H as <- <-.
    + simpl. eapply IH; eauto.
    + destruct (resolve_each (type_to_schema env fuel) (a :: b :: rest) kd)
        as [[ss d1]| |] eqn:R; simpl in H; try discriminate.
      injection H as <- <-.
      apply (@resolve_each_fragments env) in R; [|intros; eapply IH; eauto].
      subst ss. cbn [List.map snd]. now rewrite !map_map.
  - destruct args as [|item ?]; [discriminate|].
    destruct (type_to_schema env fuel item kd) as [[s1 d1]| |] eqn:E;
      simpl in H; try discriminate.
    injection H as <- <-. simpl. now rewrite (IH _ _ _ _ E).
  - simpl. destruct (lookup_class env c) as [cls|]; [|now injection H as <- <-].
    destruct (c_dataclass cls); [|now injection H as <- <-].
    destruct (negb (dict_mem kd (c_name cls))); [|now injection H as <- <-].
    destruct (dataclass_to_openapi_schema env fuel cls kd) as [[s1 d1]| |];
      simpl in H; try discriminate.
    now injection H as <- <-.
Qed.

(** X6. The fragment [type_to_schema] returns is a function of the type
    and of the class table: it is [fragment env t] whatever the registry
    holds. *)
Theorem fragment_ignores_registry :
  forall env fuel t known_defs schema defs,
    type_to_schema env fuel t known_defs = Ok (schema, defs) ->
    schema = fragment env t.
Proof. intros env. exact (@resolved_fragment env). Qed.

Lemma fragment_ignores_registry_witness :
  type_to_schema Example.classes 5
    (TUnion [TList [TClass "PathParameters"]; TNoneType]) []
  = Ok (JDict [("type", JStr "array");
               ("items",
                JDict [("$ref", JStr "#/components/schemas/PathParameters")])],
        [("PathParameters",
          JDict [("type", JStr "object");
                 ("properties", JDict [("userId", JDict [("type", JStr "string")])]);
                 ("required", JList [JStr "userId"])])])
  /\ JDict [("type", JStr "array");
            ("items",
             JDict [("$ref", JStr "#/components/schemas/PathParameters")])]
     = fragment Example.classes
         (TUnion [TList [TClass "PathParameters"]; TNoneType]).
Proof.
  split; [reflexivity|].
  exact (@fragment_ignores_registry Example.classes 5
           (TUnion [TList [TClass "PathParameters"]; TNoneType]) [] _ _ eq_refl).
Defined.

(** ** Resolving a type again *)

Lemma resolve_each_top_names env (f : resolver) :
  appends f ->
  forall args,
    (forall a known_defs schema defs,
        In a args -> f a known_defs = Ok (schema, defs) ->
        forall n, In n (top_names env a) -> dict_mem defs n = true) ->
    forall known_defs schemas defs,
      resolve_each f args known_defs = Ok (schemas, defs) ->
      forall a n, In a args -> In n (top_names env a) -> dict_mem defs n = true.
Proof.
  intros A. induction args as [|a args IH]; simpl; intros F kd ss defs H b n Hb Hn;
    [destruct Hb|].
  destruct (f a kd) as [[s d1]| |] eqn:E; simpl in H; try discriminate.
  destruct (resolve_each f args d1) as [[ss' d2]| |] eqn:E2; simpl in H;
    try discriminate.
  injection H as <- <-.
  destruct Hb as [<-|Hb].
  - destruct (@resolve_each_appends f A _ _ _ _ E2) as [extra ->].
    apply dict_mem_app. eapply F; eauto.
  - eapply IH; eauto.
Qed.

Lemma top_names_registered env :
  forall fuel t known_defs schema defs,
    type_to_schema env fuel t known_defs = Ok (schema, defs) ->
    forall n, In n (top_names env t) -> dict_mem defs n = true.
Proof.
  induction fuel as [|fuel IH]; intros t kd s d H n Hn; [discriminate|].
  destruct t; simpl in H, Hn; try (now destruct Hn).
  - apply in_flat_map in Hn as (b & Hb & Hn).
    assert (Hf : In b (filter (fun a => negb (is_NoneType a)) args)).
    { apply filter_In. split; [exact Hb|]. now destruct b. }
    destruct (filter (fun a => negb (is_NoneType a)) args) as [|a [|c rest]] eqn:E.
    + destruct Hf.
    + destruct Hf as [<-|[]]. eapply IH; eauto.
    + destruct (resolve_each (type_to_schema env fuel) (a :: c :: rest) kd)
        as [[ss d1]| |] eqn:R; simpl in H; try discriminate.
      injection H as <- <-.
      eapply (@resolve_each_top_names env _ (proj1 (resolver_appends env fuel)));
        [| exact R | exact Hf | exact Hn].
      intros; eapply IH; eauto.
  - destruct args as [|item ?]; [destruct Hn|].
    destruct (type_to_schema env fuel item kd) as [[s1 d1]| |] eqn:E;
      simpl in H; try discriminate.
    injection H as <- <-. eapply IH; eauto.
  - destruct (lookup_class env c) as [cls|]; [|destruct Hn].
    destruct (c_dataclass cls); [|destruct Hn].
    destruct Hn as [<-|[]].
    destruct (dict_mem kd (c_name cls)) eqn:M; simpl in H.
    + now injection H as <- <-.
    + destruct (dataclass_to_openapi_schema env fuel cls kd) as [[s1 d1]| |];
        simpl in H; try discriminate.
      injection H as <- <-. rewrite dict_mem_set, String.eqb_refl. reflexivity.
Qed.

Lemma resolve_each_again (f : resolver) env registry :
  forall args,
    (forall a known_defs schema defs,
        In a args -> f a known_defs = Ok (schema, defs) ->
        (forall n, In n (top_names env a) -> dict_mem registry n = true) ->
        f a registry = Ok (schema, registry)) ->
    forall known_defs schemas defs,
      resolve_each f args known_defs = Ok (schemas, defs) ->
      (forall a n, In a args -> In n (top_names env a) ->
                   dict_mem registry n = true) ->
      resolve_each f args registry = Ok (schemas, registry).
Proof.
  induction args as [|a args IH]; simpl; intros F kd ss defs H R.
  - now injection H as <- <-.
  - destruct (f a kd) as [[s d1]| |] eqn:E; simpl in H; try discriminate.
    destruct (resolve_each f args d1) as [[ss' d2]| |] eqn:E2; simpl in H;
      try discriminate.
    injection H as <- <-.
    rewrite (F a kd s d1 (or_introl eq_refl) E (fun n => R a n (or_introl eq_refl))).
    simpl. rewrite (IH (fun b kd' s' d' Hb => F b kd' s' d' (or_intror Hb))
                      _ _ _ E2 (fun b n Hb => R b n (or_intror Hb))).
    reflexivity.
Qed.

Lemma resolve_in_registered env :
  forall fuel t known_defs schema defs registry,
    type_to_schema env fuel t known_defs = Ok (schema, defs) ->
    (forall n, In n (top_names env t) -> dict_mem registry n = true) ->
    type_to_schema env fuel t registry = Ok (schema, registry).
Proof.
  induction fuel as [|fuel IH]; intros t kd s d reg H R; [discriminate|].
  destruct t; simpl in H |- *; try (now injection H as <- <-).
  - assert (Rf : forall a n,
               In a (filter (fun a => negb (is_NoneType a)) args) ->
               In n (top_names env a) -> dict_mem reg n = true).
    { intros a n Ha Hn. apply R. simpl. apply in_flat_map. exists a.
      apply filter_In in Ha. tauto. }
    destruct (filter (fun a => negb (is_NoneType a)) args) as [|a [|c rest]] eqn:E.
    + now injection H as <- <-.
    + eapply IH; [exact H|]. intros n Hn. apply (Rf a n); [now left|exact Hn].
    + destruct (resolve_each (type_to_schema env fuel) (a :: c :: rest) kd)
        as [[ss d1]| |] eqn:Q; simpl in H; try discriminate.
      injection H as <- <-.
      erewrite (@resolve_each_again _ env reg); [reflexivity| | exact Q | exact Rf].
      intros; eapply IH; eauto.
  - destruct args as [|item ?]; [discriminate|].
    destruct (type_to_schema env fuel item kd) as [[s1 d1]| |] eqn:E;
      simpl in H; try discriminate.
    injection H as <- <-. now rewrite (IH _ _ _ _ reg E R).
  - simpl in R. destruct (lookup_class env c) as [cls|]; [|now injection H as <- <-].
    destruct (c_dataclass cls); [|now injection H as <- <-].
    rewrite (R (c_name cls) (or_introl eq_refl)). simpl.
    destruct (negb (dict_mem kd (c_name cls))); [|now injection H as <- <-].
    destruct (dataclass_to_openapi_schema env fuel cls kd) as [[s1 d1]| |];
      simpl in H; try discriminate.
    now injection H as <- <-.
Qed.

(** X7. Resolving a type again, in the registry the first resolution
    left, returns the same fragment and leaves that registry as it is: a
    record is compiled once. *)
Theorem resolving_again_changes_nothing :
  forall env fuel t known_defs schema defs,
    type_to_schema env fuel t known_defs = Ok (schema, defs) ->
    type_to_schema env fuel t defs = Ok (schema, defs).
Proof.
  intros env fuel t known_defs schema defs H.
  eapply resolve_in_registered; [exact H|].
  intros n Hn. eapply top_names_registered; eauto.
Qed.

Lemma resolving_again_changes_nothing_witness :
  exists schema defs,
    type_to_schema Example.classes 5
      (TUnion [TClass "QueryStringParametersUser";
               TClass "QueryStringParametersOrganization"]) []
    = Ok (schema, defs)
    /\ type_to_schema Example.classes 5
         (TUnion [TClass "QueryStringParametersUser";
                  TClass "QueryStringParametersOrganization"]) defs
       = Ok (schema, defs)
    /\ dict_keys defs
       = ["QueryStringParametersUser"; "QueryStringParametersOrganization"].
Proof.
  destruct (type_to_schema Example.classes 5
              (TUnion [TClass "QueryStringParametersUser";
                       TClass "QueryStringParametersOrganization"]) [])
    as [[schema defs]| |] eqn:E; try (vm_compute in E; discriminate).
  exists schema, defs. split; [reflexivity|]. split.
  - exact (@resolving_again_changes_nothing _ _ _ _ _ _ E).
  - vm_compute in E. injection E as <- <-. reflexivity.
Defined.


(** ** The properties of a compiled record *)

Lemma dict_keys_set_new (V : Type) (d : dict V) k v :
  ~ In k (dict_keys d) -> dict_keys (dict_set d k v) = dict_keys d ++ [k].
Proof.
  intros N. rewrite dict_set_new by now apply dict_get_None_keys.
  unfold dict_keys. now rewrite map_app.
Qed.

Lemma fields_loop_keys (f : resolver) :
  forall fields props required root_types props' required' defs,
    fields_loop f fields props required root_types
    = Ok (props', required', defs) ->
    NoDup (dict_keys props
           ++ List.map f_name (filter public_field fields)) ->
    dict_keys props'
    = dict_keys props ++ List.map f_name (filter public_field fields).
Proof.
  induction fields as [|fd fields IH]; simpl;
    intros props required rt props' required' defs H N.
  - injection H as <- <- <-. now rewrite app_nil_r.
  - unfold public_field at 1 in N. unfold public_field at 1.
    destruct (Str.startswith "_" (f_name fd)); simpl in *; [eauto|].
    destruct (f (f_type fd) rt) as [[s d1]| |] eqn:E; simpl in H;
      try discriminate.
    assert (Nk : ~ In (f_name fd) (dict_keys props)).
    { intros I. apply NoDup_remove_2 in N. apply N, in_or_app. now left. }
    apply IH in H.
    + rewrite H, (@dict_keys_set_new _ props (f_name fd) s Nk), <- app_assoc.
      reflexivity.
    + rewrite (@dict_keys_set_new _ props (f_name fd) s Nk), <- app_assoc.
      exact N.
Qed.

(** X8. For a record whose field names are distinct, the [properties] of
    the compiled schema are keyed by the names of the fields without a
    leading underscore, all of them and in declaration order; an
    internal field is never a property. *)
Theorem properties_are_public_fields :
  forall env fuel cls root_types schema defs,
    dataclass_to_openapi_schema env fuel cls root_types = Ok (schema, defs) ->
    NoDup (List.map f_name (c_body cls)) ->
    exists props,
      json_getitem schema "properties" = Ok (JDict props)
      /\ dict_keys props = List.map f_name (filter public_field (c_body cls))
      /\ forall fd, In fd (c_body cls) ->
                    Str.startswith "_" (f_name fd) = true ->
                    dict_mem props (f_name fd) = false.
Proof.
  intros env fuel cls root_types schema defs H N.
  apply dataclass_to_openapi_schema_inv in H
    as (fuel' & fields & props & required & rt & -> & F & L & -> & _).
  assert (Ef : List.map f_name (filter public_field fields)
               = List.map f_name (filter public_field (c_body cls))).
  { unfold dataclass_fields in F. destruct (c_dataclass cls); [|discriminate].
    injection F as <-. clear.
    induction (c_body cls) as [|fd body IH]; [reflexivity|].
    cbn [List.map filter].
    change (public_field (dataclass_field cls fd)) with (public_field fd).
    destruct (public_field fd); cbn [List.map]; now rewrite IH. }
  assert (Nf : NoDup (List.map f_name (filter public_field (c_body cls)))).
  { clear - N. induction (c_body cls) as [|fd body IH]; [constructor|].
    simpl in *. inversion N as [|? ? Hn Hd]; subst.
    destruct (public_field fd); simpl; [|auto].
    constructor; [|auto]. intros I. apply Hn.
    apply in_map_iff in I as (g & E & G). apply filter_In in G as [G _].
    rewrite <- E. now apply in_map. }
  apply fields_loop_keys in L; [|simpl; now rewrite Ef].
  simpl in L. rewrite Ef in L.
  exists props. split; [|split; [exact L|]].
  - unfold object_schema. now destruct required.
  - intros fd Hfd I. destruct (dict_mem props (f_name fd)) eqn:M; [|reflexivity].
    apply dict_mem_keys in M. rewrite L in M.
    apply in_map_iff in M as (g & E & G). apply filter_In in G as [_ G].
    unfold public_field in G. rewrite E, I in G. discriminate.
Qed.

Lemma properties_are_public_fields_witness :
  exists schema defs props,
    dataclass_to_openapi_schema Example.classes 3 Example.OutputBody []
    = Ok (schema, defs)
    /\ json_getitem schema "properties" = Ok (JDict props)
    /\ dict_keys props = ["code"; "message"; "response"]
    /\ dict_mem props "_contentType" = false.
Proof.
  destruct (dataclass_to_openapi_schema Example.classes 3 Example.OutputBody [])
    as [[schema defs]| |] eqn:E; try (vm_compute in E; discriminate).
  assert (N : NoDup (List.map f_name (c_body Example.OutputBody))).
  { simpl. repeat (constructor; [simpl; intuition discriminate|]). constructor. }
  destruct (@properties_are_public_fields _ _ _ _ _ _ E N)
    as (props & G & K & I).
  exists schema, defs, props. split; [reflexivity|]. split; [exact G|].
  split; [exact K|].
  apply (I {| f_name := "_contentType"; f_type := TStr;
              f_default := PStr "application/json" |});
    [simpl; tauto | reflexivity].
Defined.

(** ** What the resolver raises *)

Lemma resolve_each_raises (f : resolver) e0 :
  forall args,
    (forall a known_defs e, In a args -> f a known_defs = Raise e -> e = e0) ->
    forall known_defs e,
      resolve_each f args known_defs = Raise e -> e = e0.
Proof.
  induction args as [|a args IH]; simpl; intros F kd e H; [discriminate|].
  destruct (f a kd) as [[s d1]| |] eqn:E; simpl in H; try discriminate.
  - destruct (resolve_each f args d1) as [[ss' d2]| |] eqn:E2; simpl in H;
      try discriminate.
    injection H as <-. eapply IH; eauto.
  - injection H as <-. eapply F; eauto.
Qed.

Lemma fields_loop_raises (f : resolver) e0 :
  forall fields,
    (forall fd known_defs e,
        In fd fields -> f (f_type fd) known_defs = Raise e -> e = e0) ->
    forall props required root_types e,
      fields_loop f fields props required root_types = Raise e -> e = e0.
Proof.
  induction fields as [|fd fields IH]; simpl; intros F props required rt e H;
    [discriminate|].
  destruct (Str.startswith "_" (f_name fd)); [eapply IH; eauto|].
  destruct (f (f_type fd) rt) as [[s d1]| |] eqn:E; simpl in H;
    try discriminate.
  - eapply IH; eauto.
  - injection H as <-. eapply F; eauto.
Qed.

(** The exceptions of the resolver, the exhaustion of the interpreter's
    stack apart (it is the model's [OutOfFuel]). *)
Lemma resolver_raise_kinds :
  forall env fuel,
    (forall t known_defs e,
        type_to_schema env fuel t known_defs = Raise e -> e = IndexError)
    /\ (forall cls root_types e,
           dataclass_to_openapi_schema env fuel cls root_types = Raise e ->
           (c_dataclass cls = true /\ e = IndexError)
           \/ (c_dataclass cls = false
               /\ e = TypeError
                        "must be called with a dataclass type or instance")).
Proof.
  intros env. induction fuel as [|fuel [IHt IHc]];
    (split; [intros t kd e H | intros cls rt e H]); try discriminate.
  - destruct t; simpl in H; try discriminate.
    + destruct (filter (fun a => negb (is_NoneType a)) args) as [|a [|b rest]].
      * discriminate.
      * eapply IHt; eauto.
      * destruct (resolve_each (type_to_schema env fuel) (a :: b :: rest) kd)
          as [[ss d1]| |] eqn:R; simpl in H; try discriminate.
        injection H as <-. eapply resolve_each_raises; [|exact R].
        intros; eapply IHt; eauto.
    + destruct args as [|item ?]; [now injection H as <-|].
      destruct (type_to_schema env fuel item kd) as [[s1 d1]| |] eqn:E;
        simpl in H; try discriminate.
      injection H as <-. eapply IHt; eauto.
    + destruct (lookup_class env c) as [cls|]; [|discriminate].
      destruct (c_dataclass cls) eqn:D; [|discriminate].
      destruct (negb (dict_mem kd (c_name cls))); [|discriminate].
      destruct (dataclass_to_openapi_schema env fuel cls kd) as [[s1 d1]| |] eqn:E;
        simpl in H; try discriminate.
      injection H as <-. destruct (IHc _ _ _ E) as [[_ ?]|[D' _]]; congruence.
  - simpl in H. unfold dataclass_fields in H.
    destruct (c_dataclass cls); simpl in H.
    + left. split; [reflexivity|].
      destruct (fields_loop (type_to_schema env fuel)
                  (List.map (dataclass_field cls) (c_body cls)) [] [] rt)
        as [[[? ?] ?]| |] eqn:L; simpl in H; try discriminate.
      injection H as <-. eapply fields_loop_raises; [|exact L].
      intros; eapply IHt; eauto.
    + right. split; [reflexivity|]. now injection H as <-.
Qed.

Lemma resolve_each_no_raise (f : resolver) :
  forall args,
    (forall a known_defs e, In a args -> f a known_defs <> Raise e) ->
    forall known_defs e, resolve_each f args known_defs <> Raise e.
Proof.
  induction args as [|a args IH]; simpl; intros F kd e H; [discriminate|].
  destruct (f a kd) as [[s d1]| |] eqn:E; simpl in H; try discriminate.
  - destruct (resolve_each f args d1) as [[ss' d2]| |] eqn:E2; simpl in H;
      try discriminate.
    eapply IH; eauto.
  - eapply F; eauto.
Qed.

Lemma fields_loop_no_raise (f : resolver) :
  forall fields,
    (forall fd known_defs e,
        In fd fields -> f (f_type fd) known_defs <> Raise e) ->
    forall props required root_types e,
      fields_loop f fields props required root_types <> Raise e.
Proof.
  induction fields as [|fd fields IH]; simpl; intros F props required rt e H;
    [discriminate|].
  destruct (Str.startswith "_" (f_name fd)); [eapply IH; eauto|].
  destruct (f (f_type fd) rt) as [[s d1]| |] eqn:E; simpl in H;
    try discriminate.
  - eapply IH; eauto.
  - eapply F; eauto.
Qed.

Lemma resolver_no_raise env :
  table_no_bare_list env ->
  forall fuel t known_defs e,
    no_bare_list t = true ->
    type_to_schema env fuel t known_defs <> Raise e.
Proof.
  intros T. induction fuel as [|fuel IH]; intros t kd e B H; [discriminate|].
  destruct t; simpl in H, B; try discriminate.
  - assert (Bf : forall a, In a (filter (fun a => negb (is_NoneType a)) args) ->
                           no_bare_list a = true).
    { intros a Ha. apply filter_In in Ha as [Ha _].
      rewrite forallb_forall in B. auto. }
    destruct (filter (fun a => negb (is_NoneType a)) args) as [|a [|b rest]].
    + discriminate.
    + eapply IH; [|exact H]. apply Bf. now left.
    + destruct (resolve_each (type_to_schema env fuel) (a :: b :: rest) kd)
        as [[ss d1]| |] eqn:R; simpl in H; try discriminate.
      eapply resolve_each_no_raise; [|exact R].
      intros x kd' e' Hx. apply IH. now apply Bf.
  - destruct args as [|item ?]; [discriminate|].
    destruct (type_to_schema env fuel item kd) as [[s1 d1]| |] eqn:E;
      simpl in H; try discriminate.
    eapply IH; eauto.
  - destruct (lookup_class env c) as [cls|] eqn:Lk; [|discriminate].
    destruct (c_dataclass cls) eqn:D; [|discriminate].
    destruct (negb (dict_mem kd (c_name cls))); [|discriminate].
    destruct (dataclass_to_openapi_schema env fuel cls kd) as [[s1 d1]| |] eqn:E;
      simpl in H; try discriminate.
    destruct fuel as [|fuel']; [discriminate|]. simpl in E.
    unfold dataclass_fields in E. rewrite D in E. simpl in E.
    destruct (fields_loop (type_to_schema env fuel')
                (List.map (dataclass_field cls) (c_body cls)) [] [] kd)
      as [[[? ?] ?]| |] eqn:L; simpl in E; try discriminate.
    eapply fields_loop_no_raise; [|exact L].
    intros fd kd' e' Hfd Hr.
    apply in_map_iff in Hfd as (fd0 & <- & Hfd0). simpl in Hr.
    assert (M : fuel' <= S fuel') by lia.
    pose proof (@type_to_schema_mono env _ _ (f_type fd0) kd' M) as R.
    unfold refines in R. rewrite Hr in R. specialize (R ltac:(discriminate)).
    eapply IH; [|exact R]. eapply T; eauto.
Qed.

(** X10. On a class table without reference cycles and without a [List]
    lacking its item type, the resolver returns for every such type:
    from some fuel on it yields a fragment and a registry, whatever the
    registry it starts from. *)
Theorem resolver_returns_on_acyclic_tables :
  forall env rank t,
    acyclic env rank ->
    table_no_bare_list env ->
    no_bare_list t = true ->
    exists F,
    forall fuel known_defs,
      F <= fuel ->
      exists defs,
        type_to_schema env fuel t known_defs = Ok (fragment env t, defs).
Proof.
  intros env rank t A T B.
  destruct (acyclic_settles A t) as [F HF].
  exists F. intros fuel known_defs L.
  destruct (type_to_schema env fuel t known_defs) as [[s d]| |] eqn:E.
  - exists d. now rewrite (@resolved_fragment _ _ _ _ _ _ E).
  - exfalso. exact (@resolver_no_raise env T fuel t known_defs e B E).
  - exfalso. exact (HF fuel known_defs L E).
Qed.


Lemma example_no_bare_list : table_no_bare_list Example.classes.
Proof.
  intros cid cls fd L Hfd.
  unfold lookup_class, Example.classes in L. cbn [dict_get] in L.
  repeat match type of L with
         | (if String.eqb cid ?k then _ else _) = _ =>
             destruct (String.eqb_spec cid k) as [->|_];
             [injection L as <-; simpl in Hfd;
              repeat (destruct Hfd as [<-|Hfd]; [reflexivity|]);
              destruct Hfd |]
         end.
  discriminate.
Qed.

Lemma resolver_returns_on_acyclic_tables_witness :
  acyclic Example.classes example_rank
  /\ table_no_bare_list Example.classes
  /\ exists F,
      forall fuel known_defs,
        F <= fuel ->
        exists defs,
          type_to_schema Example.classes fuel (TClass "RequestSchema") known_defs
          = Ok (fragment Example.classes (TClass "RequestSchema"), defs).
Proof.
  split; [exact example_acyclic|]. split; [exact example_no_bare_list|].
  exact (@resolver_returns_on_acyclic_tables Example.classes example_rank
           (TClass "RequestSchema") example_acyclic example_no_bare_list
           eq_refl).
Defined.

Lemma record_compiler_settles env rank cls :
  acyclic env rank ->
  exists F,
    forall fuel root_types,
      F <= fuel ->
      dataclass_to_openapi_schema env fuel cls root_types <> OutOfFuel.
Proof.
  intros A.
  assert (each : forall a,
             In a (List.map f_type (List.map (dataclass_field cls) (c_body cls))) ->
             exists F, settles env F a)
    by (intros a _; exact (acyclic_settles A a)).
  destruct (@settles_all env _ each) as [F HF].
  exists (S F). intros [|fuel] rt L; [lia|].
  cbn [dataclass_to_openapi_schema]. unfold dataclass_fields.
  destruct (c_dataclass cls); [|discriminate]. cbn [bind].
  assert (T : fields_loop (type_to_schema env fuel)
                (List.map (dataclass_field cls) (c_body cls)) [] [] rt
              <> OutOfFuel).
  { apply fields_loop_total. intros fd Hfd kd.
    apply (HF (f_type fd)); [now apply in_map | lia]. }
  destruct (fields_loop _ _ _ _ _) as [[[? ?] ?]| |]; simpl;
    [discriminate | discriminate | congruence].
Qed.

(** X9. On a class table without reference cycles the resolver ends in
    one of two ways, for every type and every registry: it returns, or
    it raises the [IndexError] of a [List] without item type.
    [dataclass_to_openapi_schema] ends likewise on a dataclass, and on a
    class that is no dataclass with the [TypeError] of
    [dataclasses.fields]. *)
Theorem resolver_raises_index_error_only :
  forall env rank,
    acyclic env rank ->
    (forall t,
      exists F,
        forall fuel known_defs,
          F <= fuel ->
          (exists r, type_to_schema env fuel t known_defs = Ok r)
          \/ type_to_schema env fuel t known_defs = Raise IndexError)
    /\ (forall cls,
          exists F,
            forall fuel root_types,
              F <= fuel ->
              (exists r,
                  dataclass_to_openapi_schema env fuel cls root_types = Ok r)
              \/ (c_dataclass cls = true
                  /\ dataclass_to_openapi_schema env fuel cls root_types
                     = Raise IndexError)
              \/ (c_dataclass cls = false
                  /\ dataclass_to_openapi_schema env fuel cls root_types
                     = Raise (TypeError
                                "must be called with a dataclass type or instance"))).
Proof.
  intros env rank A. split.
  - intros t. destruct (acyclic_settles A t) as [F HF]. exists F.
    intros fuel kd L. specialize (HF fuel kd L).
    destruct (type_to_schema env fuel t kd) as [r|e|] eqn:E.
    + left. now exists r.
    + right. f_equal. exact (proj1 (resolver_raise_kinds env fuel) t kd e E).
    + congruence.
  - intros cls. destruct (record_compiler_settles cls A) as [F HF]. exists F.
    intros fuel rt L. specialize (HF fuel rt L).
    destruct (dataclass_to_openapi_schema env fuel cls rt) as [r|e|] eqn:E.
    + left. now exists r.
    + right.
      destruct (proj2 (resolver_raise_kinds env fuel) cls rt e E)
        as [[D ->]|[D ->]]; [left | right]; now split.
    + congruence.
Qed.

Lemma resolver_raises_index_error_only_witness :
  acyclic Example.classes example_rank
  /\ (exists F,
        forall fuel known_defs,
          F <= fuel ->
          (exists r,
              type_to_schema Example.classes fuel (TUnion [TList []; TNoneType])
                known_defs = Ok r)
          \/ type_to_schema Example.classes fuel (TUnion [TList []; TNoneType])
               known_defs = Raise IndexError)
  /\ type_to_schema Example.classes 2 (TUnion [TList []; TNoneType]) []
     = Raise IndexError
  /\ type_to_schema Example.classes 5 (TClass "RequestSchema") []
     <> Raise IndexError.
Proof.
  split; [exact example_acyclic|]. split; [|split; [reflexivity|]].
  - exact (proj1 (resolver_raises_index_error_only example_acyclic)
             (TUnion [TList []; TNoneType])).
  - vm_compute. discriminate.
Defined.

(** ** Paths and method entries *)

Lemma get_method_set_other ps p m entry p' m' :
  p' <> p \/ m' <> m ->
  get_method (set_method ps p m entry) p' m' = get_method ps p' m'.
Proof.
  unfold get_method, set_method. intros N.
  destruct (dict_get ps p) as [item|] eqn:G; [|reflexivity].
  rewrite dict_get_set. destruct (String.eqb_spec p' p) as [->|]; [|reflexivity].
  rewrite G. destruct N as [N|N]; [congruence|].
  now apply dict_get_set_neq.
Qed.

Lemma get_method_addPath p ps p' m' :
  get_method (addPath p ps) p' m' = get_method ps p' m'.
Proof.
  unfold addPath, get_method, dict_mem.
  destruct (dict_get ps p) as [item|] eqn:G; simpl; [reflexivity|].
  rewrite dict_get_set. destruct (String.eqb_spec p' p) as [->|]; [|reflexivity].
  now rewrite G.
Qed.

(** X11. Processing an endpoint changes no method entry but its own:
    every entry under another path, or under the same path and another
    (lower-cased) method, is what it was. *)
Theorem other_method_entries_unchanged :
  forall env fuel to_camel_case service st st' p m,
    process_service env fuel to_camel_case service st = Ok st' ->
    p <> normalized_path service \/ m <> Str.lower (httpMethod service) ->
    get_method (paths (ls_doc st')) p m = get_method (paths (ls_doc st)) p m.
Proof.
  intros env fuel to_camel_case service st st' p m H N.
  apply process_service_inv in H
    as (inputSchema & outputSchema & d & registry & x1 & x2 & registry2 & key
        & info & registry3 & responses & _ & _ & _ & _ & _ & _ & _ & _ & _ & ->).
  simpl. rewrite !get_method_set_other by exact N. apply get_method_addPath.
Qed.

Lemma other_method_entries_unchanged_witness :
  exists st1 st2,
    process_service Example.classes 5 true Example.endpoint_config
      TwoEndpoints.start = Ok st1
    /\ process_service Example.classes 5 true TwoEndpoints.same_path st1 = Ok st2
    /\ get_method (paths (ls_doc st2)) "/world/{userId}" "get"
       = get_method (paths (ls_doc st1)) "/world/{userId}" "get"
    /\ exists entry,
        get_method (paths (ls_doc st1)) "/world/{userId}" "get" = Some entry.
Proof.
  destruct (process_service Example.classes 5 true Example.endpoint_config
              TwoEndpoints.start) as [st1| |] eqn:E1;
    try (vm_compute in E1; discriminate).
  destruct (process_service Example.classes 5 true TwoEndpoints.same_path st1)
    as [st2| |] eqn:E2.
  - exists st1, st2. split; [reflexivity|]. split; [exact E2|]. split.
    + apply (@other_method_entries_unchanged Example.classes 5 true
               TwoEndpoints.same_path st1 st2 "/world/{userId}" "get" E2).
      right. discriminate.
    + vm_compute in E1. injection E1 as <-. eexists. reflexivity.
  - exfalso. vm_compute in E1. injection E1 as <-. vm_compute in E2. discriminate.
  - exfalso. vm_compute in E1. injection E1 as <-. vm_compute in E2. discriminate.
Defined.

Lemma normalized_path_slash service :
  Str.startswith "/" (normalized_path service) = true.
Proof.
  unfold normalized_path.
  destruct (Str.startswith "/" (httpPath service)) eqn:E; [exact E|].
  unfold Str.startswith. simpl.
  destruct (Ascii.ascii_dec "/" "/") as [_|N]; [|now destruct N].
  now destruct (httpPath service).
Qed.

Lemma set_method_keys ps p m entry k :
  In k (dict_keys (set_method ps p m entry)) <-> In k (dict_keys ps).
Proof.
  unfold set_method. destruct (dict_get ps p) as [item|] eqn:G; [|tauto].
  rewrite dict_keys_set. split; [|tauto].
  intros [->|I]; [|exact I]. apply dict_mem_keys. unfold dict_mem. now rewrite G.
Qed.

Lemma addPath_keys p ps k :
  In k (dict_keys (addPath p ps)) <-> k = p \/ In k (dict_keys ps).
Proof.
  unfold addPath. destruct (dict_mem ps p) eqn:M; simpl.
  - split; [tauto|]. intros [->|I]; [now apply dict_mem_keys | exact I].
  - apply dict_keys_set.
Qed.

Lemma process_service_path_keys env fuel to_camel_case service st st' k :
  process_service env fuel to_camel_case service st = Ok st' ->
  In k (dict_keys (paths (ls_doc st')))
  <-> k = normalized_path service \/ In k (dict_keys (paths (ls_doc st))).
Proof.
  intros H.
  apply process_service_inv in H
    as (inputSchema & outputSchema & d & registry & x1 & x2 & registry2 & key
        & info & registry3 & responses & _ & _ & _ & _ & _ & _ & _ & _ & _ & ->).
  simpl. rewrite !set_method_keys. apply addPath_keys.
Qed.

(** X12. Path items are only added: after [process_services] has run
    over a list of endpoints, the document has a path item for every
    endpoint of the list, every key it had before is still there, and if
    the keys it had started with a slash so do all its keys. *)
Theorem paths_are_added_with_a_slash :
  forall env fuel to_camel_case services_info st st',
    services_loop env fuel to_camel_case services_info st = Ok st' ->
    (forall service, In service services_info ->
                     In (normalized_path service)
                        (dict_keys (paths (ls_doc st'))))
    /\ (forall p, In p (dict_keys (paths (ls_doc st))) ->
                  In p (dict_keys (paths (ls_doc st'))))
    /\ (slash_keys (paths (ls_doc st)) -> slash_keys (paths (ls_doc st'))).
Proof.
  intros env fuel to_camel_case.
  induction services_info as [|service rest IH]; simpl; intros st st' H.
  - injection H as <-. split; [intros ? []|]. split; auto.
  - destruct (process_service env fuel to_camel_case service st) as [st1| |] eqn:E;
      simpl in H; try discriminate.
    destruct (IH _ _ H) as (A & B & C).
    pose proof (fun k => @process_service_path_keys _ _ _ _ _ _ k E) as K.
    split; [|split].
    + intros sv [<-|I]; [|auto]. apply B, K. now left.
    + intros p I. apply B, K. now right.
    + intros S. apply C. intros p I. apply K in I as [->|I];
        [apply normalized_path_slash | auto].
Qed.

Lemma paths_are_added_with_a_slash_witness :
  exists st',
    services_loop Example.classes 5 true
      [Example.endpoint_config; TwoEndpoints.second] TwoEndpoints.start = Ok st'
    /\ In "/world/{userId}" (dict_keys (paths (ls_doc st')))
    /\ In "/users/{userId}" (dict_keys (paths (ls_doc st')))
    /\ slash_keys (paths (ls_doc st')).
Proof.
  destruct (services_loop Example.classes 5 true
              [Example.endpoint_config; TwoEndpoints.second] TwoEndpoints.start)
    as [st'| |] eqn:E; try (vm_compute in E; discriminate).
  destruct (@paths_are_added_with_a_slash _ _ _ _ _ _ E) as (A & _ & C).
  exists st'. split; [reflexivity|]. split; [|split].
  - apply (A Example.endpoint_config). now left.
  - apply (A TwoEndpoints.second). right. now left.
  - apply C. intros p [].
Defined.

(** ** Parameter references *)

Lemma references_backed_add x k v :
  references_backed x ->
  references_backed
    {| x_schemas := x_schemas x;
       x_parameters := dict_set (x_parameters x) k v;
       x_method_parameters := x_method_parameters x ++ [parameter_ref k] |}.
Proof.
  intros B r I. simpl in *. apply in_app_or in I as [I|[<-|[]]].
  - destruct (B r I) as (k' & -> & M). exists k'. split; [reflexivity|].
    rewrite dict_mem_set, M. apply orb_true_r.
  - exists k. split; [reflexivity|]. rewrite dict_mem_set, String.eqb_refl.
    reflexivity.
Qed.

Lemma references_backed_schemas x registry :
  references_backed x ->
  references_backed
    {| x_schemas := registry;
       x_parameters := x_parameters x;
       x_method_parameters := x_method_parameters x |}.
Proof. intros B r I. exact (B r I). Qed.

Lemma query_group_backed domainName x x' :
  references_backed x -> query_group domainName x = Ok x' ->
  references_backed x'.
Proof.
  unfold query_group. intros B H.
  destruct (group_target _ _ _) as [target| |]; simpl in H; try discriminate.
  destruct (dict_mem (x_schemas x) target); [|now injection H as <-].
  destruct (rename _ _ _) as [registry| |]; simpl in H; try discriminate.
  injection H as <-.
  apply (@references_backed_schemas
           {| x_schemas := x_schemas x;
              x_parameters := dict_set (x_parameters x) _ _;
              x_method_parameters := x_method_parameters x ++ [_] |}).
  now apply references_backed_add.
Qed.

Lemma path_properties_backed key items :
  forall x, references_backed x ->
            references_backed (path_properties key items x).
Proof.
  induction items as [|[k v] items IH]; intros x B; simpl; [exact B|].
  apply IH.
  apply (@references_backed_schemas
           {| x_schemas := x_schemas x;
              x_parameters := dict_set (x_parameters x) _ _;
              x_method_parameters := x_method_parameters x ++ [_] |}).
  now apply references_backed_add.
Qed.

Lemma path_group_inv domainName x x' :
  path_group domainName x = Ok x' ->
  exists target,
    group_target (x_schemas x) "pathParameters" "PathParameters" = Ok target
    /\ ((dict_mem (x_schemas x) target = false /\ x' = x)
        \/ (dict_mem (x_schemas x) target = true
            /\ exists registry aggregate items v registry',
                rename (x_schemas x) target (domainName ++ "PathParameters")
                = Ok registry
                /\ dict_get registry (domainName ++ "PathParameters")
                   = Some aggregate
                /\ json_getitem aggregate "properties" = Ok (JDict items)
                /\ pop (discard
                          (x_schemas
                             (path_properties (domainName ++ "PathParameters")
                                items
                                {| x_schemas := registry;
                                   x_parameters := x_parameters x;
                                   x_method_parameters :=
                                     x_method_parameters x |}))
                          "pathParameters")
                     (domainName ++ "PathParameters") = Ok (v, registry')
                /\ x' =
                   {| x_schemas := registry';
                      x_parameters :=
                        x_parameters
                          (path_properties (domainName ++ "PathParameters")
                             items
                             {| x_schemas := registry;
                                x_parameters := x_parameters x;
                                x_method_parameters :=
                                  x_method_parameters x |});
                      x_method_parameters :=
                        x_method_parameters
                          (path_properties (domainName ++ "PathParameters")
                             items
                             {| x_schemas := registry;
                                x_parameters := x_parameters x;
                                x_method_parameters :=
                                  x_method_parameters x |}) |})).
Proof.
  unfold path_group. intros H.
  destruct (group_target (x_schemas x) "pathParameters" "PathParameters")
    as [target| |]; simpl in H; try discriminate.
  exists target. split; [reflexivity|].
  destruct (dict_mem (x_schemas x) target);
    [right; split; [reflexivity|] | left; now injection H as <-].
  destruct (rename (x_schemas x) target (domainName ++ "PathParameters"))
    as [registry| |] eqn:R; simpl in H; try discriminate.
  destruct (dict_get registry (domainName ++ "PathParameters"))
    as [aggregate|] eqn:A; simpl in H; try discriminate.
  destruct (json_getitem aggregate "properties") as [_properties| |] eqn:G;
    simpl in H; try discriminate.
  destruct _properties as [| | | | |items]; simpl in H; try discriminate.
  match type of H with
  | bind (pop ?r ?k) _ = _ => destruct (pop r k) as [[v registry']| |] eqn:P
  end; simpl in H; try discriminate.
  injection H as <-.
  exists registry, aggregate, items, v, registry'.
  split; [reflexivity|]. split; [exact A|]. split; [exact G|].
  split; [exact P|reflexivity].
Qed.

Lemma path_group_backed domainName x x' :
  references_backed x -> path_group domainName x = Ok x' ->
  references_backed x'.
Proof.
  intros B H.
  apply path_group_inv in H
    as (target & _ & [[_ ->]|(_ & registry & aggregate & items & v & registry'
                              & _ & _ & _ & _ & ->)]); [exact B|].
  apply (@references_backed_schemas (path_properties _ items _)).
  apply path_properties_backed.
  now apply (@references_backed_schemas x).
Qed.

Lemma request_body_parameters inputSchema key entry info :
  request_body inputSchema key entry = Ok info ->
  dict_get info "parameters" = dict_get entry "parameters".
Proof.
  unfold request_body. intros H.
  destruct (class_getattr inputSchema "bodyInput") as [v|]; [|discriminate].
  destruct (truthy v); [|now injection H as <-].
  destruct key as [key|]; [|discriminate]. injection H as <-.
  now apply dict_get_set_neq.
Qed.

(** X13. No reference of a method dangles: the [parameters] list of the
    entry an endpoint leaves under its path and method holds only
    [$ref]s to [#/components/parameters/<key>] whose key is in
    [components.parameters] once the endpoint is processed. *)
Theorem parameter_references_are_backed :
  forall env fuel to_camel_case service st st',
    process_service env fuel to_camel_case service st = Ok st' ->
    exists entry refs,
      get_method (paths (ls_doc st')) (normalized_path service)
        (Str.lower (httpMethod service)) = Some entry
      /\ dict_get entry "parameters" = Some (OVal (JList refs))
      /\ forall r, In r refs ->
                   exists k, r = parameter_ref k
                             /\ dict_mem (parameters (ls_doc st')) k = true.
Proof.
  intros env fuel to_camel_case service st st' H.
  apply process_service_inv in H
    as (inputSchema & outputSchema & d & registry & x1 & x2 & registry2 & key
        & info & registry3 & responses & _ & _ & _ & _ & Q & P & _ & R & _ & ->).
  exists (dict_set info "responses" responses), (x_method_parameters x2).
  split; [|split].
  - simpl. apply get_set_method, set_method_mem, addPath_mem.
  - rewrite dict_get_set_neq by discriminate.
    rewrite (request_body_parameters _ _ _ R). apply dict_get_set_eq.
  - intros r I. simpl.
    assert (B : references_backed x2).
    { apply (@path_group_backed d x1 x2); [|exact P].
      apply (@query_group_backed d
               {| x_schemas := registry; x_parameters := [];
                  x_method_parameters := [] |} x1); [|exact Q].
      intros ? []. }
    destruct (B r I) as (k & -> & M). exists k. split; [reflexivity|].
    rewrite dict_mem_update, M. apply orb_true_r.
Qed.

Lemma parameter_references_are_backed_witness :
  exists st',
    process_service Example.classes 5 true Example.endpoint_config
      TwoEndpoints.start = Ok st'
    /\ exists entry refs,
        get_method (paths (ls_doc st')) "/world/{userId}" "get" = Some entry
        /\ dict_get entry "parameters" = Some (OVal (JList refs))
        /\ forall r, In r refs ->
                     exists k, r = parameter_ref k
                               /\ dict_mem (parameters (ls_doc st')) k = true.
Proof.
  destruct (process_service Example.classes 5 true Example.endpoint_config
              TwoEndpoints.start) as [st'| |] eqn:E;
    try (vm_compute in E; discriminate).
  exists st'. split; [reflexivity|].
  exact (@parameter_references_are_backed _ _ _ _ _ _ E).
Defined.

(** ** Responses *)

Lemma output_processing_inv env fuel to_camel_case domainName outputSchema
      registry registry' responses :
  output_processing env fuel to_camel_case domainName outputSchema registry
  = Ok (registry', responses) ->
  exists cid inspectBody fields f,
    type_hint outputSchema "bodyOutput" = Some (TClass cid)
    /\ lookup_class env cid = Some inspectBody
    /\ dataclass_fields inspectBody = Ok fields
    /\ In f fields
    /\ f_name f = "_contentType"
    /\ responses
       = success_responses (f_default f) (domainName ++ c_name inspectBody)
    /\ dict_mem registry' (domainName ++ c_name inspectBody) = true.
Proof.
  unfold output_processing. intros H.
  match type of H with
  | bind ?m _ = _ => destruct m as [registry1| |]
  end; simpl in H; try discriminate.
  destruct (pop registry1 (c_name outputSchema)) as [[v registry2]| |];
    simpl in H; try discriminate.
  destruct (type_hint outputSchema "bodyOutput")
    as [[| | | | | | | |cid|]|] eqn:T; try discriminate.
  destruct (lookup_class env cid) as [inspectBody|] eqn:L; [|discriminate].
  unfold rename in H.
  destruct (pop registry2 (c_name inspectBody)) as [[w registry3]| |];
    simpl in H; try discriminate.
  destruct (dataclass_fields inspectBody) as [fields| |] eqn:D; simpl in H;
    try discriminate.
  destruct (filter (fun f => String.eqb (f_name f) "_contentType") fields)
    as [|f rest] eqn:F; [discriminate|].
  injection H as <- <-.
  assert (I : In f (filter (fun f => String.eqb (f_name f) "_contentType")
                      fields)) by (rewrite F; now left).
  apply filter_In in I as [I N]. apply String.eqb_eq in N.
  exists cid, inspectBody, fields, f.
  split; [reflexivity|]. split; [exact L|]. split; [exact D|].
  split; [exact I|]. split; [exact N|]. split; [reflexivity|].
  rewrite dict_mem_set, String.eqb_refl. reflexivity.
Qed.

(** X14. The response of an endpoint: the output record's [bodyOutput]
    annotation is a class of the table, the entry left under the path
    and method has as [responses] the one [200] response whose content
    type is the default of that class's [_contentType] field and whose
    schema is a [$ref] to the domain name followed by the class name,
    and that name is in [components.schemas]. *)
Theorem response_refers_to_registered_body :
  forall env fuel to_camel_case service st st',
    process_service env fuel to_camel_case service st = Ok st' ->
    exists inputSchema outputSchema domainName cid inspectBody fields f entry,
      serviceInput service = Some inputSchema
      /\ serviceOutput service = Some outputSchema
      /\ domain_name inputSchema = Ok domainName
      /\ type_hint outputSchema "bodyOutput" = Some (TClass cid)
      /\ lookup_class env cid = Some inspectBody
      /\ dataclass_fields inspectBody = Ok fields
      /\ In f fields
      /\ f_name f = "_contentType"
      /\ get_method (paths (ls_doc st')) (normalized_path service)
           (Str.lower (httpMethod service)) = Some entry
      /\ dict_get entry "responses"
         = Some (success_responses (f_default f)
                   (domainName ++ c_name inspectBody))
      /\ dict_mem (schemas (ls_doc st')) (domainName ++ c_name inspectBody)
         = true.
Proof.
  intros env fuel to_camel_case service st st' H.
  apply process_service_inv in H
    as (inputSchema & outputSchema & d & registry & x1 & x2 & registry2 & key
        & info & registry3 & responses & I & O & D & _ & _ & _ & _ & _ & P & ->).
  apply output_processing_inv in P
    as (cid & inspectBody & fields & f & T & L & F & If & N & -> & M).
  exists inputSchema, outputSchema, d, cid, inspectBody, fields, f,
    (dict_set info "responses"
       (success_responses (f_default f) (d ++ c_name inspectBody))).
  repeat (split; [assumption|]). split; [|split].
  - simpl. apply get_set_method, set_method_mem, addPath_mem.
  - apply dict_get_set_eq.
  - exact M.
Qed.

Lemma response_refers_to_registered_body_witness :
  exists st' entry,
    process_service Example.classes 5 true Example.endpoint_config
      TwoEndpoints.start = Ok st'
    /\ get_method (paths (ls_doc st')) "/world/{userId}" "get" = Some entry
    /\ dict_get entry "responses"
       = Some (success_responses (PStr "application/json") "_OutputBody")
    /\ dict_mem (schemas (ls_doc st')) "_OutputBody" = true.
Proof.
  destruct (process_service Example.classes 5 true Example.endpoint_config
              TwoEndpoints.start) as [st'| |] eqn:E;
    try (vm_compute in E; discriminate).
  destruct (@response_refers_to_registered_body _ _ _ _ _ _ E)
    as (inputSchema & outputSchema & d & cid & inspectBody & fields & f & entry
        & I & O & D & T & L & F & If & N & G & R & M).
  injection I as <-. injection O as <-. injection D as <-.
  injection T as <-. injection L as <-. injection F as <-.
  exists st', entry. split; [reflexivity|]. split; [exact G|].
  cbv in If.
  repeat (destruct If as [<-|If]; [try discriminate N|]); [|destruct If].
  split; [exact R | exact M].
Defined.

(** ** The path record *)

(** X15. A path group that is no object schema stops the run: when the
    registry holds, under the name the path block picks, a dict without
    [properties] (the property of a [pathParameters] field typed as a
    string, say), the block raises [KeyError] on [properties]. *)
Theorem path_group_needs_properties :
  forall domainName x target d,
    group_target (x_schemas x) "pathParameters" "PathParameters" = Ok target ->
    dict_get (x_schemas x) target = Some (JDict d) ->
    dict_get d "properties" = None ->
    path_group domainName x = Raise (KeyError "properties").
Proof.
  intros domainName x target d T G N. unfold path_group. rewrite T. simpl.
  unfold dict_mem, rename, pop. rewrite G. simpl.
  rewrite dict_get_set_eq. simpl. rewrite N. reflexivity.
Qed.

Lemma path_group_needs_properties_witness :
  path_group "_"
    {| x_schemas := [("pathParameters", string_schema)];
       x_parameters := []; x_method_parameters := [] |}
  = Raise (KeyError "properties")
  /\ process_service ScalarPath.classes 5 true ScalarPath.endpoint
       TwoEndpoints.start = Raise (KeyError "properties").
Proof.
  split; [|reflexivity].
  apply (@path_group_needs_properties "_"
           {| x_schemas := [("pathParameters", string_schema)];
              x_parameters := []; x_method_parameters := [] |}
           "pathParameters" [("type", JStr "string")]); reflexivity.
Defined.

Lemma string_app_cancel (a b c : string) :
  (a ++ b)%string = (a ++ c)%string -> b = c.
Proof.
  induction a as [|ch a IH]; simpl; intros H; [exact H|].
  injection H as H. auto.
Qed.

Lemma string_length_app (a b : string) :
  String.length (a ++ b) = String.length a + String.length b.
Proof. induction a as [|ch a IH]; simpl; [reflexivity | now rewrite IH]. Qed.

Lemma path_properties_refs key items :
  forall x,
    x_method_parameters (path_properties key items x)
    = x_method_parameters x
      ++ List.map (fun kv : string * json => parameter_ref (key ++ fst kv)) items.
Proof.
  induction items as [|[k v] items IH]; intros x; simpl.
  - now rewrite app_nil_r.
  - rewrite IH. simpl. now rewrite <- app_assoc.
Qed.

Lemma path_properties_parameter_kept key k items :
  forall x,
    dict_get (x_parameters x) (key ++ k)
    = Some (path_parameter (key ++ k) k) ->
    dict_get (x_parameters (path_properties key items x)) (key ++ k)
    = Some (path_parameter (key ++ k) k).
Proof.
  induction items as [|[k0 v0] items IH]; intros x G; simpl; [exact G|].
  apply IH. simpl. rewrite dict_get_set.
  destruct (String.eqb_spec (key ++ k) (key ++ k0)) as [E|]; [|exact G].
  apply string_app_cancel in E. now subst.
Qed.

Lemma path_properties_parameter key k items :
  forall x,
    In k (dict_keys items) ->
    dict_get (x_parameters (path_properties key items x)) (key ++ k)
    = Some (path_parameter (key ++ k) k).
Proof.
  induction items as [|[k0 v0] items IH]; intros x I; simpl; [destruct I|].
  destruct (String.eqb_spec k k0) as [->|N].
  - apply path_properties_parameter_kept. simpl. apply dict_get_set_eq.
  - apply IH. destruct I as [E|I]; [simpl in E; congruence | exact I].
Qed.

Lemma path_properties_schema_other key k items :
  forall x,
    ~ In k (dict_keys items) ->
    dict_get (x_schemas (path_properties key items x)) (key ++ k)
    = dict_get (x_schemas x) (key ++ k).
Proof.
  induction items as [|[k0 v0] items IH]; intros x N; simpl; [reflexivity|].
  rewrite IH by (intros I; apply N; now right). simpl.
  apply dict_get_set_neq. intros E. apply string_app_cancel in E.
  apply N. now left.
Qed.

Lemma path_properties_schema key k v items :
  forall x,
    NoDup (dict_keys items) ->
    dict_get items k = Some v ->
    dict_get (x_schemas (path_properties key items x)) (key ++ k) = Some v.
Proof.
  induction items as [|[k0 v0] items IH]; intros x D G; [discriminate|].
  simpl in D. inversion D as [|? ? Hn Hd]; subst.
  simpl in G. simpl. destruct (String.eqb_spec k k0) as [->|N].
  - injection G as ->. rewrite path_properties_schema_other by exact Hn.
    simpl. apply dict_get_set_eq.
  - now apply IH.
Qed.

Lemma rename_inv registry old new registry' :
  rename registry old new = Ok registry' ->
  exists v, dict_get registry old = Some v
            /\ registry' = dict_set (dict_del registry old) new v.
Proof.
  unfold rename, pop. destruct (dict_get registry old) as [v|]; simpl;
    [|discriminate].
  intros H. injection H as <-. now exists v.
Qed.

(** X16. What the path block makes of the record it picks: the group's
    [properties] are read from the schema stored under the picked name,
    the method's [parameters] list grows by one reference per property,
    in the order of the properties, each property has its parameter
    object ([in: path], required) under the group key followed by the
    property name, and, for distinct property names, the property's
    schema is in the registry under that same key. *)
Theorem path_record_becomes_parameters :
  forall domainName x x' target,
    path_group domainName x = Ok x' ->
    group_target (x_schemas x) "pathParameters" "PathParameters" = Ok target ->
    dict_mem (x_schemas x) target = true ->
    exists aggregate items,
      dict_get (x_schemas x) target = Some aggregate
      /\ json_getitem aggregate "properties" = Ok (JDict items)
      /\ x_method_parameters x'
         = x_method_parameters x
           ++ List.map
                (fun kv : string * json =>
                   parameter_ref ((domainName ++ "PathParameters") ++ fst kv))
                items
      /\ (forall k,
             In k (dict_keys items) ->
             dict_get (x_parameters x') ((domainName ++ "PathParameters") ++ k)
             = Some (path_parameter
                       ((domainName ++ "PathParameters") ++ k) k))
      /\ (NoDup (dict_keys items) ->
          forall k v,
            dict_get items k = Some v -> k <> EmptyString ->
            dict_get (x_schemas x') ((domainName ++ "PathParameters") ++ k)
            = Some v).
Proof.
  intros domainName x x' target H T M.
  apply path_group_inv in H as (target' & T' & H).
  rewrite T in T'. injection T' as <-.
  destruct H as [[M' _]|(_ & registry & aggregate & items & w & registry'
                         & R & A & G & P & ->)]; [congruence|].
  apply rename_inv in R as (v & Gv & ->).
  rewrite dict_get_set_eq in A. injection A as ->.
  exists aggregate, items. split; [exact Gv|]. split; [exact G|].
  split; [|split].
  - simpl. rewrite path_properties_refs. reflexivity.
  - intros k I. simpl. now apply path_properties_parameter.
  - intros D k u Gk Nk. simpl.
    unfold pop in P.
    destruct (dict_get (discard _ "pathParameters") _); [|discriminate].
    injection P as _ <-.
    assert (L : String.length ((domainName ++ "PathParameters") ++ k)
                <> String.length "pathParameters").
    { rewrite !string_length_app. simpl.
      destruct k; [congruence | simpl; lia]. }
    rewrite dict_get_del_neq, dict_get_discard_neq.
    + now apply path_properties_schema.
    + intros E. apply L. now rewrite E.
    + intros E.
      rewrite <- (string_app_empty (domainName ++ "PathParameters")) in E at 2.
      apply string_app_cancel in E. contradiction.
Qed.

Lemma path_record_becomes_parameters_witness :
  exists x',
    path_group "_"
      {| x_schemas :=
           [("PathParameters", object_schema [("userId", string_schema)]
                                 ["userId"])];
         x_parameters := []; x_method_parameters := [] |} = Ok x'
    /\ x_method_parameters x'
       = [parameter_ref "_PathParametersuserId"]
    /\ dict_get (x_parameters x') "_PathParametersuserId"
       = Some (path_parameter "_PathParametersuserId" "userId")
    /\ dict_get (x_schemas x') "_PathParametersuserId" = Some string_schema.
Proof.
  destruct (path_group "_"
              {| x_schemas :=
                   [("PathParameters",
                     object_schema [("userId", string_schema)] ["userId"])];
                 x_parameters := []; x_method_parameters := [] |})
    as [x'| |] eqn:E; try (vm_compute in E; discriminate).
  destruct (@path_record_becomes_parameters _ _ _ "PathParameters" E
              eq_refl eq_refl)
    as (aggregate & items & A & G & R & P & S).
  injection A as <-. injection G as <-.
  exists x'. split; [reflexivity|]. split; [exact R|]. split.
  - apply (P "userId"). now left.
  - apply (S ltac:(repeat constructor; intros []) "userId" string_schema);
      [reflexivity | discriminate].
Defined.

(** ** The head of the document *)

Lemma process_service_header env fuel to_camel_case service st st' :
  process_service env fuel to_camel_case service st = Ok st' ->
  openapi (ls_doc st') = openapi (ls_doc st)
  /\ info (ls_doc st') = info (ls_doc st)
  /\ responses (ls_doc st') = responses (ls_doc st)
  /\ examples (ls_doc st') = examples (ls_doc st).
Proof.
  intros H.
  apply process_service_inv in H
    as (inputSchema & outputSchema & d & registry & x1 & x2 & registry2 & key
        & entry & registry3 & resp & _ & _ & _ & _ & _ & _ & _ & _ & _ & ->).
  simpl. auto.
Qed.

Lemma services_loop_header env fuel to_camel_case services_info :
  forall st st',
    services_loop env fuel to_camel_case services_info st = Ok st' ->
    openapi (ls_doc st') = openapi (ls_doc st)
    /\ info (ls_doc st') = info (ls_doc st)
    /\ responses (ls_doc st') = responses (ls_doc st)
    /\ examples (ls_doc st') = examples (ls_doc st).
Proof.
  induction services_info as [|service rest IH]; simpl; intros st st' H.
  - injection H as <-. auto.
  - destruct (process_service env fuel to_camel_case service st) as [st1| |] eqn:E;
      simpl in H; try discriminate.
    apply process_service_header in E as (A & B & C & D).
    apply IH in H as (A' & B' & C' & D').
    repeat split; congruence.
Qed.

(** X17. [build_openapi_base] followed by [generate]: when the run
    returns, the document still has the version given to the constructor
    under [openapi], the three [info] entries given to
    [build_openapi_base] and empty [responses] and [examples]; its dump
    is the content of the output file, and every other file is what it
    was. *)
Theorem generate_keeps_document_head :
  forall env fuel yaml_dump g title description version fs g' fs',
    generate env fuel yaml_dump
      (build_openapi_base g title description version) fs = (Ok g', fs') ->
    exists doc,
      openapi_build g' = Some doc
      /\ openapi doc = openapi_version g
      /\ info doc = [("title", JStr title);
                     ("description", JStr description);
                     ("version", JStr version)]
      /\ responses doc = []
      /\ examples doc = []
      /\ dict_get fs' (output_openapi_file g) = Some (yaml_dump (Some doc))
      /\ forall f, f <> output_openapi_file g -> dict_get fs' f = dict_get fs f.
Proof.
  intros env fuel yaml_dump g title description version fs g' fs' H.
  apply generate_inv in H as [P ->].
  unfold process_configured, process_services in P. simpl in P.
  assert (K : exists doc,
             openapi_build g' = Some doc
             /\ openapi doc = openapi_version g
             /\ info doc = [("title", JStr title);
                            ("description", JStr description);
                            ("version", JStr version)]
             /\ responses doc = []
             /\ examples doc = []).
  { destruct (endpoint_config g) as [|service rest].
    - injection P as <-. simpl. eexists. split; [reflexivity|]. simpl. auto.
    - match type of P with
      | bind ?m _ = _ => destruct m as [st| |] eqn:L
      end; simpl in P; try discriminate.
      injection P as <-. simpl.
      apply services_loop_header in L as (A & B & C & D). simpl in *.
      exists (ls_doc st). auto. }
  destruct K as (doc & B & K). exists doc. split; [exact B|].
  repeat (split; [apply K|]). rewrite B. simpl. split.
  - apply dict_get_set_eq.
  - intros f N. now apply dict_get_set_neq.
Qed.

Lemma generate_keeps_document_head_witness :
  exists g' fs' doc,
    generate Example.classes 5 (fun _ => "dump")
      (build_openapi_base
         (Build_OpenApiGenerator "output_openapi.yaml" OneEndpointConfig
            [Example.endpoint_config] "3.1.0" None true)
         "Service" "Description" "1.0")
      [("notes.txt", "kept")] = (Ok g', fs')
    /\ openapi_build g' = Some doc
    /\ openapi doc = "3.1.0"
    /\ dict_get fs' "output_openapi.yaml" = Some "dump"
    /\ dict_get fs' "notes.txt" = Some "kept".
Proof.
  destruct (generate Example.classes 5 (fun _ => "dump")
              (build_openapi_base
                 (Build_OpenApiGenerator "output_openapi.yaml" OneEndpointConfig
                    [Example.endpoint_config] "3.1.0" None true)
                 "Service" "Description" "1.0")
              [("notes.txt", "kept")]) as [[g'| |] fs'] eqn:E;
    try (vm_compute in E; discriminate).
  destruct (@generate_keeps_document_head _ _ _ _ _ _ _ _ _ _ E)
    as (doc & B & V & _ & _ & _ & W & O).
  exists g', fs', doc. split; [reflexivity|]. split; [exact B|].
  split; [exact V|]. split; [exact W|].
  rewrite (O "notes.txt") by discriminate. reflexivity.
Defined.

(** ** The query record *)

(** X18. What the query block makes of the record it picks: the schema
    stored under the picked name is stored under the domain name followed
    by [QueryStringParameters], that key gets the one parameter object
    ([in: query], not required), one reference to it is appended to the
    method's [parameters], and in a registry with distinct keys neither
    [queryStringParameters] nor the picked name (when it differs from
    the new key) is left. *)
Theorem query_record_becomes_parameter :
  forall domainName x x' target,
    query_group domainName x = Ok x' ->
    group_target (x_schemas x) "queryStringParameters" "QueryStringParameters"
    = Ok target ->
    dict_mem (x_schemas x) target = true ->
    exists v,
      dict_get (x_schemas x) target = Some v
      /\ dict_get (x_schemas x') (domainName ++ "QueryStringParameters") = Some v
      /\ dict_get (x_parameters x') (domainName ++ "QueryStringParameters")
         = Some (query_parameter (domainName ++ "QueryStringParameters"))
      /\ x_method_parameters x'
         = x_method_parameters x
           ++ [parameter_ref (domainName ++ "QueryStringParameters")]
      /\ (NoDup (dict_keys (x_schemas x)) ->
          dict_mem (x_schemas x') "queryStringParameters" = false
          /\ (target <> (domainName ++ "QueryStringParameters")%string ->
              dict_mem (x_schemas x') target = false)).
Proof.
  intros domainName x x' target H T M. unfold query_group in H.
  rewrite T in H. simpl in H. rewrite M in H.
  destruct (rename (x_schemas x) target (domainName ++ "QueryStringParameters"))
    as [registry| |] eqn:R; simpl in H; try discriminate.
  injection H as <-. simpl.
  apply rename_inv in R as (v & G & ->).
  assert (L : (domainName ++ "QueryStringParameters")%string
              <> "queryStringParameters").
  { destruct domainName as [|c [|c' t]]; simpl; try discriminate.
    intros E. apply (f_equal String.length) in E. simpl in E.
    rewrite string_length_app in E. simpl in E. lia. }
  exists v. split; [exact G|]. split; [|split; [|split]].
  - rewrite dict_get_discard_neq by exact L. apply dict_get_set_eq.
  - apply dict_get_set_eq.
  - reflexivity.
  - intros D.
    assert (D' : NoDup (dict_keys
                          (dict_set (dict_del (x_schemas x) target)
                             (domainName ++ "QueryStringParameters") v)))
      by now apply dict_set_NoDup, dict_del_NoDup.
    split; [now apply discard_gone|].
    intros N. destruct (String.eqb_spec target "queryStringParameters") as [->|N'].
    + now apply discard_gone.
    + unfold dict_mem. rewrite dict_get_discard_neq by exact N'.
      rewrite dict_get_set_neq by exact N.
      now rewrite dict_get_del_same.
Qed.

Lemma query_record_becomes_parameter_witness :
  exists x',
    query_group "_"
      {| x_schemas :=
           [("queryStringParameters",
             JDict [("oneOf", JList [schema_ref "QueryStringParametersUser"])]);
            ("QueryStringParametersUser",
             object_schema [("user", string_schema)] ["user"])];
         x_parameters := []; x_method_parameters := [] |} = Ok x'
    /\ dict_get (x_schemas x') "_QueryStringParameters"
       = Some (JDict [("oneOf",
                       JList [schema_ref "QueryStringParametersUser"])])
    /\ x_method_parameters x' = [parameter_ref "_QueryStringParameters"]
    /\ dict_mem (x_schemas x') "queryStringParameters" = false.
Proof.
  destruct (query_group "_"
              {| x_schemas :=
                   [("queryStringParameters",
                     JDict [("oneOf",
                             JList [schema_ref "QueryStringParametersUser"])]);
                    ("QueryStringParametersUser",
                     object_schema [("user", string_schema)] ["user"])];
                 x_parameters := []; x_method_parameters := [] |})
    as [x'| |] eqn:E; try (vm_compute in E; discriminate).
  destruct (@query_record_becomes_parameter _ _ _ "queryStringParameters" E
              eq_refl eq_refl)
    as (v & G & S & _ & R & D).
  injection G as <-.
  exists x'. split; [reflexivity|]. split; [exact S|]. split; [exact R|].
  assert (N : NoDup ["queryStringParameters"; "QueryStringParametersUser"]).
  { constructor; [intros [N|[]]; discriminate|].
    constructor; [intros []|constructor]. }
  exact (proj1 (D N)).
Defined.
